(** * express-mongodb-restaurant-crud: the handlers of [app.js]

    A shallow embedding of the Express application in [src/app.js]:
    the bearer-token middleware, the sign-up and login handlers and the
    restaurant search, update and delete handlers, over an explicit
    model of the two MongoDB collections.

    The third-party packages the file requires (bcrypt, jsonwebtoken's
    signing backend, MongoDB's regular-expression engine, the ObjectId
    parser) are an interface, [Platform], that every definition and
    theorem is parametric in.  What [app.js] itself computes -- header
    splitting, truthiness tests, the order of the lookups, the
    try/catch blocks, the status codes and bodies -- is written out. *)

From Stdlib Require Import String Ascii List ZArith NArith Bool Lia.
From Stdlib Require Import DecimalString.
Import ListNotations.

Open Scope string_scope.
Open Scope list_scope.

(* ================================================================= *)
(** ** JavaScript helpers used by the handlers *)

Module Js.

(** [!!s] for a string: only the empty string is falsy. *)
Definition truthy (s : string) : bool :=
  match s with
  | EmptyString => false
  | String _ _ => true
  end.

(** [!!v] for a value that is either [undefined] or a string. *)
Definition truthy_opt (v : option string) : bool :=
  match v with
  | None => false
  | Some s => truthy s
  end.

(** [s.split(sep)] for a one-character separator: never empty,
    ["".split(sep)] is [[""]]. *)
Fixpoint split (sep : ascii) (s : string) : list string :=
  match s with
  | EmptyString => [EmptyString]
  | String c rest =>
      if Ascii.eqb c sep then EmptyString :: split sep rest
      else match split sep rest with
           | [] => [String c EmptyString]
           | field :: fields => String c field :: fields
           end
  end.

(** [arr[i]]: [undefined] out of range. *)
Definition index {A : Type} (arr : list A) (i : nat) : option A :=
  nth_error arr i.

(** [s.includes(c)] for one character. *)
Fixpoint includes (s : string) (c : ascii) : bool :=
  match s with
  | EmptyString => false
  | String d rest => Ascii.eqb d c || includes rest c
  end.

End Js.

(* ================================================================= *)
(** ** Case-insensitive matching *)

Module Text.

(** ASCII case folding, as the [i] option does on ASCII letters. *)
Definition lower (c : ascii) : ascii :=
  let n := nat_of_ascii c in
  if (65 <=? n)%nat && (n <=? 90)%nat then ascii_of_nat (n + 32) else c.

Definition eqb_i (a b : ascii) : bool := Ascii.eqb (lower a) (lower b).

(** [p] is, ignoring case, a prefix of [s]. *)
Fixpoint prefix_i (p s : string) : bool :=
  match p, s with
  | EmptyString, _ => true
  | String _ _, EmptyString => false
  | String a p', String b s' => eqb_i a b && prefix_i p' s'
  end.

(** [p] is, ignoring case, a substring of [s]. *)
Fixpoint substring_i (p s : string) : bool :=
  prefix_i p s ||
  match s with
  | EmptyString => false
  | String _ s' => substring_i p s'
  end.

End Text.

(** The part of the regular-expression language whose meaning is
    written out here: patterns made of literal characters and of the
    wildcard [.], searched anywhere in the subject, ignoring case
    (option [i]).  [compile] answers [None] on every other pattern: it
    says nothing about them. *)
Module Pcre.

Definition metachars : string := "\^$.|?*+()[]{}".

Definition newline : ascii := ascii_of_nat 10.

(** One pattern character against one subject character. *)
Definition atom_i (pc c : ascii) : bool :=
  if Ascii.eqb pc "."%char then negb (Ascii.eqb c newline)
  else Text.eqb_i pc c.

Fixpoint here_i (p s : string) : bool :=
  match p, s with
  | EmptyString, _ => true
  | String _ _, EmptyString => false
  | String pc p', String c s' => atom_i pc c && here_i p' s'
  end.

Fixpoint search_i (p s : string) : bool :=
  here_i p s ||
  match s with
  | EmptyString => false
  | String _ s' => search_i p s'
  end.

(** No metacharacter at all. *)
Fixpoint literal (p : string) : bool :=
  match p with
  | EmptyString => true
  | String c p' => negb (Js.includes metachars c) && literal p'
  end.

(** Literal characters and dots only. *)
Fixpoint in_fragment (p : string) : bool :=
  match p with
  | EmptyString => true
  | String c p' =>
      (Ascii.eqb c "."%char || negb (Js.includes metachars c))
      && in_fragment p'
  end.

Definition compile (p : string) : option (string -> bool) :=
  if in_fragment p then Some (search_i p) else None.

End Pcre.

(* ================================================================= *)
(** ** Data model: the two Mongoose schemas *)

(** A store-assigned document identifier. *)
Definition ObjectId : Type := N.

(** [usersSchema]: both paths are required strings, [email] is
    unique. *)
Module usersSchema.

Record t : Type := mk {
  _id : ObjectId;
  email : string;
  password : string
}.

End usersSchema.

(** [restaurantSchema]: every path is optional. *)
Module restaurantSchema.

Record address_t : Type := mk_address {
  building : option string;
  street : option string;
  zipcode : option string
}.

Record grade_t : Type := mk_grade {
  date : option Z;
  grade : option string;
  score : option Z
}.

(** The restaurant paths, as a stored document has them and as a
    request body supplies them: [None] is a path that is not there. *)
Record fields : Type := mk_fields {
  address : option address_t;
  borough : option string;
  cuisine : option string;
  grades : option (list grade_t);
  name : option string;
  restaurant_id : option string
}.

Record t : Type := mk {
  _id : ObjectId;
  paths : fields
}.

End restaurantSchema.

(** The claims [jwt.sign] puts in a token and [jwt.verify] gives
    back; times are seconds since the epoch. *)
Module Claims.

Record t : Type := mk {
  userId : ObjectId;
  email : string;
  iat : Z;
  exp : option Z
}.

End Claims.

(* ================================================================= *)
(** ** Errors, responses *)

(** What a rejected promise or a [throw] carries. *)
Inductive Error : Type :=
| MongoError (message : string)
| ValidationError (message : string)
| CastError (message : string)
| BcryptError (message : string)
| JwtError (message : string).

(** [err.message] *)
Definition message (err : Error) : string :=
  match err with
  | MongoError m | ValidationError m | CastError m
  | BcryptError m | JwtError m => m
  end.

(** The JSON bodies the handlers send. *)
Inductive Json : Type :=
| JError (error : string)
| JErrorDetails (error details : string)
| JMessage (message : string)
| JToken (token : string)
| JRestaurant (r : restaurantSchema.t)
| JRestaurants (rs : list restaurantSchema.t).

(** [res.status(s).json(b)]; [res.json(b)] alone has status 200. *)
Record Response : Type := respond { status : Z; body : Json }.

Definition json (b : Json) : Response := respond 200 b.

(* ================================================================= *)
(** ** The packages [app.js] requires *)

Class Platform : Type := {
  (** [process.env.JWT_SECRET]; [None] when the variable is unset. *)
  JWT_SECRET : option string;
  (** bcrypt's hash of a string under a given salt (cost 10). *)
  bcrypt_hash : string -> string -> string;
  (** bcrypt's comparison of a string with a stored hash. *)
  bcrypt_compare : string -> string -> bool;
  (** jws: the compact serialisation of claims signed with a secret
      (HS256), its decoder and its signature check. *)
  jws_sign : Claims.t -> string -> string;
  jws_decode : string -> option Claims.t;
  jws_verify : string -> string -> bool;
  (** MongoDB's [$regex] with [$options: 'i']: [None] when the pattern
      does not compile, else the test on a subject string. *)
  regex_i : string -> option (string -> bool);
  (** Mongoose's cast of a path parameter to an ObjectId. *)
  castObjectId : string -> option ObjectId
}.

(* ================================================================= *)
(** ** The store and the monad of asynchronous code *)

(** The database: the two collections in natural order, the next
    identifier to assign, and what the coming round trips to the
    server will meet ([Some m]: that round trip fails with message
    [m]; once the list is used up every round trip succeeds). *)
Record Db : Type := mkDb {
  users : list usersSchema.t;
  restaurants : list restaurantSchema.t;
  next_oid : ObjectId;
  faults : list (option string)
}.

Inductive Result (A : Type) : Type :=
| Ok (a : A)
| Throw (err : Error).

Arguments Ok {A} a.
Arguments Throw {A} err.

(** An [async] computation: it reads and writes the store and either
    returns or throws. *)
Definition M (A : Type) : Type := Db -> Result A * Db.

Definition ret {A : Type} (a : A) : M A := fun db => (Ok a, db).

Definition throw {A : Type} (err : Error) : M A := fun db => (Throw err, db).

(** [await]: a throw leaves the rest unexecuted. *)
Definition bind {A B : Type} (m : M A) (k : A -> M B) : M B :=
  fun db =>
    match m db with
    | (Ok a, db') => k a db'
    | (Throw err, db') => (Throw err, db')
    end.

(** [try { m } catch (err) { h err }] *)
Definition try_catch {A : Type} (m : M A) (h : Error -> M A) : M A :=
  fun db =>
    match m db with
    | (Ok a, db') => (Ok a, db')
    | (Throw err, db') => h err db'
    end.

Definition lift {A : Type} (r : Result A) : M A :=
  match r with
  | Ok a => ret a
  | Throw err => throw err
  end.

Declare Scope async_scope.
Delimit Scope async_scope with async.

Notation "x <- m ;; k" := (bind m (fun x => k))
  (at level 100, m at next level, right associativity) : async_scope.
Notation "m ;;; k" := (bind m (fun _ => k))
  (at level 100, right associativity) : async_scope.

Open Scope async_scope.

(** One round trip to the server. *)
Definition round_trip : M unit :=
  fun db =>
    match faults db with
    | [] => (Ok tt, db)
    | None :: later =>
        (Ok tt, mkDb (users db) (restaurants db) (next_oid db) later)
    | Some m :: later =>
        (Throw (MongoError m),
         mkDb (users db) (restaurants db) (next_oid db) later)
    end.

Definition get_users : M (list usersSchema.t) := fun db => (Ok (users db), db).

Definition put_users (us : list usersSchema.t) : M unit :=
  fun db => (Ok tt, mkDb us (restaurants db) (next_oid db) (faults db)).

Definition get_restaurants : M (list restaurantSchema.t) :=
  fun db => (Ok (restaurants db), db).

Definition put_restaurants (rs : list restaurantSchema.t) : M unit :=
  fun db => (Ok tt, mkDb (users db) rs (next_oid db) (faults db)).

(** A fresh ObjectId. *)
Definition fresh_oid : M ObjectId :=
  fun db =>
    (Ok (next_oid db),
     mkDb (users db) (restaurants db) (N.succ (next_oid db)) (faults db)).

(* ================================================================= *)
(** ** The library calls, as [app.js] makes them *)

(** [req.body] of [/signup] and [/login] after [const { email,
    password } = req.body]: [email] as a string (it goes to the store as
    a filter value), [password] possibly [undefined]. *)
Record Credentials : Type := credentials {
  cred_email : string;
  cred_password : option string
}.

Module bcrypt.
Section Bcrypt.
Context `{Platform}.

(** [bcrypt.hash(data, 10)]: rejects when [data] is not there;
    [salt] is the salt the call draws. *)
Definition hash (salt : string) (data : option string) : M string :=
  match data with
  | None => throw (BcryptError "data and salt arguments required")
  | Some d => ret (bcrypt_hash salt d)
  end.

(** [bcrypt.compare(data, encrypted)]: rejects when [data] is not
    there. *)
Definition compare (data : option string) (encrypted : string) : M bool :=
  match data with
  | None => throw (BcryptError "data and hash arguments required")
  | Some d => ret (bcrypt_compare d encrypted)
  end.

End Bcrypt.
End bcrypt.

Module jwt.

(** Why [jwt.verify] hands an [err] to its callback. *)
Inductive VerifyError : Type :=
| MustBeProvided
| Malformed
| InvalidToken
| SecretMissing
| InvalidSignature
| Expired.

(** [expiresIn: '1h'] in seconds. *)
Definition expiresIn_1h : Z := 60 * 60.

(** [Math.floor(Date.now() / 1000)] *)
Definition timestamp (now_ms : Z) : Z := (now_ms / 1000)%Z.

Section Jwt.
Context `{Platform}.

(** [jwt.sign({ userId, email }, secret, { expiresIn: '1h' })] at
    clock [now_ms]: throws without a secret; else stamps [iat], sets
    [exp] one hour later and signs. *)
Definition sign (userId : ObjectId) (email : string)
    (secret : option string) (now_ms : Z) : Result string :=
  match secret with
  | Some key =>
      if Js.truthy key then
        let iat := timestamp now_ms in
        Ok (jws_sign (Claims.mk userId email iat (Some (iat + expiresIn_1h)%Z)) key)
      else Throw (JwtError "secretOrPrivateKey must have a value")
  | None => Throw (JwtError "secretOrPrivateKey must have a value")
  end.

(** [jwt.verify(token, secret, callback)] at clock [now_ms]: the
    callback's [(err, user)] as a sum. *)
Definition verify (token : string) (secret : option string) (now_ms : Z)
    : VerifyError + Claims.t :=
  if negb (Js.truthy token) then inl MustBeProvided
  else if negb (length (Js.split "."%char token) =? 3)%nat then inl Malformed
  else match jws_decode token with
       | None => inl InvalidToken
       | Some payload =>
           match secret with
           | None => inl SecretMissing
           | Some key =>
               if negb (Js.truthy key) then inl SecretMissing
               else if negb (jws_verify token key) then inl InvalidSignature
               else match Claims.exp payload with
                    | Some e =>
                        if (e <=? timestamp now_ms)%Z then inl Expired
                        else inr payload
                    | None => inr payload
                    end
           end
       end.

End Jwt.
End jwt.

(** The [Users] model. *)
Module Users.
Section Users.
Context `{Platform}.

Definition has_email (email : string) (u : usersSchema.t) : bool :=
  String.eqb (usersSchema.email u) email.

(** [Users.findOne({ email })]: the first user with that email, or
    [null]. *)
Definition findOne (email : string) : M (option usersSchema.t) :=
  round_trip ;;;
  us <- get_users ;;
  ret (find (has_email email) us).

(** [new Users({ email, password })]: a document with a fresh
    [_id], not yet stored. *)
Definition new (email password : string) : M usersSchema.t :=
  oid <- fresh_oid ;;
  ret (usersSchema.mk oid email password).

(** [doc.save()]: the schema's [required] validators run first (an
    empty string does not satisfy [required]), then the insert, which
    the unique index on [email] can refuse. *)
Definition save (doc : usersSchema.t) : M unit :=
  if negb (Js.truthy (usersSchema.email doc)) then
    throw (ValidationError "Users validation failed: email: Path `email` is required.")
  else if negb (Js.truthy (usersSchema.password doc)) then
    throw (ValidationError "Users validation failed: password: Path `password` is required.")
  else
    round_trip ;;;
    us <- get_users ;;
    if existsb (has_email (usersSchema.email doc)) us then
      throw (MongoError "E11000 duplicate key error")
    else put_users (us ++ [doc]).

Definition has_id (oid : ObjectId) (u : usersSchema.t) : bool :=
  N.eqb (usersSchema._id u) oid.

(** The first user with identifier [oid] removed. *)
Fixpoint remove_first (oid : ObjectId) (us : list usersSchema.t)
    : list usersSchema.t :=
  match us with
  | [] => []
  | u :: rest => if has_id oid u then rest else u :: remove_first oid rest
  end.

(** [Users.findByIdAndDelete(userId)] for the [userId] of verified
    claims, which is an ObjectId: [null] when no user has the
    identifier, else the deleted user. *)
Definition findByIdAndDelete (oid : ObjectId) : M (option usersSchema.t) :=
  round_trip ;;;
  us <- get_users ;;
  match List.find (has_id oid) us with
  | None => ret None
  | Some doc =>
      put_users (remove_first oid us) ;;;
      ret (Some doc)
  end.

End Users.
End Users.

(** [req.query] of [/restaurants/search] after [const { name, cuisine }
    = req.query]: each parameter a string or [undefined]. *)
Module Query.

Record t : Type := mk {
  name : option string;
  cuisine : option string
}.

End Query.

(** The [Restaurant] model. *)
Module Restaurant.

(** The [query] object of the search handler: per path, the pattern
    of its [{ $regex, $options: 'i' }] condition, if it has one. *)
Record filter : Type := mk_filter {
  name_regex : option string;
  cuisine_regex : option string
}.

(** One stored document under an update document whose keys are
    schema paths: every path the update supplies is set, every other
    path keeps its value. *)
Definition set_path {A : Type} (supplied stored : option A) : option A :=
  match supplied with
  | Some v => Some v
  | None => stored
  end.

Definition apply_update (update : restaurantSchema.fields)
    (doc : restaurantSchema.t) : restaurantSchema.t :=
  let old := restaurantSchema.paths doc in
  restaurantSchema.mk (restaurantSchema._id doc)
    (restaurantSchema.mk_fields
       (set_path (restaurantSchema.address update) (restaurantSchema.address old))
       (set_path (restaurantSchema.borough update) (restaurantSchema.borough old))
       (set_path (restaurantSchema.cuisine update) (restaurantSchema.cuisine old))
       (set_path (restaurantSchema.grades update) (restaurantSchema.grades old))
       (set_path (restaurantSchema.name update) (restaurantSchema.name old))
       (set_path (restaurantSchema.restaurant_id update) (restaurantSchema.restaurant_id old))).

Definition has_id (oid : ObjectId) (r : restaurantSchema.t) : bool :=
  N.eqb (restaurantSchema._id r) oid.

(** The first document with identifier [oid] replaced by its image
    under [f]. *)
Fixpoint update_first (oid : ObjectId)
    (f : restaurantSchema.t -> restaurantSchema.t)
    (rs : list restaurantSchema.t) : list restaurantSchema.t :=
  match rs with
  | [] => []
  | r :: rest =>
      if has_id oid r then f r :: rest else r :: update_first oid f rest
  end.

(** The first document with identifier [oid] removed. *)
Fixpoint remove_first (oid : ObjectId) (rs : list restaurantSchema.t)
    : list restaurantSchema.t :=
  match rs with
  | [] => []
  | r :: rest => if has_id oid r then rest else r :: remove_first oid rest
  end.

(** A condition on one string path: a path that is not there
    satisfies no [$regex]. *)
Definition path_matches (test : option (string -> bool))
    (value : option string) : bool :=
  match test with
  | None => true
  | Some t =>
      match value with
      | Some v => t v
      | None => false
      end
  end.

(** The schema's defaults: an array path that is not supplied is the
    empty array.  (The identifiers Mongoose gives to the elements of
    [grades] are not among the paths of [grade_t].) *)
Definition with_defaults (body : restaurantSchema.fields)
    : restaurantSchema.fields :=
  restaurantSchema.mk_fields
    (restaurantSchema.address body)
    (restaurantSchema.borough body)
    (restaurantSchema.cuisine body)
    (Some (match restaurantSchema.grades body with
           | Some gs => gs
           | None => []
           end))
    (restaurantSchema.name body)
    (restaurantSchema.restaurant_id body).

(** What Mongoose hands back for a stored document it loads: the
    document with the schema's defaults on the paths it lacks.  The
    store keeps the document as it is. *)
Definition hydrate (doc : restaurantSchema.t) : restaurantSchema.t :=
  restaurantSchema.mk (restaurantSchema._id doc)
    (with_defaults (restaurantSchema.paths doc)).

Section Restaurant.
Context `{Platform}.

(** The compiled condition of one path: [Ok None] when the path is
    unconstrained. *)
Definition condition (pattern : option string)
    : Result (option (string -> bool)) :=
  match pattern with
  | None => Ok None
  | Some p =>
      match regex_i p with
      | Some t => Ok (Some t)
      | None => Throw (MongoError "Regular expression is invalid")
      end
  end.

(** [Restaurant.find(query)]: the stored documents that satisfy the
    conditions, in store order, each as it is stored (what loading adds
    to a document is [hydrate]). *)
Definition find (query : filter) : M (list restaurantSchema.t) :=
  round_trip ;;;
  by_name <- lift (condition (name_regex query)) ;;
  by_cuisine <- lift (condition (cuisine_regex query)) ;;
  rs <- get_restaurants ;;
  ret (List.filter
         (fun r =>
            path_matches by_name (restaurantSchema.name (restaurantSchema.paths r))
            && path_matches by_cuisine (restaurantSchema.cuisine (restaurantSchema.paths r)))
         rs).

(** [Restaurant.findByIdAndUpdate(id, update, { new: true })]: the
    cast of [id] comes first; [null] when no document has the
    identifier, else the document after the update, as loaded. *)
Definition findByIdAndUpdate (id : string) (update : restaurantSchema.fields)
    : M (option restaurantSchema.t) :=
  match castObjectId id with
  | None => throw (CastError "Cast to ObjectId failed")
  | Some oid =>
      round_trip ;;;
      rs <- get_restaurants ;;
      match List.find (has_id oid) rs with
      | None => ret None
      | Some doc =>
          put_restaurants (update_first oid (apply_update update) rs) ;;;
          ret (Some (hydrate (apply_update update doc)))
      end
  end.

(** [Restaurant.findByIdAndDelete(id)]: [null] when no document has
    the identifier, else the deleted document. *)
Definition findByIdAndDelete (id : string) : M (option restaurantSchema.t) :=
  match castObjectId id with
  | None => throw (CastError "Cast to ObjectId failed")
  | Some oid =>
      round_trip ;;;
      rs <- get_restaurants ;;
      match List.find (has_id oid) rs with
      | None => ret None
      | Some doc =>
          put_restaurants (remove_first oid rs) ;;;
          ret (Some doc)
      end
  end.

(** [new Restaurant(req.body)]: a document with a fresh [_id] and the
    schema's defaults, not yet stored. *)
Definition new (body : restaurantSchema.fields) : M restaurantSchema.t :=
  oid <- fresh_oid ;;
  ret (restaurantSchema.mk oid (with_defaults body)).

(** [doc.save()]: no path is required, so the insert follows at once;
    the index on [_id] refuses an identifier that is taken.  The promise
    resolves to the document. *)
Definition save (doc : restaurantSchema.t) : M restaurantSchema.t :=
  round_trip ;;;
  rs <- get_restaurants ;;
  if existsb (has_id (restaurantSchema._id doc)) rs then
    throw (MongoError "E11000 duplicate key error")
  else
    put_restaurants (rs ++ [doc]) ;;;
    ret doc.

(** [Restaurant.find()] without a query: every document. *)
Definition find_all : M (list restaurantSchema.t) :=
  find (mk_filter None None).

(** [Restaurant.findById(id)]: the cast of [id] comes first; [null]
    when no document has the identifier, else the first document that
    has it, as loaded. *)
Definition findById (id : string) : M (option restaurantSchema.t) :=
  match castObjectId id with
  | None => throw (CastError "Cast to ObjectId failed")
  | Some oid =>
      round_trip ;;;
      rs <- get_restaurants ;;
      ret (option_map hydrate (List.find (has_id oid) rs))
  end.

End Restaurant.
End Restaurant.

(* ================================================================= *)
(** ** The middleware and the route handlers *)

(** A handler is an [M Response]: its run ends in a response sent
    ([Ok]), or in an error that left the [async] function with no
    response sent ([Throw]: a rejected promise nothing catches). *)

Section App.
Context `{Platform}.

(** [req.headers['authorization'] &&
    req.headers['authorization'].split(' ')[1]]: [a && b] is [a] when
    [a] is falsy. *)
Definition header_token (authorization : option string) : option string :=
  match authorization with
  | None => None
  | Some h =>
      if Js.truthy h then Js.index (Js.split " "%char h) 1 else Some h
  end.

(** What [authenticateToken] does with a request: it sends a
    response itself, or sets [req.user] and calls [next()]. *)
Inductive Auth : Type :=
| Sent (res : Response)
| Next (user : Claims.t).

Definition authenticateToken (now_ms : Z) (authorization : option string)
    : Auth :=
  let token := header_token authorization in
  if negb (Js.truthy_opt token) then
    Sent (respond 403 (JError "Token is required"))
  else
    match token with
    | None => Sent (respond 403 (JError "Token is required"))
    | Some t =>
        match jwt.verify t JWT_SECRET now_ms with
        | inl _ => Sent (respond 403 (JError "Invalid token"))
        | inr user => Next user
        end
    end.

(** [app.METHOD(path, authenticateToken, handler)]: the handler, which
    sees [req.user], runs only after [next()]. *)
Definition protected (now_ms : Z) (authorization : option string)
    (handler : Claims.t -> M Response) : M Response :=
  match authenticateToken now_ms authorization with
  | Sent res => ret res
  | Next user => handler user
  end.

(** [POST /signup] *)
Definition post_signup (salt : string) (req : Credentials) : M Response :=
  existingUser <- Users.findOne (cred_email req) ;;
  match existingUser with
  | Some _ => ret (respond 400 (JError "Email already in use"))
  | None =>
      hashedPassword <- bcrypt.hash salt (cred_password req) ;;
      newUser <- Users.new (cred_email req) hashedPassword ;;
      try_catch
        (Users.save newUser ;;;
         ret (respond 201 (JMessage "User successfully registered")))
        (fun err =>
           ret (respond 500 (JErrorDetails "Error registering user" (message err))))
  end.

(** [POST /login] *)
Definition post_login (now_ms : Z) (req : Credentials) : M Response :=
  user <- Users.findOne (cred_email req) ;;
  match user with
  | None => ret (respond 401 (JError "Invalid email or password"))
  | Some u =>
      isMatch <- bcrypt.compare (cred_password req) (usersSchema.password u) ;;
      if negb isMatch then
        ret (respond 401 (JError "Invalid email or password"))
      else
        token <- lift (jwt.sign (usersSchema._id u) (usersSchema.email u)
                         JWT_SECRET now_ms) ;;
        ret (json (JToken token))
  end.

(** The [query] object the search handler builds: a parameter adds a
    condition only when it is truthy. *)
Definition build_query (q : Query.t) : Restaurant.filter :=
  Restaurant.mk_filter
    (if Js.truthy_opt (Query.name q) then Query.name q else None)
    (if Js.truthy_opt (Query.cuisine q) then Query.cuisine q else None).

(** [GET /restaurants/search], after the middleware *)
Definition search_handler (q : Query.t) : M Response :=
  try_catch
    (restaurants <- Restaurant.find (build_query q) ;;
     if (length restaurants =? 0)%nat then
       ret (respond 404
              (JMessage "No restaurants found matching the search criteria"))
     else ret (json (JRestaurants restaurants)))
    (fun err =>
       ret (respond 500
              (JErrorDetails "Error searching for restaurants" (message err)))).

(** [PUT /restaurants/:id], after the middleware *)
Definition put_handler (id : string) (reqBody : restaurantSchema.fields)
    : M Response :=
  try_catch
    (updatedRestaurant <- Restaurant.findByIdAndUpdate id reqBody ;;
     match updatedRestaurant with
     | None => ret (respond 404 (JError "Restaurant not found"))
     | Some r => ret (json (JRestaurant r))
     end)
    (fun err => ret (respond 500 (JError (message err)))).

(** [DELETE /restaurants/:id], after the middleware *)
Definition delete_handler (id : string) : M Response :=
  try_catch
    (deletedRestaurant <- Restaurant.findByIdAndDelete id ;;
     match deletedRestaurant with
     | None => ret (respond 404 (JError "Restaurant not found"))
     | Some _ => ret (json (JMessage "Restaurant deleted successfully"))
     end)
    (fun err => ret (respond 500 (JError (message err)))).

(** The routes with their middleware. *)
Definition get_restaurants_search (now_ms : Z)
    (authorization : option string) (q : Query.t) : M Response :=
  protected now_ms authorization (fun _ => search_handler q).

Definition put_restaurants_id (now_ms : Z) (authorization : option string)
    (id : string) (reqBody : restaurantSchema.fields) : M Response :=
  protected now_ms authorization (fun _ => put_handler id reqBody).

Definition delete_restaurants_id (now_ms : Z)
    (authorization : option string) (id : string) : M Response :=
  protected now_ms authorization (fun _ => delete_handler id).

(** [POST /logout]: no middleware, no store, no token involved. *)
Definition post_logout : M Response :=
  ret (json (JMessage "User logged out successfully")).

(** [POST /restaurants], after the middleware *)
Definition create_handler (reqBody : restaurantSchema.fields) : M Response :=
  try_catch
    (newRestaurant <- Restaurant.new reqBody ;;
     savedRestaurant <- Restaurant.save newRestaurant ;;
     ret (respond 201 (JRestaurant savedRestaurant)))
    (fun err => ret (respond 400 (JError (message err)))).

(** [GET /restaurants], after the middleware *)
Definition list_handler : M Response :=
  try_catch
    (restaurants <- Restaurant.find_all ;;
     ret (json (JRestaurants restaurants)))
    (fun err => ret (respond 500 (JError (message err)))).

(** [GET /restaurants/:id], after the middleware *)
Definition get_handler (id : string) : M Response :=
  try_catch
    (restaurant <- Restaurant.findById id ;;
     match restaurant with
     | None => ret (respond 404 (JError "Restaurant not found"))
     | Some r => ret (json (JRestaurant r))
     end)
    (fun err => ret (respond 500 (JError (message err)))).

(** [DELETE /users/me], after the middleware: [req.user.userId] names
    the user to delete. *)
Definition delete_me_handler (user : Claims.t) : M Response :=
  try_catch
    (deletedUser <- Users.findByIdAndDelete (Claims.userId user) ;;
     match deletedUser with
     | None => ret (respond 404 (JError "User not found"))
     | Some _ => ret (json (JMessage "User deleted successfully"))
     end)
    (fun err =>
       ret (respond 500 (JErrorDetails "Error deleting user" (message err)))).

Definition post_restaurants (now_ms : Z) (authorization : option string)
    (reqBody : restaurantSchema.fields) : M Response :=
  protected now_ms authorization (fun _ => create_handler reqBody).

Definition get_restaurants_all (now_ms : Z) (authorization : option string)
    : M Response :=
  protected now_ms authorization (fun _ => list_handler).

Definition get_restaurants_id (now_ms : Z) (authorization : option string)
    (id : string) : M Response :=
  protected now_ms authorization (fun _ => get_handler id).

Definition delete_users_me (now_ms : Z) (authorization : option string)
    : M Response :=
  protected now_ms authorization delete_me_handler.

End App.

(** How a run ended, and the store it left. *)
Definition outcome {A : Type} (run : Result A * Db) : Result A := fst run.

Definition store_after {A : Type} (run : Result A * Db) : Db := snd run.

(* ================================================================= *)
(** ** A reference platform *)

(** A small instance of [Platform] on which the statements below are
    exercised.  Its ObjectId parser and its regular expressions follow
    the real ones (24 hexadecimal digits; [Pcre]); its bcrypt and jws
    are stand-ins with the same interface and no cryptographic
    strength. *)
Module Reference.

Local Open Scope string_scope.

Definition print_N (n : N) : string :=
  DecimalString.NilEmpty.string_of_uint (N.to_uint n).

Definition parse_N (s : string) : option N :=
  option_map N.of_uint (DecimalString.NilEmpty.uint_of_string s).

Definition print_Z (z : Z) : string :=
  DecimalString.NilEmpty.string_of_int (Z.to_int z).

Definition parse_Z (s : string) : option Z :=
  option_map Z.of_int (DecimalString.NilEmpty.int_of_string s).

(** The sum of the character codes. *)
Fixpoint checksum (s : string) : N :=
  match s with
  | EmptyString => 0%N
  | String c rest => (N_of_ascii c + checksum rest)%N
  end.

Definition hash (salt data : string) : string :=
  salt ++ "$" ++ print_N (checksum (salt ++ data)).

Definition compare (data encrypted : string) : bool :=
  match Js.split "$"%char encrypted with
  | [salt; _] => String.eqb (hash salt data) encrypted
  | _ => false
  end.

Definition mac (key input : string) : string :=
  print_N (checksum (key ++ "/" ++ input)).

Definition header : string := "eyJhbGciOiJIUzI1NiIsInR5cCI6IkpXVCJ9".

Definition hex_digit (c : ascii) : option N :=
  let n := N_of_ascii c in
  if ((48 <=? n) && (n <=? 57))%N then Some (n - 48)%N
  else if ((97 <=? n) && (n <=? 102))%N then Some (n - 87)%N
  else if ((65 <=? n) && (n <=? 70))%N then Some (n - 55)%N
  else None.

Definition digit_hex (d : N) : ascii :=
  if (d <? 10)%N then ascii_of_N (48 + d) else ascii_of_N (87 + d).

(** Two hexadecimal digits per character: the text of a claim
    travels without dots or commas. *)
Fixpoint armour (s : string) : string :=
  match s with
  | EmptyString => EmptyString
  | String c rest =>
      let n := N_of_ascii c in
      String (digit_hex (n / 16)) (String (digit_hex (n mod 16)) (armour rest))
  end.

Fixpoint unarmour_fuel (fuel : nat) (s : string) : option string :=
  match fuel, s with
  | _, EmptyString => Some EmptyString
  | S fuel', String hi (String lo rest) =>
      match hex_digit hi, hex_digit lo, unarmour_fuel fuel' rest with
      | Some h, Some l, Some text =>
          Some (String (ascii_of_N (16 * h + l)) text)
      | _, _, _ => None
      end
  | _, _ => None
  end.

Definition unarmour (s : string) : option string :=
  unarmour_fuel (String.length s) s.

Definition print_claims (c : Claims.t) : string :=
  print_N (Claims.userId c) ++ "," ++ armour (Claims.email c) ++ ","
  ++ print_Z (Claims.iat c) ++ ","
  ++ match Claims.exp c with
     | Some e => print_Z e
     | None => "-"
     end.

Definition parse_claims (s : string) : option Claims.t :=
  match Js.split ","%char s with
  | [u; e; i; x] =>
      match parse_N u, unarmour e, parse_Z i with
      | Some userId, Some email, Some iat =>
          if String.eqb x "-" then Some (Claims.mk userId email iat None)
          else match parse_Z x with
               | Some exp => Some (Claims.mk userId email iat (Some exp))
               | None => None
               end
      | _, _, _ => None
      end
  | _ => None
  end.

Definition sign (c : Claims.t) (key : string) : string :=
  let input := header ++ "." ++ print_claims c in
  input ++ "." ++ mac key input.

Definition decode (token : string) : option Claims.t :=
  match Js.split "."%char token with
  | [_; payload; _] => parse_claims payload
  | _ => None
  end.

Definition check (token key : string) : bool :=
  match Js.split "."%char token with
  | [h; payload; signature] =>
      String.eqb h header
      && String.eqb signature (mac key (h ++ "." ++ payload))
  | _ => false
  end.

Fixpoint parse_hex (acc : N) (s : string) : option N :=
  match s with
  | EmptyString => Some acc
  | String c rest =>
      match hex_digit c with
      | Some d => parse_hex (16 * acc + d)%N rest
      | None => None
      end
  end.

(** A 24-digit hexadecimal string. *)
Definition objectId (s : string) : option ObjectId :=
  if (String.length s =? 24)%nat then parse_hex 0%N s else None.

Definition platform : Platform := {|
  JWT_SECRET := Some "top-secret";
  bcrypt_hash := hash;
  bcrypt_compare := compare;
  jws_sign := sign;
  jws_decode := decode;
  jws_verify := check;
  regex_i := Pcre.compile;
  castObjectId := objectId
|}.

(** A store with one user and three restaurants. *)
Definition alice : usersSchema.t :=
  usersSchema.mk 1%N "alice@example.com" (hash "salt" "wonderland").

Definition no_paths : restaurantSchema.fields :=
  restaurantSchema.mk_fields None None None None None None.

Definition named (name cuisine : string) : restaurantSchema.fields :=
  restaurantSchema.mk_fields None None (Some cuisine) None (Some name) None.

Definition luigi : restaurantSchema.t :=
  restaurantSchema.mk 10%N (named "Luigi" "Italian").

Definition joe : restaurantSchema.t :=
  restaurantSchema.mk 11%N (named "Joe" "American").

Definition anonymous : restaurantSchema.t :=
  restaurantSchema.mk 12%N no_paths.

Definition db : Db := mkDb [alice] [luigi; joe; anonymous] 13%N [].

(** The same store while the server is unreachable. *)
Definition db_down : Db :=
  mkDb [alice] [luigi; joe; anonymous] 13%N [Some "connection refused"].

(** The path parameters that name [luigi] (10), [joe] (11) and no
    document (255). *)
Definition id_luigi : string := "00000000000000000000000a".
Definition id_joe : string := "00000000000000000000000b".
Definition id_nobody : string := "0000000000000000000000ff".

(** A clock reading, the claims of a token issued to [alice] at that
    time, and the token. *)
Definition clock : Z := 1700000000123.

Definition alice_claims : Claims.t :=
  Claims.mk 1%N "alice@example.com" 1700000000 (Some 1700003600%Z).

Definition alice_token : string := sign alice_claims "top-secret".

End Reference.

(* ================================================================= *)
(** ** What the statements below are phrased with *)

(** The first [n] round trips to the server succeed. *)
Definition round_trips_ok (n : nat) (db : Db) : bool :=
  forallb (fun f => match f with
                    | None => true
                    | Some _ => false
                    end : bool)
    (firstn n (faults db)).

(** The store once a round trip has been made. *)
Definition settled (db : Db) : Db :=
  mkDb (users db) (restaurants db) (next_oid db) (tl (faults db)).

(** No space in a string. *)
Definition spaceless (s : string) : bool := negb (Js.includes s " "%char).

(** The text of a header value before its first space. *)
Definition first_field (s : string) : string := hd EmptyString (Js.split " "%char s).

(** The search claim in the specification's words: each supplied
    parameter is, ignoring case, a substring of the stored path; a
    parameter that is not supplied constrains nothing. *)
Definition claimed_condition (param value : option string) : bool :=
  match param with
  | None => true
  | Some p =>
      match value with
      | Some v => Text.substring_i p v
      | None => false
      end
  end.

Definition claimed_match (q : Query.t) (r : restaurantSchema.t) : bool :=
  claimed_condition (Query.name q) (restaurantSchema.name (restaurantSchema.paths r))
  && claimed_condition (Query.cuisine q) (restaurantSchema.cuisine (restaurantSchema.paths r)).

(** A query parameter with [""] read as not supplied. *)
Definition supplied (param : option string) : option string :=
  if Js.truthy_opt param then param else None.

Section Conditions.
Context `{Platform}.

(** What the search handler asks of one path: nothing when the
    parameter is not supplied or empty, else that the parameter,
    compiled as a case-insensitive regular expression, matches the
    stored value. *)
Definition regex_condition (param value : option string) : Prop :=
  match supplied param with
  | None => True
  | Some p =>
      exists test v,
        regex_i p = Some test /\ value = Some v /\ test v = true
  end.

(** A parameter that is either not supplied or a non-empty string of
    literal characters, on which the platform's engine is the
    case-insensitive search of [Pcre]. *)
Definition literal_param (param : option string) : Prop :=
  match param with
  | None => True
  | Some p =>
      Js.truthy p = true /\ Pcre.literal p = true /\
      exists test, regex_i p = Some test /\
                   forall s, test s = Pcre.search_i p s
  end.

End Conditions.

(** The claims [jwt.sign] signs at clock [now_ms]. *)
Definition issued_claims (userId : ObjectId) (email : string) (now_ms : Z)
    : Claims.t :=
  Claims.mk userId email (jwt.timestamp now_ms)
    (Some (jwt.timestamp now_ms + jwt.expiresIn_1h)%Z).

(** The identifiers of the stored restaurants. *)
Definition restaurant_ids (db : Db) : list ObjectId :=
  map restaurantSchema._id (restaurants db).

(** The stored users with a given email. *)
Definition registered (email : string) (db : Db) : list usersSchema.t :=
  List.filter (Users.has_email email) (users db).

(** The identifiers and the emails of the stored users. *)
Definition user_ids (db : Db) : list ObjectId :=
  map usersSchema._id (users db).

Definition user_emails (db : Db) : list string :=
  map usersSchema.email (users db).

(** What the store's indexes and the generation of identifiers keep
    true of a store: no two users share an email, no two documents of a
    collection share an [_id], and every identifier in use is older
    than the next one to be assigned. *)
Definition well_formed (db : Db) : Prop :=
  NoDup (user_emails db)
  /\ NoDup (user_ids db)
  /\ NoDup (restaurant_ids db)
  /\ (forall oid, In oid (user_ids db) -> (oid < next_oid db)%N)
  /\ (forall oid, In oid (restaurant_ids db) -> (oid < next_oid db)%N).

(** The statuses a response may carry. *)
Definition status_in (allowed : list Z) (run : Result Response * Db) : Prop :=
  match outcome run with
  | Ok res => In (status res) allowed
  | Throw _ => False
  end.

(** A response was sent. *)
Definition responded (run : Result Response * Db) : Prop :=
  exists res, outcome run = Ok res.

(** A path parameter resolves when it casts to the identifier of a
    stored restaurant. *)
Definition resolves `{Platform} (id : string) (db : Db) : bool :=
  match castObjectId id with
  | Some oid => existsb (Restaurant.has_id oid) (restaurants db)
  | None => false
  end.

(** The document [POST /restaurants] makes of a body in a store. *)
Definition created (reqBody : restaurantSchema.fields) (db : Db)
    : restaurantSchema.t :=
  restaurantSchema.mk (next_oid db) (Restaurant.with_defaults reqBody).

(** The [Authorization] header a client sends with a token. *)
Definition bearer (token : string) : option string :=
  Some ("Bearer " ++ token)%string.

(* ================================================================= *)
(** ** Splitting *)

Lemma split_not_nil (sep : ascii) (s : string) : Js.split sep s <> [].
Proof.
  destruct s as [|c rest]; simpl.
  - discriminate.
  - destruct (Ascii.eqb c sep); [discriminate|].
    destruct (Js.split sep rest); discriminate.
Qed.

Lemma split_without_sep (sep : ascii) (s : string) :
  Js.includes s sep = false -> Js.split sep s = [s].
Proof.
  induction s as [|c rest IH]; simpl; intros Hs.
  - reflexivity.
  - apply orb_false_iff in Hs as [Hc Hrest].
    rewrite Hc, (IH Hrest). reflexivity.
Qed.

Lemma split_at_first_sep (sep : ascii) (a b : string) :
  Js.includes a sep = false ->
  Js.split sep (a ++ String sep b) = a :: Js.split sep b.
Proof.
  induction a as [|c rest IH]; simpl; intros Ha.
  - rewrite Ascii.eqb_refl. reflexivity.
  - apply orb_false_iff in Ha as [Hc Hrest].
    rewrite Hc, (IH Hrest). reflexivity.
Qed.

Lemma truthy_app_sep (a b : string) (sep : ascii) :
  Js.truthy (a ++ String sep b) = true.
Proof. destruct a; reflexivity. Qed.

Lemma split_length_empty (sep : ascii) :
  length (Js.split sep EmptyString) = 1%nat.
Proof. reflexivity. Qed.

(* ================================================================= *)
(** ** The middleware's token *)

Section HeaderToken.
Context `{Platform}.

Lemma header_token_absent : header_token None = None.
Proof. reflexivity. Qed.

Lemma header_token_one_field (h : string) :
  spaceless h = true -> Js.truthy_opt (header_token (Some h)) = false.
Proof.
  unfold spaceless, header_token. intros Hh.
  apply negb_true_iff in Hh.
  destruct (Js.truthy h) eqn:Ht.
  - rewrite (split_without_sep _ _ Hh). reflexivity.
  - simpl. exact Ht.
Qed.

Lemma header_token_second_field (scheme rest : string) :
  spaceless scheme = true ->
  header_token (Some (scheme ++ String " "%char rest)%string)
  = Some (first_field rest).
Proof.
  unfold spaceless, header_token, first_field. intros Hs.
  apply negb_true_iff in Hs.
  rewrite truthy_app_sep, (split_at_first_sep _ _ _ Hs).
  pose proof (split_not_nil " "%char rest) as Hne.
  destruct (Js.split " "%char rest); [contradiction|reflexivity].
Qed.

Lemma authenticateToken_no_token (now_ms : Z) (authorization : option string) :
  Js.truthy_opt (header_token authorization) = false ->
  authenticateToken now_ms authorization
  = Sent (respond 403 (JError "Token is required")).
Proof.
  unfold authenticateToken. intros ->. reflexivity.
Qed.

Lemma authenticateToken_token (now_ms : Z) (authorization : option string)
    (t : string) :
  header_token authorization = Some t -> Js.truthy t = true ->
  authenticateToken now_ms authorization
  = match jwt.verify t JWT_SECRET now_ms with
    | inl _ => Sent (respond 403 (JError "Invalid token"))
    | inr user => Next user
    end.
Proof.
  unfold authenticateToken. intros -> Ht. simpl. rewrite Ht. reflexivity.
Qed.

End HeaderToken.

(* ================================================================= *)
(** ** Round trips *)

Lemma round_trip_ok (n : nat) (db : Db) :
  round_trips_ok (S n) db = true ->
  round_trip db = (Ok tt, settled db) /\ round_trips_ok n (settled db) = true.
Proof.
  unfold round_trips_ok, round_trip, settled.
  destruct db as [us rs oid fs]; simpl.
  destruct fs as [|[m|] later]; simpl; intros Hok.
  - split; [reflexivity|]. destruct n; reflexivity.
  - discriminate.
  - split; [reflexivity|exact Hok].
Qed.

Lemma round_trips_ok_le (n : nat) (db : Db) :
  round_trips_ok (S n) db = true -> round_trips_ok n db = true.
Proof.
  unfold round_trips_ok. generalize (faults db) as fs.
  induction n as [|n IH]; intros fs Hok; [reflexivity|].
  destruct fs as [|f later]; [reflexivity|].
  change (firstn (S (S n)) (f :: later)) with (f :: firstn (S n) later) in Hok.
  change (firstn (S n) (f :: later)) with (f :: firstn n later).
  simpl in Hok |- *. apply andb_true_iff in Hok as [Hf Hlater].
  rewrite Hf. simpl. apply IH. exact Hlater.
Qed.

Lemma round_trip_fails (us : list usersSchema.t) (rs : list restaurantSchema.t)
    (oid : ObjectId) (m : string) (later : list (option string)) :
  round_trip (mkDb us rs oid (Some m :: later))
  = (Throw (MongoError m), mkDb us rs oid later).
Proof. reflexivity. Qed.

Lemma settled_users (db : Db) : users (settled db) = users db.
Proof. reflexivity. Qed.

Lemma settled_restaurants (db : Db) : restaurants (settled db) = restaurants db.
Proof. reflexivity. Qed.

(* ================================================================= *)
(** ** The auth middleware *)

(** Whatever the platform, a credential under another scheme is handed
    to [jwt.verify]; one without two dots is refused there as
    malformed. *)
Lemma other_scheme_reaches_verify `{Platform} (now_ms : Z) :
  authenticateToken now_ms (Some "Basic abc")
  = Sent (respond 403 (JError "Invalid token")).
Proof. reflexivity. Qed.

(** Claim C1, as amended.  The middleware reads the second space-separated
    field of the Authorization header, whatever the first field is.
    With no header, with a header that has no space, or with an empty
    second field, it answers 403 "Token is required" and the handler is
    not called; with a non-empty second field that [jwt.verify] refuses
    it answers 403 "Invalid token" and the handler is not called; with
    one that [jwt.verify] accepts the handler runs on the verified
    claims. *)
Theorem authenticateToken_by_second_field `{Platform} (now_ms : Z)
    (handler : Claims.t -> M Response) :
  protected now_ms None handler
  = ret (respond 403 (JError "Token is required"))
  /\ (forall h : string,
        spaceless h = true ->
        protected now_ms (Some h) handler
        = ret (respond 403 (JError "Token is required")))
  /\ (forall scheme rest : string,
        spaceless scheme = true ->
        let authorization := Some (scheme ++ String " "%char rest)%string in
        let token := first_field rest in
        (Js.truthy token = false ->
         protected now_ms authorization handler
         = ret (respond 403 (JError "Token is required")))
        /\ (forall err : jwt.VerifyError,
              Js.truthy token = true ->
              jwt.verify token JWT_SECRET now_ms = inl err ->
              protected now_ms authorization handler
              = ret (respond 403 (JError "Invalid token")))
        /\ (forall user : Claims.t,
              Js.truthy token = true ->
              jwt.verify token JWT_SECRET now_ms = inr user ->
              protected now_ms authorization handler = handler user)).
Proof.
  split; [reflexivity|]. split.
  - intros h Hh. unfold protected.
    rewrite authenticateToken_no_token; [reflexivity|].
    apply header_token_one_field. exact Hh.
  - intros scheme rest Hs authorization token.
    pose proof (header_token_second_field scheme rest Hs) as Htok.
    fold authorization token in Htok.
    repeat split.
    + intros Hfalsy. unfold protected.
      rewrite authenticateToken_no_token; [reflexivity|].
      rewrite Htok. exact Hfalsy.
    + intros err Htruthy Hverify. unfold protected.
      rewrite (authenticateToken_token _ _ _ Htok Htruthy), Hverify.
      reflexivity.
    + intros user Htruthy Hverify. unfold protected.
      rewrite (authenticateToken_token _ _ _ Htok Htruthy), Hverify.
      reflexivity.
Qed.

Lemma authenticateToken_by_second_field_witness :
  spaceless "Bearer" = true
  /\ @protected Reference.platform Reference.clock
       (Some ("Bearer " ++ Reference.alice_token)%string)
       (fun user => ret (json (JMessage (Claims.email user))))
     = ret (json (JMessage "alice@example.com")).
Proof.
  split; [reflexivity|].
  destruct (@authenticateToken_by_second_field Reference.platform
              Reference.clock
              (fun user => ret (json (JMessage (Claims.email user)))))
    as (_ & _ & Hfield).
  destruct (Hfield "Bearer" Reference.alice_token eq_refl) as (_ & _ & Hrun).
  apply (Hrun Reference.alice_claims); vm_compute; reflexivity.
Defined.

(** Claim C1 fails as stated: a header without the Bearer prefix is not
    treated as "no token".  Under the scheme [Basic] a malformed
    credential is answered "Invalid token", and a valid token is
    accepted. *)
Lemma authenticateToken_ignores_scheme :
  String.prefix "Bearer " "Basic abc" = false
  /\ @authenticateToken Reference.platform Reference.clock (Some "Basic abc")
     <> Sent (respond 403 (JError "Token is required"))
  /\ String.prefix "Bearer " ("Basic " ++ Reference.alice_token) = false
  /\ @authenticateToken Reference.platform Reference.clock
       (Some ("Basic " ++ Reference.alice_token)%string)
     = Next Reference.alice_claims.
Proof.
  split; [reflexivity|]. split; [|split; reflexivity].
  rewrite other_scheme_reaches_verify. discriminate.
Qed.

(* ================================================================= *)
(** ** The token service *)

Section Tokens.
Context `{Platform}.

Lemma sign_with_secret (userId : ObjectId) (email key : string) (now_ms : Z) :
  Js.truthy key = true ->
  jwt.sign userId email (Some key) now_ms
  = Ok (jws_sign (issued_claims userId email now_ms) key).
Proof. unfold jwt.sign. intros ->. reflexivity. Qed.

Lemma sign_without_secret (userId : ObjectId) (email : string) (now_ms : Z) :
  jwt.sign userId email None now_ms
  = Throw (JwtError "secretOrPrivateKey must have a value").
Proof. reflexivity. Qed.

Lemma three_parts_truthy (token : string) :
  length (Js.split "."%char token) = 3%nat -> Js.truthy token = true.
Proof. destruct token; [discriminate|reflexivity]. Qed.

(** [jwt.verify] on a well-formed token whose signature checks: only
    the expiry decides. *)
Lemma verify_signed (token key : string) (payload : Claims.t) (now_ms : Z) :
  Js.truthy key = true ->
  length (Js.split "."%char token) = 3%nat ->
  jws_decode token = Some payload ->
  jws_verify token key = true ->
  jwt.verify token (Some key) now_ms
  = match Claims.exp payload with
    | Some e => if (e <=? jwt.timestamp now_ms)%Z then inl jwt.Expired
                else inr payload
    | None => inr payload
    end.
Proof.
  intros Hkey Hparts Hdecode Hsig. unfold jwt.verify.
  rewrite (three_parts_truthy _ Hparts), Hparts, Hdecode, Hkey, Hsig.
  reflexivity.
Qed.

End Tokens.

(** Claim C5.  With a signing secret configured, [jwt.sign] issues for
    every userId and email a token whose expiry is exactly 3600 seconds
    after its issued-at time; [jwt.verify] of that token at any clock
    reading before the expiry yields the issued claims, with the same
    userId and email, and at any reading after the expiry (or at it)
    fails with [Expired].  The three hypotheses on the token are jws's
    contract: a compact serialisation has three dot-separated parts,
    decodes to the claims it was made from, and carries a signature
    that checks under the signing key. *)
Theorem issue_then_verify `{Platform} (userId : ObjectId) (email key : string)
    (now_ms : Z) :
  let claims := issued_claims userId email now_ms in
  let token := jws_sign claims key in
  Js.truthy key = true ->
  length (Js.split "."%char token) = 3%nat ->
  jws_decode token = Some claims ->
  jws_verify token key = true ->
  jwt.sign userId email (Some key) now_ms = Ok token
  /\ Claims.exp claims = Some (Claims.iat claims + 60 * 60)%Z
  /\ Claims.userId claims = userId
  /\ Claims.email claims = email
  /\ (forall later_ms : Z,
        (jwt.timestamp later_ms < Claims.iat claims + 60 * 60)%Z ->
        jwt.verify token (Some key) later_ms = inr claims)
  /\ jwt.verify token (Some key) now_ms = inr claims
  /\ (forall later_ms : Z,
        (Claims.iat claims + 60 * 60 <= jwt.timestamp later_ms)%Z ->
        jwt.verify token (Some key) later_ms = inl jwt.Expired).
Proof.
  intros claims token Hkey Hparts Hdecode Hsig.
  assert (Hverify : forall t, jwt.verify token (Some key) t
            = if (jwt.timestamp now_ms + 3600 <=? jwt.timestamp t)%Z
              then inl jwt.Expired else inr claims).
  { intros t. rewrite (verify_signed token key claims t Hkey Hparts Hdecode Hsig).
    reflexivity. }
  split; [apply sign_with_secret; exact Hkey|].
  split; [reflexivity|]. split; [reflexivity|]. split; [reflexivity|].
  simpl Claims.iat. split; [|split].
  - intros later Hbefore. rewrite Hverify.
    destruct (Z.leb_spec (jwt.timestamp now_ms + 3600) (jwt.timestamp later));
      [lia|reflexivity].
  - rewrite Hverify.
    destruct (Z.leb_spec (jwt.timestamp now_ms + 3600) (jwt.timestamp now_ms));
      [lia|reflexivity].
  - intros later Hafter. rewrite Hverify.
    destruct (Z.leb_spec (jwt.timestamp now_ms + 3600) (jwt.timestamp later));
      [reflexivity|lia].
Qed.

Lemma issue_then_verify_witness :
  @jwt.sign Reference.platform 1%N "alice@example.com" (Some "top-secret")
    Reference.clock
  = Ok Reference.alice_token
  /\ @jwt.verify Reference.platform Reference.alice_token (Some "top-secret")
       (Reference.clock + 3599000)%Z
     = inr Reference.alice_claims
  /\ @jwt.verify Reference.platform Reference.alice_token (Some "top-secret")
       (Reference.clock + 3600000)%Z
     = inl jwt.Expired.
Proof.
  destruct (@issue_then_verify Reference.platform 1%N "alice@example.com"
              "top-secret" Reference.clock eq_refl eq_refl eq_refl eq_refl)
    as (Hsign & _ & _ & _ & Hbefore & _ & Hafter).
  split; [exact Hsign|]. split.
  - apply Hbefore. vm_compute. reflexivity.
  - apply Hafter. vm_compute. discriminate.
Defined.

(* ================================================================= *)
(** ** The [Users] collection *)

Lemma find_none_existsb {A : Type} (f : A -> bool) (l : list A) :
  List.find f l = None -> existsb f l = false.
Proof.
  induction l as [|x l IH]; simpl; [reflexivity|].
  destruct (f x); [discriminate|]. exact IH.
Qed.

Lemma find_none_filter {A : Type} (f : A -> bool) (l : list A) :
  List.find f l = None -> List.filter f l = [].
Proof.
  induction l as [|x l IH]; simpl; [reflexivity|].
  destruct (f x); [discriminate|]. exact IH.
Qed.

Lemma find_app_last {A : Type} (f : A -> bool) (l : list A) (x : A) :
  f x = true -> exists y, List.find f (l ++ [x]) = Some y.
Proof.
  intros Hx. induction l as [|z l IH]; simpl.
  - rewrite Hx. eauto.
  - destruct (f z); eauto.
Qed.

Section UsersLemmas.
Context `{Platform}.

Lemma findOne_ok (n : nat) (email : string) (db : Db) :
  round_trips_ok (S n) db = true ->
  Users.findOne email db
  = (Ok (List.find (Users.has_email email) (users db)), settled db).
Proof.
  intros Hok. destruct (round_trip_ok n db Hok) as [Hrt _].
  unfold Users.findOne, bind. rewrite Hrt. reflexivity.
Qed.

Lemma findOne_fails (email : string) (us : list usersSchema.t)
    (rs : list restaurantSchema.t) (oid : ObjectId) (m : string)
    (later : list (option string)) :
  Users.findOne email (mkDb us rs oid (Some m :: later))
  = (Throw (MongoError m), mkDb us rs oid later).
Proof. reflexivity. Qed.

(** [save] of a valid document whose email is not taken. *)
Lemma save_ok (n : nat) (doc : usersSchema.t) (db : Db) :
  Js.truthy (usersSchema.email doc) = true ->
  Js.truthy (usersSchema.password doc) = true ->
  round_trips_ok (S n) db = true ->
  List.find (Users.has_email (usersSchema.email doc)) (users db) = None ->
  Users.save doc db
  = (Ok tt,
     mkDb (users db ++ [doc]) (restaurants db) (next_oid db)
       (tl (faults db))).
Proof.
  intros Hemail Hpw Hok Hfresh.
  destruct (round_trip_ok n db Hok) as [Hrt _].
  unfold Users.save. rewrite Hemail, Hpw. simpl.
  unfold bind. rewrite Hrt. simpl.
  rewrite (find_none_existsb _ _ Hfresh). reflexivity.
Qed.

End UsersLemmas.



(** Without a password the two failures differ, whatever the platform:
    for an email no user has the answer is the 401, for a stored user's
    email [bcrypt.compare] rejects. *)
Lemma login_without_password `{Platform} (now_ms : Z) (email : string)
    (db : Db) :
  round_trips_ok 1 db = true ->
  outcome (post_login now_ms (credentials email None) db)
  = match List.find (Users.has_email email) (users db) with
    | None => Ok (respond 401 (JError "Invalid email or password"))
    | Some _ => Throw (BcryptError "data and hash arguments required")
    end.
Proof.
  intros Hok. unfold outcome, post_login, bind.
  rewrite (findOne_ok 0 _ _ Hok). simpl.
  destruct (List.find (Users.has_email email) (users db)); reflexivity.
Qed.


Section Signup.
Context `{Platform}.

Lemma signup_taken (salt : string) (req : Credentials) (db : Db)
    (u : usersSchema.t) :
  round_trips_ok 1 db = true ->
  List.find (Users.has_email (cred_email req)) (users db) = Some u ->
  post_signup salt req db
  = (Ok (respond 400 (JError "Email already in use")), settled db).
Proof.
  intros Hok Hsome. unfold post_signup, bind.
  rewrite (findOne_ok 0 _ _ Hok), Hsome. reflexivity.
Qed.

Lemma signup_fresh (salt : string) (req : Credentials) (db : Db) (pw : string) :
  round_trips_ok 2 db = true ->
  List.find (Users.has_email (cred_email req)) (users db) = None ->
  Js.truthy (cred_email req) = true ->
  cred_password req = Some pw ->
  Js.truthy (bcrypt_hash salt pw) = true ->
  post_signup salt req db
  = (Ok (respond 201 (JMessage "User successfully registered")),
     mkDb (users db
           ++ [usersSchema.mk (next_oid db) (cred_email req) (bcrypt_hash salt pw)])
       (restaurants db) (N.succ (next_oid db)) (tl (tl (faults db)))).
Proof.
  intros Hok Hfresh Hemail Hpw Hhash.
  destruct (round_trip_ok 1 db Hok) as [_ Hok'].
  unfold post_signup, bind.
  rewrite (findOne_ok 1 _ _ Hok), Hfresh.
  unfold bcrypt.hash. rewrite Hpw. simpl.
  unfold try_catch, bind.
  rewrite (save_ok 0); simpl; auto.
Qed.

End Signup.

(** Claim C4.  Sign-up for an email a stored user already has answers 400
    "Email already in use" and leaves the stored users as they were.
    Sign-up for an email no stored user has (a non-empty email, with a
    password, the store answering) hashes the password, appends exactly
    one user with that email and the hash, and answers 201; a second
    sign-up for the same email then answers 400, leaves the users as
    they were, and exactly one stored user has the email. *)
Theorem signup_duplicate_and_fresh `{Platform} (salt : string)
    (req : Credentials) (db : Db) :
  (forall u : usersSchema.t,
      round_trips_ok 1 db = true ->
      List.find (Users.has_email (cred_email req)) (users db) = Some u ->
      outcome (post_signup salt req db)
      = Ok (respond 400 (JError "Email already in use"))
      /\ users (store_after (post_signup salt req db)) = users db)
  /\ (forall (pw : string) (salt2 : string) (again : Credentials),
        round_trips_ok 3 db = true ->
        List.find (Users.has_email (cred_email req)) (users db) = None ->
        Js.truthy (cred_email req) = true ->
        cred_password req = Some pw ->
        Js.truthy (bcrypt_hash salt pw) = true ->
        cred_email again = cred_email req ->
        let db1 := store_after (post_signup salt req db) in
        let db2 := store_after (post_signup salt2 again db1) in
        outcome (post_signup salt req db)
        = Ok (respond 201 (JMessage "User successfully registered"))
        /\ users db1
           = users db
             ++ [usersSchema.mk (next_oid db) (cred_email req) (bcrypt_hash salt pw)]
        /\ outcome (post_signup salt2 again db1)
           = Ok (respond 400 (JError "Email already in use"))
        /\ users db2 = users db1
        /\ length (registered (cred_email req) db2) = 1%nat).
Proof.
  split.
  - intros u Hok Hsome. rewrite (signup_taken salt req db u Hok Hsome).
    split; reflexivity.
  - intros pw salt2 again Hok Hfresh Hemail Hpw Hhash Hsame db1 db2.
    pose proof (round_trips_ok_le 2 db Hok) as Hok2.
    pose proof (signup_fresh salt req db pw Hok2 Hfresh Hemail Hpw Hhash) as Hrun.
    assert (Hdb1 : db1 = mkDb (users db
                  ++ [usersSchema.mk (next_oid db) (cred_email req) (bcrypt_hash salt pw)])
                  (restaurants db) (N.succ (next_oid db)) (tl (tl (faults db)))).
    { unfold db1. rewrite Hrun. reflexivity. }
    assert (Hok1 : round_trips_ok 1 db1 = true).
    { destruct (round_trip_ok 2 db Hok) as [_ Ha].
      destruct (round_trip_ok 1 _ Ha) as [_ Hb].
      rewrite Hdb1. exact Hb. }
    destruct (find_app_last (Users.has_email (cred_email again)) (users db)
                (usersSchema.mk (next_oid db) (cred_email req) (bcrypt_hash salt pw)))
      as [u Hu].
    { unfold Users.has_email. simpl. rewrite Hsame. apply String.eqb_refl. }
    assert (Hfound : List.find (Users.has_email (cred_email again)) (users db1) = Some u).
    { rewrite Hdb1. exact Hu. }
    pose proof (signup_taken salt2 again db1 u Hok1 Hfound) as Hrun2.
    assert (Husers2 : users db2 = users db1).
    { unfold db2. rewrite Hrun2. reflexivity. }
    split; [rewrite Hrun; reflexivity|].
    split; [rewrite Hdb1; reflexivity|].
    split; [rewrite Hrun2; reflexivity|].
    split; [exact Husers2|].
    unfold registered. rewrite Husers2, Hdb1. simpl users.
    rewrite filter_app, (find_none_filter _ _ Hfresh). simpl.
    unfold Users.has_email at 1. simpl. rewrite String.eqb_refl. reflexivity.
Qed.

Lemma signup_duplicate_and_fresh_witness :
  outcome (@post_signup Reference.platform "pepper"
             (credentials "alice@example.com" (Some "rabbit")) Reference.db)
  = Ok (respond 400 (JError "Email already in use"))
  /\ outcome (@post_signup Reference.platform "pepper"
                (credentials "bob@example.com" (Some "builder")) Reference.db)
     = Ok (respond 201 (JMessage "User successfully registered")).
Proof.
  split.
  - destruct (@signup_duplicate_and_fresh Reference.platform "pepper"
                (credentials "alice@example.com" (Some "rabbit")) Reference.db)
      as [Htaken _].
    apply (Htaken Reference.alice); reflexivity.
  - destruct (@signup_duplicate_and_fresh Reference.platform "pepper"
                (credentials "bob@example.com" (Some "builder")) Reference.db)
      as [_ Hfresh].
    apply (Hfresh "builder" "salt" (credentials "bob@example.com" (Some "x")));
      reflexivity.
Defined.

(* ================================================================= *)
(** ** Errors outside the try blocks *)

(** A failed lookup leaves [/login] and [/signup] as an uncaught
    error with no response, where the same failure in the search
    handler, whose whole body is in a [try], becomes a 500 response. *)
Lemma lookup_failure_escapes `{Platform} (now_ms : Z) (salt : string)
    (req : Credentials) (q : Query.t) (us : list usersSchema.t)
    (rs : list restaurantSchema.t) (oid : ObjectId) (m : string)
    (later : list (option string)) :
  let db := mkDb us rs oid (Some m :: later) in
  outcome (post_login now_ms req db) = Throw (MongoError m)
  /\ outcome (post_signup salt req db) = Throw (MongoError m)
  /\ outcome (search_handler q db)
     = Ok (respond 500 (JErrorDetails "Error searching for restaurants" m)).
Proof. repeat split. Qed.

(** A request without a password makes [bcrypt.hash] and
    [bcrypt.compare] reject, outside any [try]. *)
Lemma bcrypt_failure_escapes `{Platform} (now_ms : Z) (salt email : string)
    (db : Db) (u : usersSchema.t) :
  round_trips_ok 1 db = true ->
  (List.find (Users.has_email email) (users db) = None ->
   outcome (post_signup salt (credentials email None) db)
   = Throw (BcryptError "data and salt arguments required"))
  /\ (List.find (Users.has_email email) (users db) = Some u ->
      outcome (post_login now_ms (credentials email None) db)
      = Throw (BcryptError "data and hash arguments required")).
Proof.
  intros Hok. split; intros Hfind; unfold outcome, post_signup, post_login, bind;
    rewrite (findOne_ok 0 _ _ Hok); simpl; rewrite Hfind; reflexivity.
Qed.

(** Claim C9 fails on the code: errors of [/login] and [/signup] escape.
    With the store unreachable both handlers end in an uncaught error;
    with the store up, a sign-up without a password ends in bcrypt's
    rejection and a login without a password for an existing user
    likewise.  No response is sent in any of the four runs. *)
Theorem login_signup_errors_escape :
  outcome (@post_login Reference.platform Reference.clock
             (credentials "alice@example.com" (Some "wonderland"))
             Reference.db_down)
  = Throw (MongoError "connection refused")
  /\ outcome (@post_signup Reference.platform "pepper"
                (credentials "bob@example.com" (Some "builder"))
                Reference.db_down)
     = Throw (MongoError "connection refused")
  /\ outcome (@post_signup Reference.platform "pepper"
                (credentials "bob@example.com" None) Reference.db)
     = Throw (BcryptError "data and salt arguments required")
  /\ outcome (@post_login Reference.platform Reference.clock
                (credentials "alice@example.com" None) Reference.db)
     = Throw (BcryptError "data and hash arguments required").
Proof. repeat split. Qed.

(* ================================================================= *)
(** ** Search *)

Lemma literal_not_dot (c : ascii) :
  Js.includes Pcre.metachars c = false -> Ascii.eqb c "."%char = false.
Proof.
  intros Hc. destruct (Ascii.eqb_spec c "."%char) as [->|]; [|reflexivity].
  discriminate Hc.
Qed.

Lemma literal_here_is_prefix (p s : string) :
  Pcre.literal p = true -> Pcre.here_i p s = Text.prefix_i p s.
Proof.
  revert s. induction p as [|pc p IH]; intros s Hlit; [reflexivity|].
  simpl in Hlit. apply andb_true_iff in Hlit as [Hpc Hp].
  apply negb_true_iff in Hpc.
  destruct s as [|c s]; [reflexivity|]. simpl.
  unfold Pcre.atom_i. rewrite (literal_not_dot _ Hpc), (IH s Hp). reflexivity.
Qed.

(** On a pattern of literal characters the regular-expression search
    is the case-insensitive substring test. *)
Lemma literal_search_is_substring (p s : string) :
  Pcre.literal p = true -> Pcre.search_i p s = Text.substring_i p s.
Proof.
  intros Hlit. induction s as [|c s IH]; simpl.
  - rewrite (literal_here_is_prefix _ _ Hlit). reflexivity.
  - rewrite (literal_here_is_prefix _ _ Hlit), IH. reflexivity.
Qed.

Lemma filter_all {A : Type} (l : list A) : List.filter (fun _ => true) l = l.
Proof. induction l as [|x l IH]; simpl; [|rewrite IH]; reflexivity. Qed.

Lemma round_trip_restaurants (db db1 : Db) (r : Result unit) :
  round_trip db = (r, db1) -> restaurants db1 = restaurants db.
Proof.
  unfold round_trip. destruct (faults db) as [|[m|] later];
    intros [= _ <-]; reflexivity.
Qed.

Section SearchLemmas.
Context `{Platform}.

Lemma build_query_supplied (q : Query.t) :
  build_query q
  = Restaurant.mk_filter (supplied (Query.name q)) (supplied (Query.cuisine q)).
Proof. reflexivity. Qed.

(** A successful [find] is the filter by the two compiled
    conditions. *)
Lemma find_inv (query : Restaurant.filter) (db db' : Db)
    (rs : list restaurantSchema.t) :
  Restaurant.find query db = (Ok rs, db') ->
  exists by_name by_cuisine,
    Restaurant.condition (Restaurant.name_regex query) = Ok by_name
    /\ Restaurant.condition (Restaurant.cuisine_regex query) = Ok by_cuisine
    /\ rs = List.filter
              (fun r =>
                 Restaurant.path_matches by_name
                   (restaurantSchema.name (restaurantSchema.paths r))
                 && Restaurant.path_matches by_cuisine
                      (restaurantSchema.cuisine (restaurantSchema.paths r)))
              (restaurants db).
Proof.
  unfold Restaurant.find, bind.
  destruct (round_trip db) as [[[]|err] db1] eqn:Hrt; [|discriminate].
  apply round_trip_restaurants in Hrt.
  destruct (Restaurant.condition (Restaurant.name_regex query)) as [tn|];
    simpl; [|discriminate].
  destruct (Restaurant.condition (Restaurant.cuisine_regex query)) as [tc|];
    simpl; [|discriminate].
  intros [= <- _]. exists tn, tc. rewrite Hrt. auto.
Qed.

Lemma find_ok (n : nat) (query : Restaurant.filter) (db : Db)
    (by_name by_cuisine : option (string -> bool)) :
  round_trips_ok (S n) db = true ->
  Restaurant.condition (Restaurant.name_regex query) = Ok by_name ->
  Restaurant.condition (Restaurant.cuisine_regex query) = Ok by_cuisine ->
  Restaurant.find query db
  = (Ok (List.filter
           (fun r =>
              Restaurant.path_matches by_name
                (restaurantSchema.name (restaurantSchema.paths r))
              && Restaurant.path_matches by_cuisine
                   (restaurantSchema.cuisine (restaurantSchema.paths r)))
           (restaurants db)),
     settled db).
Proof.
  intros Hok Hn Hc. destruct (round_trip_ok n db Hok) as [Hrt _].
  unfold Restaurant.find, bind. rewrite Hrt, Hn. simpl. rewrite Hc.
  reflexivity.
Qed.

(** The compiled condition of a parameter holds of a stored value
    exactly when [regex_condition] does. *)
Lemma path_matches_regex (param value : option string)
    (test : option (string -> bool)) :
  Restaurant.condition (supplied param) = Ok test ->
  Restaurant.path_matches test value = true <-> regex_condition param value.
Proof.
  unfold regex_condition, Restaurant.condition.
  destruct (supplied param) as [p|].
  - destruct (regex_i p) as [t|] eqn:Hre; [|discriminate].
    intros [= <-]. simpl. split.
    + destruct value as [v|]; [|discriminate]. intros Hv. eauto.
    + intros (t' & v & [= <-] & -> & Hv). exact Hv.
  - intros [= <-]. simpl. tauto.
Qed.

(** For a literal parameter the compiled condition is the claimed
    one. *)
Lemma path_matches_literal (param value : option string)
    (test : option (string -> bool)) :
  literal_param param ->
  Restaurant.condition (supplied param) = Ok test ->
  Restaurant.path_matches test value = claimed_condition param value.
Proof.
  unfold literal_param, supplied, Restaurant.condition.
  destruct param as [p|]; simpl.
  - intros (Htruthy & Hlit & t & Hre & Ht). rewrite Htruthy, Hre.
    intros [= <-]. simpl. destruct value as [v|]; [|reflexivity].
    rewrite Ht. apply literal_search_is_substring. exact Hlit.
  - intros _ [= <-]. reflexivity.
Qed.

Lemma search_handler_found (q : Query.t) (db db' : Db)
    (rs : list restaurantSchema.t) :
  Restaurant.find (build_query q) db = (Ok rs, db') ->
  search_handler q db
  = (Ok (match rs with
         | [] => respond 404
                   (JMessage "No restaurants found matching the search criteria")
         | _ :: _ => json (JRestaurants rs)
         end), db').
Proof.
  intros Hfind. unfold search_handler, try_catch, bind. rewrite Hfind.
  destruct rs; reflexivity.
Qed.

Lemma find_unconstrained (db : Db) :
  round_trips_ok 1 db = true ->
  Restaurant.find (Restaurant.mk_filter None None) db
  = (Ok (restaurants db), settled db).
Proof.
  intros Hok.
  rewrite (find_ok 0 (Restaurant.mk_filter None None) db None None Hok
             eq_refl eq_refl).
  simpl. rewrite filter_all. reflexivity.
Qed.

End SearchLemmas.

(** Claim C3, as amended.  When the lookup succeeds, a stored restaurant is
    in the result exactly when each supplied, non-empty query parameter,
    compiled as a case-insensitive regular expression, matches the
    stored path of that name (a document without the path does not
    match); a parameter that is not supplied, or is empty, constrains
    nothing, and with neither parameter every stored restaurant is
    returned.  For parameters made of literal characters only the
    condition is the claimed one: the parameter is, ignoring case, a
    substring of the stored path. *)
Theorem search_matches_by_regex `{Platform} (q : Query.t) (db db' : Db)
    (rs : list restaurantSchema.t) :
  Restaurant.find (build_query q) db = (Ok rs, db') ->
  (forall r : restaurantSchema.t,
      In r rs <->
      In r (restaurants db)
      /\ regex_condition (Query.name q)
           (restaurantSchema.name (restaurantSchema.paths r))
      /\ regex_condition (Query.cuisine q)
           (restaurantSchema.cuisine (restaurantSchema.paths r)))
  /\ (Query.name q = None -> Query.cuisine q = None -> rs = restaurants db)
  /\ (literal_param (Query.name q) -> literal_param (Query.cuisine q) ->
      forall r : restaurantSchema.t,
        In r rs <-> In r (restaurants db) /\ claimed_match q r = true).
Proof.
  intros Hfind. rewrite build_query_supplied in Hfind.
  destruct (find_inv _ _ _ _ Hfind) as (tn & tc & Hn & Hc & ->).
  simpl in Hn, Hc. split; [|split].
  - intros r. rewrite filter_In, andb_true_iff.
    rewrite (path_matches_regex _ _ _ Hn), (path_matches_regex _ _ _ Hc).
    tauto.
  - intros Hname Hcuisine. rewrite Hname in Hn. rewrite Hcuisine in Hc.
    injection Hn as <-. injection Hc as <-. simpl. apply filter_all.
  - intros Hlitn Hlitc r. rewrite filter_In. unfold claimed_match.
    rewrite (path_matches_literal _ _ _ Hlitn Hn),
      (path_matches_literal _ _ _ Hlitc Hc).
    tauto.
Qed.

Lemma search_matches_by_regex_witness :
  In Reference.luigi
    (match @Restaurant.find Reference.platform
             (build_query (Query.mk None (Some "ITALIAN")))
             Reference.db with
     | (Ok rs, _) => rs
     | (Throw _, _) => []
     end)
  /\ claimed_match (Query.mk None (Some "ITALIAN")) Reference.luigi = true.
Proof.
  destruct (@search_matches_by_regex Reference.platform
              (Query.mk None (Some "ITALIAN")) Reference.db
              (settled Reference.db) [Reference.luigi] eq_refl)
    as (_ & _ & Hliteral).
  assert (Hin : In Reference.luigi [Reference.luigi]) by (left; reflexivity).
  apply Hliteral in Hin.
  - split; [left; reflexivity|]. exact (proj2 Hin).
  - exact I.
  - simpl. repeat split. exists (Pcre.search_i "ITALIAN"). split; reflexivity.
Defined.

(** Claim C3 fails as stated: the parameter is a regular expression, not a
    substring.  The search for [name=.] returns the restaurant named
    "Joe", whose name does not contain a dot. *)
Lemma search_is_not_substring :
  exists rs db',
    @Restaurant.find Reference.platform
      (build_query (Query.mk (Some ".") None)) Reference.db
    = (Ok rs, db')
    /\ In Reference.joe rs
    /\ claimed_match (Query.mk (Some ".") None) Reference.joe = false.
Proof.
  exists [Reference.luigi; Reference.joe], (settled Reference.db).
  split; [reflexivity|]. split; [right; left; reflexivity|reflexivity].
Qed.

(** Claim C7.  Whatever the query parameters, a search whose lookup gives an
    empty result answers 404 and one whose lookup gives a non-empty
    result answers 200 with exactly that result; with no parameter the
    result is the whole collection, so the listing answers 404 on an
    empty collection and 200 with every restaurant otherwise. *)
Theorem search_status `{Platform} (q : Query.t) (db : Db) :
  (forall (rs : list restaurantSchema.t) (db' : Db),
      Restaurant.find (build_query q) db = (Ok rs, db') ->
      (rs = [] ->
       outcome (search_handler q db)
       = Ok (respond 404
               (JMessage "No restaurants found matching the search criteria")))
      /\ (rs <> [] ->
          outcome (search_handler q db) = Ok (respond 200 (JRestaurants rs))))
  /\ (round_trips_ok 1 db = true ->
      outcome (search_handler (Query.mk None None) db)
      = Ok (match restaurants db with
            | [] => respond 404
                      (JMessage "No restaurants found matching the search criteria")
            | _ :: _ => respond 200 (JRestaurants (restaurants db))
            end)).
Proof.
  split.
  - intros rs db' Hfind. rewrite (search_handler_found _ _ _ _ Hfind).
    split; intros Hrs.
    + rewrite Hrs. reflexivity.
    + destruct rs; [contradiction|reflexivity].
  - intros Hok.
    rewrite (search_handler_found (Query.mk None None) db (settled db)
               (restaurants db)); [reflexivity|].
    apply find_unconstrained. exact Hok.
Qed.

Lemma search_status_witness :
  outcome (@search_handler Reference.platform (Query.mk (Some "zzz") None)
             Reference.db)
  = Ok (respond 404
          (JMessage "No restaurants found matching the search criteria"))
  /\ outcome (@search_handler Reference.platform (Query.mk (Some "lui") None)
                Reference.db)
     = Ok (respond 200 (JRestaurants [Reference.luigi]))
  /\ outcome (@search_handler Reference.platform (Query.mk None None)
                Reference.db)
     = Ok (respond 200 (JRestaurants (restaurants Reference.db))).
Proof.
  split; [|split].
  - destruct (@search_status Reference.platform (Query.mk (Some "zzz") None)
                Reference.db) as [Hfound _].
    destruct (Hfound [] (settled Reference.db) eq_refl) as [Hempty _].
    apply Hempty. reflexivity.
  - destruct (@search_status Reference.platform (Query.mk (Some "lui") None)
                Reference.db) as [Hfound _].
    destruct (Hfound [Reference.luigi] (settled Reference.db) eq_refl)
      as [_ Hsome].
    apply Hsome. discriminate.
  - destruct (@search_status Reference.platform (Query.mk None None)
                Reference.db) as [_ Hall].
    apply Hall. reflexivity.
Defined.

(** Claim C10.  A query parameter that is present but empty is treated as
    absent: the handler behaves as on the request without it, for
    [name] and for [cuisine]; with both empty the lookup has no
    condition and returns the whole collection, the documents without a
    name or a cuisine included. *)
Theorem empty_parameter_as_absent `{Platform} (name cuisine : option string)
    (db : Db) :
  search_handler (Query.mk (Some "") cuisine) db
  = search_handler (Query.mk None cuisine) db
  /\ search_handler (Query.mk name (Some "")) db
     = search_handler (Query.mk name None) db
  /\ build_query (Query.mk (Some "") (Some "")) = Restaurant.mk_filter None None
  /\ (round_trips_ok 1 db = true ->
      Restaurant.find (build_query (Query.mk (Some "") (Some ""))) db
      = (Ok (restaurants db), settled db)
      /\ outcome (search_handler (Query.mk (Some "") (Some "")) db)
         = Ok (match restaurants db with
               | [] => respond 404
                         (JMessage "No restaurants found matching the search criteria")
               | _ :: _ => respond 200 (JRestaurants (restaurants db))
               end)).
Proof.
  split; [reflexivity|]. split; [reflexivity|]. split; [reflexivity|].
  intros Hok.
  assert (Hfind : Restaurant.find (build_query (Query.mk (Some "") (Some ""))) db
                  = (Ok (restaurants db), settled db)).
  { apply find_unconstrained. exact Hok. }
  split; [exact Hfind|].
  rewrite (search_handler_found _ _ _ _ Hfind). reflexivity.
Qed.

Lemma empty_parameter_as_absent_witness :
  outcome (@search_handler Reference.platform (Query.mk (Some "") (Some ""))
             Reference.db)
  = Ok (respond 200
          (JRestaurants [Reference.luigi; Reference.joe; Reference.anonymous])).
Proof.
  destruct (@empty_parameter_as_absent Reference.platform None None
              Reference.db) as (_ & _ & _ & Hall).
  destruct (Hall eq_refl) as [_ Hresponse]. exact Hresponse.
Defined.

(* ================================================================= *)
(** ** Update and delete by identifier *)

Lemma apply_update_id (update : restaurantSchema.fields)
    (doc : restaurantSchema.t) :
  restaurantSchema._id (Restaurant.apply_update update doc)
  = restaurantSchema._id doc.
Proof. reflexivity. Qed.

Lemma with_defaults_idempotent (body : restaurantSchema.fields) :
  Restaurant.with_defaults (Restaurant.with_defaults body)
  = Restaurant.with_defaults body.
Proof. reflexivity. Qed.

Lemma hydrate_idempotent (doc : restaurantSchema.t) :
  Restaurant.hydrate (Restaurant.hydrate doc) = Restaurant.hydrate doc.
Proof. reflexivity. Qed.

(** A document that has [grades] is loaded as it is stored. *)
Lemma hydrate_with_grades (doc : restaurantSchema.t)
    (gs : list restaurantSchema.grade_t) :
  restaurantSchema.grades (restaurantSchema.paths doc) = Some gs ->
  Restaurant.hydrate doc = doc.
Proof.
  destruct doc as [oid [a b c g n r]]. simpl. intros ->. reflexivity.
Qed.

Lemma find_none_not_exists {A : Type} (f : A -> bool) (l : list A) :
  List.find f l = None <-> existsb f l = false.
Proof.
  induction l as [|x l IH]; simpl; [tauto|].
  destruct (f x); simpl; [split; discriminate|exact IH].
Qed.

Lemma find_update_first (oid : ObjectId)
    (f : restaurantSchema.t -> restaurantSchema.t)
    (rs : list restaurantSchema.t) (doc : restaurantSchema.t) :
  (forall r, restaurantSchema._id (f r) = restaurantSchema._id r) ->
  List.find (Restaurant.has_id oid) rs = Some doc ->
  List.find (Restaurant.has_id oid) (Restaurant.update_first oid f rs)
  = Some (f doc).
Proof.
  intros Hid. induction rs as [|r rs IH]; simpl; [discriminate|].
  destruct (Restaurant.has_id oid r) eqn:Hr.
  - intros [= ->]. simpl. unfold Restaurant.has_id in *.
    rewrite Hid, Hr. reflexivity.
  - intros Hfind. simpl. rewrite Hr. apply IH. exact Hfind.
Qed.

Lemma update_first_ids (oid : ObjectId)
    (f : restaurantSchema.t -> restaurantSchema.t)
    (rs : list restaurantSchema.t) :
  (forall r, restaurantSchema._id (f r) = restaurantSchema._id r) ->
  map restaurantSchema._id (Restaurant.update_first oid f rs)
  = map restaurantSchema._id rs.
Proof.
  intros Hid. induction rs as [|r rs IH]; simpl; [reflexivity|].
  destruct (Restaurant.has_id oid r); simpl; [rewrite Hid|rewrite IH];
    reflexivity.
Qed.

Lemma update_first_others (oid : ObjectId)
    (f : restaurantSchema.t -> restaurantSchema.t)
    (rs : list restaurantSchema.t) (r : restaurantSchema.t) :
  Restaurant.has_id oid r = false ->
  In r rs -> In r (Restaurant.update_first oid f rs).
Proof.
  intros Hr. induction rs as [|x rs IH]; simpl; [tauto|].
  intros [->|Hin].
  - rewrite Hr. left. reflexivity.
  - destruct (Restaurant.has_id oid x); right; auto.
Qed.

Lemma find_absent_id (oid : ObjectId) (rs : list restaurantSchema.t) :
  ~ In oid (map restaurantSchema._id rs) ->
  List.find (Restaurant.has_id oid) rs = None.
Proof.
  induction rs as [|r rs IH]; simpl; [reflexivity|]. intros Hnot.
  unfold Restaurant.has_id at 1.
  destruct (N.eqb_spec (restaurantSchema._id r) oid) as [Heq|_].
  - exfalso. apply Hnot. left. exact Heq.
  - apply IH. intros Hin. apply Hnot. right. exact Hin.
Qed.

(** With unique identifiers, a deleted identifier resolves no more. *)
Lemma find_remove_first (oid : ObjectId) (rs : list restaurantSchema.t) :
  NoDup (map restaurantSchema._id rs) ->
  List.find (Restaurant.has_id oid) (Restaurant.remove_first oid rs) = None.
Proof.
  induction rs as [|r rs IH]; simpl; [reflexivity|].
  intros Hnodup. inversion Hnodup as [|? ? Hnotin Hrest]; subst.
  destruct (Restaurant.has_id oid r) eqn:Hr.
  - apply find_absent_id. unfold Restaurant.has_id in Hr.
    apply N.eqb_eq in Hr. rewrite <- Hr. exact Hnotin.
  - simpl. rewrite Hr. apply IH. exact Hrest.
Qed.

Section ByIdentifier.
Context `{Platform}.

Lemma findByIdAndUpdate_ok (n : nat) (id : string) (oid : ObjectId)
    (update : restaurantSchema.fields) (db : Db) :
  castObjectId id = Some oid ->
  round_trips_ok (S n) db = true ->
  Restaurant.findByIdAndUpdate id update db
  = match List.find (Restaurant.has_id oid) (restaurants db) with
    | None => (Ok None, settled db)
    | Some doc =>
        (Ok (Some (Restaurant.hydrate (Restaurant.apply_update update doc))),
         mkDb (users db)
           (Restaurant.update_first oid (Restaurant.apply_update update)
              (restaurants db))
           (next_oid db) (tl (faults db)))
    end.
Proof.
  intros Hcast Hok. destruct (round_trip_ok n db Hok) as [Hrt _].
  unfold Restaurant.findByIdAndUpdate. rewrite Hcast.
  unfold bind. rewrite Hrt. simpl.
  destruct (List.find (Restaurant.has_id oid) (restaurants db)); reflexivity.
Qed.

Lemma findByIdAndDelete_ok (n : nat) (id : string) (oid : ObjectId) (db : Db) :
  castObjectId id = Some oid ->
  round_trips_ok (S n) db = true ->
  Restaurant.findByIdAndDelete id db
  = match List.find (Restaurant.has_id oid) (restaurants db) with
    | None => (Ok None, settled db)
    | Some doc =>
        (Ok (Some doc),
         mkDb (users db) (Restaurant.remove_first oid (restaurants db))
           (next_oid db) (tl (faults db)))
    end.
Proof.
  intros Hcast Hok. destruct (round_trip_ok n db Hok) as [Hrt _].
  unfold Restaurant.findByIdAndDelete. rewrite Hcast.
  unfold bind. rewrite Hrt. simpl.
  destruct (List.find (Restaurant.has_id oid) (restaurants db)); reflexivity.
Qed.

(** A path parameter that is no ObjectId is answered 500, by the
    handler's [catch]. *)
Lemma malformed_identifier (id : string)
    (update : restaurantSchema.fields) (db : Db) :
  castObjectId id = None ->
  put_handler id update db
  = (Ok (respond 500 (JError "Cast to ObjectId failed")), db)
  /\ delete_handler id db
     = (Ok (respond 500 (JError "Cast to ObjectId failed")), db).
Proof.
  intros Hcast.
  unfold put_handler, delete_handler, try_catch, bind,
    Restaurant.findByIdAndUpdate, Restaurant.findByIdAndDelete.
  rewrite Hcast. split; reflexivity.
Qed.

End ByIdentifier.

(** Claim C6, as amended.  PUT by identifier sets the paths the request
    body supplies and keeps the others; it is not a whole-document
    replace.  The store answering:
    - for an identifier that casts to the [_id] of a stored restaurant,
      the stored document afterwards has, for each of the six paths, the
      body's value if the body supplies the path and its previous value
      if the body omits it; it keeps its [_id]; the other documents and
      the identifiers of the collection are as before; the answer is 200
      with the updated document as loaded (its [grades] defaulting to
      the empty array);
    - for an identifier that casts to no stored [_id] the answer is 404
      and the collection is unchanged;
    - for a path parameter that does not cast to an ObjectId the answer
      is 500 and the collection is unchanged. *)
Theorem put_sets_supplied_paths `{Platform} (id : string)
    (reqBody : restaurantSchema.fields) (db : Db) :
  round_trips_ok 1 db = true ->
  let run := put_handler id reqBody db in
  let db' := store_after run in
  (forall (oid : ObjectId) (doc : restaurantSchema.t),
      castObjectId id = Some oid ->
      List.find (Restaurant.has_id oid) (restaurants db) = Some doc ->
      exists doc' : restaurantSchema.t,
        List.find (Restaurant.has_id oid) (restaurants db') = Some doc'
        /\ restaurantSchema._id doc' = restaurantSchema._id doc
        /\ (let old := restaurantSchema.paths doc in
            let new := restaurantSchema.paths doc' in
            (forall v, restaurantSchema.address reqBody = Some v ->
                       restaurantSchema.address new = Some v)
            /\ (restaurantSchema.address reqBody = None ->
                restaurantSchema.address new = restaurantSchema.address old)
            /\ (forall v, restaurantSchema.borough reqBody = Some v ->
                          restaurantSchema.borough new = Some v)
            /\ (restaurantSchema.borough reqBody = None ->
                restaurantSchema.borough new = restaurantSchema.borough old)
            /\ (forall v, restaurantSchema.cuisine reqBody = Some v ->
                          restaurantSchema.cuisine new = Some v)
            /\ (restaurantSchema.cuisine reqBody = None ->
                restaurantSchema.cuisine new = restaurantSchema.cuisine old)
            /\ (forall v, restaurantSchema.grades reqBody = Some v ->
                          restaurantSchema.grades new = Some v)
            /\ (restaurantSchema.grades reqBody = None ->
                restaurantSchema.grades new = restaurantSchema.grades old)
            /\ (forall v, restaurantSchema.name reqBody = Some v ->
                          restaurantSchema.name new = Some v)
            /\ (restaurantSchema.name reqBody = None ->
                restaurantSchema.name new = restaurantSchema.name old)
            /\ (forall v, restaurantSchema.restaurant_id reqBody = Some v ->
                          restaurantSchema.restaurant_id new = Some v)
            /\ (restaurantSchema.restaurant_id reqBody = None ->
                restaurantSchema.restaurant_id new
                = restaurantSchema.restaurant_id old))
        /\ (exists answered : restaurantSchema.t,
              outcome run = Ok (respond 200 (JRestaurant answered))
              /\ restaurantSchema._id answered = restaurantSchema._id doc
              /\ restaurantSchema.address (restaurantSchema.paths answered)
                 = restaurantSchema.address (restaurantSchema.paths doc')
              /\ restaurantSchema.borough (restaurantSchema.paths answered)
                 = restaurantSchema.borough (restaurantSchema.paths doc')
              /\ restaurantSchema.cuisine (restaurantSchema.paths answered)
                 = restaurantSchema.cuisine (restaurantSchema.paths doc')
              /\ restaurantSchema.name (restaurantSchema.paths answered)
                 = restaurantSchema.name (restaurantSchema.paths doc')
              /\ restaurantSchema.restaurant_id (restaurantSchema.paths answered)
                 = restaurantSchema.restaurant_id (restaurantSchema.paths doc')
              /\ (forall gs,
                    restaurantSchema.grades (restaurantSchema.paths doc') = Some gs ->
                    restaurantSchema.grades (restaurantSchema.paths answered)
                    = Some gs)
              /\ (restaurantSchema.grades (restaurantSchema.paths doc') = None ->
                  restaurantSchema.grades (restaurantSchema.paths answered)
                  = Some []))
        /\ restaurant_ids db' = restaurant_ids db
        /\ length (restaurants db') = length (restaurants db)
        /\ (forall other : restaurantSchema.t,
              Restaurant.has_id oid other = false ->
              In other (restaurants db) -> In other (restaurants db')))
  /\ (forall oid : ObjectId,
        castObjectId id = Some oid ->
        List.find (Restaurant.has_id oid) (restaurants db) = None ->
        outcome run = Ok (respond 404 (JError "Restaurant not found"))
        /\ restaurants db' = restaurants db)
  /\ (castObjectId id = None ->
      (exists body, outcome run = Ok (respond 500 body))
      /\ restaurants db' = restaurants db).
Proof.
  intros Hok run db'. unfold db', run. split; [|split].
  - intros oid doc Hcast Hfind.
    pose proof (findByIdAndUpdate_ok 0 id oid reqBody db Hcast Hok) as Hrun.
    rewrite Hfind in Hrun.
    assert (Hput : put_handler id reqBody db
              = (Ok (respond 200
                       (JRestaurant
                          (Restaurant.hydrate (Restaurant.apply_update reqBody doc)))),
                 mkDb (users db)
                   (Restaurant.update_first oid (Restaurant.apply_update reqBody)
                      (restaurants db))
                   (next_oid db) (tl (faults db)))).
    { unfold put_handler, try_catch, bind. rewrite Hrun. reflexivity. }
    exists (Restaurant.apply_update reqBody doc).
    rewrite Hput. simpl outcome. simpl store_after.
    split.
    { simpl. apply find_update_first; [apply apply_update_id|exact Hfind]. }
    split; [reflexivity|]. split.
    { cbv zeta. unfold Restaurant.apply_update. simpl.
      repeat split; try (intros v ->; reflexivity); intros ->; reflexivity. }
    split.
    { exists (Restaurant.hydrate (Restaurant.apply_update reqBody doc)).
      split; [reflexivity|]. split; [reflexivity|].
      unfold Restaurant.hydrate, Restaurant.with_defaults. simpl.
      repeat split; try reflexivity; intros; subst;
        match goal with
        | Hg : Restaurant.set_path _ _ = _ |- _ => rewrite Hg
        end; reflexivity. }
    split.
    { unfold restaurant_ids. simpl.
      apply update_first_ids. apply apply_update_id. }
    split.
    { simpl. clear. induction (restaurants db) as [|r rs IH]; simpl;
        [reflexivity|].
      destruct (Restaurant.has_id oid r); simpl; [|rewrite IH]; reflexivity. }
    intros other Hother Hin. simpl. apply update_first_others; assumption.
  - intros oid Hcast Hfind.
    pose proof (findByIdAndUpdate_ok 0 id oid reqBody db Hcast Hok) as Hrun.
    rewrite Hfind in Hrun.
    assert (Hput : put_handler id reqBody db
              = (Ok (respond 404 (JError "Restaurant not found")), settled db)).
    { unfold put_handler, try_catch, bind. rewrite Hrun. reflexivity. }
    rewrite Hput. split; reflexivity.
  - intros Hcast.
    destruct (malformed_identifier id reqBody db Hcast) as [-> _].
    split; [eexists; reflexivity|reflexivity].
Qed.

Lemma put_sets_supplied_paths_witness :
  (exists doc' : restaurantSchema.t,
      List.find (Restaurant.has_id 11%N)
        (restaurants
           (store_after (@put_handler Reference.platform Reference.id_joe
                           (restaurantSchema.mk_fields None None None None
                              (Some "Joseph") None)
                           Reference.db)))
      = Some doc'
      /\ restaurantSchema.name (restaurantSchema.paths doc') = Some "Joseph"
      /\ restaurantSchema.cuisine (restaurantSchema.paths doc') = Some "American")
  /\ outcome (@put_handler Reference.platform Reference.id_nobody
                (Reference.named "Joseph" "Diner") Reference.db)
     = Ok (respond 404 (JError "Restaurant not found"))
  /\ exists body,
       outcome (@put_handler Reference.platform "zzz"
                  (Reference.named "Joseph" "Diner") Reference.db)
       = Ok (respond 500 body).
Proof.
  split; [|split].
  - destruct (@put_sets_supplied_paths Reference.platform Reference.id_joe
                (restaurantSchema.mk_fields None None None None
                   (Some "Joseph") None)
                Reference.db eq_refl)
      as [Hfound _].
    destruct (Hfound 11%N Reference.joe eq_refl eq_refl)
      as (doc' & Hstored & _ & Hpaths & _).
    cbv zeta in Hpaths.
    destruct Hpaths as (_ & _ & _ & _ & _ & Hcuisine & _ & _ & Hname & _).
    exists doc'. split; [exact Hstored|]. split.
    + apply Hname. reflexivity.
    + rewrite Hcuisine; reflexivity.
  - destruct (@put_sets_supplied_paths Reference.platform Reference.id_nobody
                (Reference.named "Joseph" "Diner") Reference.db eq_refl)
      as (_ & Hmissing & _).
    destruct (Hmissing 255%N eq_refl eq_refl) as [Hresponse _].
    exact Hresponse.
  - destruct (@put_sets_supplied_paths Reference.platform "zzz"
                (Reference.named "Joseph" "Diner") Reference.db eq_refl)
      as (_ & _ & Hmalformed).
    destruct (Hmalformed eq_refl) as [Hresponse _]. exact Hresponse.
Defined.

(** Claim C6 fails as stated: the update is not a whole-document replace.
    A PUT on the restaurant "Joe" whose body supplies only [name]
    answers 200; the stored document keeps the cuisine "American" that
    the body omits, so its paths are not the body's, and neither are
    those of the document in the answer. *)
Lemma put_keeps_omitted_paths :
  let reqBody :=
    restaurantSchema.mk_fields None None None None (Some "Joseph") None in
  let run := @put_handler Reference.platform Reference.id_joe reqBody
               Reference.db in
  exists stored answered : restaurantSchema.t,
    outcome run = Ok (respond 200 (JRestaurant answered))
    /\ List.find (Restaurant.has_id 11%N) (restaurants (store_after run))
       = Some stored
    /\ restaurantSchema.cuisine (restaurantSchema.paths stored) = Some "American"
    /\ restaurantSchema.cuisine (restaurantSchema.paths answered) = Some "American"
    /\ restaurantSchema.cuisine reqBody = None
    /\ restaurantSchema.paths stored <> reqBody
    /\ restaurantSchema.paths answered <> reqBody.
Proof.
  exists (restaurantSchema.mk 11%N (Reference.named "Joseph" "American")),
    (Restaurant.hydrate
       (restaurantSchema.mk 11%N (Reference.named "Joseph" "American"))).
  repeat split; discriminate.
Qed.

(** Claim C8, as amended.  DELETE by a path parameter that casts to an
    ObjectId no stored restaurant has answers 404 and leaves the
    collection unchanged; a path parameter that does not cast to an
    ObjectId is answered 500, the collection unchanged too.  After a
    successful delete of an existing restaurant (identifiers being
    unique in the collection), a second delete of the same identifier
    answers 404 and again changes nothing. *)
Theorem delete_unknown_identifier `{Platform} (id : string) (db : Db) :
  (forall oid : ObjectId,
      castObjectId id = Some oid ->
      round_trips_ok 1 db = true ->
      List.find (Restaurant.has_id oid) (restaurants db) = None ->
      outcome (delete_handler id db)
      = Ok (respond 404 (JError "Restaurant not found"))
      /\ restaurants (store_after (delete_handler id db)) = restaurants db)
  /\ (castObjectId id = None ->
      (exists body, outcome (delete_handler id db) = Ok (respond 500 body))
      /\ store_after (delete_handler id db) = db)
  /\ (forall (oid : ObjectId) (doc : restaurantSchema.t),
        castObjectId id = Some oid ->
        round_trips_ok 2 db = true ->
        NoDup (restaurant_ids db) ->
        List.find (Restaurant.has_id oid) (restaurants db) = Some doc ->
        let db1 := store_after (delete_handler id db) in
        let db2 := store_after (delete_handler id db1) in
        outcome (delete_handler id db)
        = Ok (respond 200 (JMessage "Restaurant deleted successfully"))
        /\ restaurants db1 = Restaurant.remove_first oid (restaurants db)
        /\ outcome (delete_handler id db1)
           = Ok (respond 404 (JError "Restaurant not found"))
        /\ restaurants db2 = restaurants db1).
Proof.
  assert (Hmissing : forall oid d, castObjectId id = Some oid ->
            round_trips_ok 1 d = true ->
            List.find (Restaurant.has_id oid) (restaurants d) = None ->
            delete_handler id d
            = (Ok (respond 404 (JError "Restaurant not found")), settled d)).
  { intros oid d Hcast Hok Hfind. unfold delete_handler, try_catch, bind.
    rewrite (findByIdAndDelete_ok 0 id oid d Hcast Hok), Hfind. reflexivity. }
  split; [|split].
  - intros oid Hcast Hok Hfind. rewrite (Hmissing oid db Hcast Hok Hfind).
    split; reflexivity.
  - intros Hcast.
    destruct (malformed_identifier id
                (restaurantSchema.mk_fields None None None None None None)
                db Hcast) as [_ ->].
    split; [eexists; reflexivity|reflexivity].
  - intros oid doc Hcast Hok Hnodup Hfind db1 db2.
    assert (Hrun : delete_handler id db
              = (Ok (respond 200 (JMessage "Restaurant deleted successfully")),
                 mkDb (users db) (Restaurant.remove_first oid (restaurants db))
                   (next_oid db) (tl (faults db)))).
    { unfold delete_handler, try_catch, bind.
      rewrite (findByIdAndDelete_ok 1 id oid db Hcast Hok), Hfind. reflexivity. }
    assert (Hdb1 : db1 = mkDb (users db)
                     (Restaurant.remove_first oid (restaurants db))
                     (next_oid db) (tl (faults db))).
    { unfold db1. rewrite Hrun. reflexivity. }
    assert (Hok1 : round_trips_ok 1 db1 = true).
    { destruct (round_trip_ok 1 db Hok) as [_ Hlater]. rewrite Hdb1.
      exact Hlater. }
    assert (Hgone : List.find (Restaurant.has_id oid) (restaurants db1) = None).
    { rewrite Hdb1. simpl. apply find_remove_first. exact Hnodup. }
    split; [rewrite Hrun; reflexivity|].
    split; [rewrite Hdb1; reflexivity|].
    unfold db2. rewrite (Hmissing oid db1 Hcast Hok1 Hgone). split; reflexivity.
Qed.

Lemma delete_unknown_identifier_witness :
  outcome (@delete_handler Reference.platform Reference.id_nobody Reference.db)
  = Ok (respond 404 (JError "Restaurant not found"))
  /\ (exists body,
        outcome (@delete_handler Reference.platform "zzz" Reference.db)
        = Ok (respond 500 body))
  /\ outcome (@delete_handler Reference.platform Reference.id_joe
                (store_after (@delete_handler Reference.platform
                                Reference.id_joe Reference.db)))
     = Ok (respond 404 (JError "Restaurant not found")).
Proof.
  split; [|split].
  - destruct (@delete_unknown_identifier Reference.platform
                Reference.id_nobody Reference.db) as [Hmissing _].
    destruct (Hmissing 255%N eq_refl eq_refl eq_refl) as [Hresponse _].
    exact Hresponse.
  - destruct (@delete_unknown_identifier Reference.platform "zzz"
                Reference.db) as (_ & Hmalformed & _).
    destruct (Hmalformed eq_refl) as [Hresponse _]. exact Hresponse.
  - destruct (@delete_unknown_identifier Reference.platform
                Reference.id_joe Reference.db) as (_ & _ & Htwice).
    assert (Hnodup : NoDup (restaurant_ids Reference.db)).
    { repeat constructor; simpl; intuition discriminate. }
    destruct (Htwice 11%N Reference.joe eq_refl eq_refl Hnodup eq_refl)
      as (_ & _ & Hagain & _).
    exact Hagain.
Defined.

(** Claim C8 fails as stated: the path parameter "zzz" resolves to no
    stored restaurant, and its DELETE is answered 500, not 404. *)
Lemma delete_malformed_identifier_is_500 :
  @resolves Reference.platform "zzz" Reference.db = false
  /\ outcome (@delete_handler Reference.platform "zzz" Reference.db)
     <> Ok (respond 404 (JError "Restaurant not found"))
  /\ status_in [500]%Z (@delete_handler Reference.platform "zzz" Reference.db).
Proof.
  split; [reflexivity|]. split; [discriminate|].
  unfold status_in. simpl. auto.
Qed.

(* ================================================================= *)
(** ** Round trips, whatever the server does *)

(** The next round trip succeeds, or the schedule starts with a
    failure. *)
Lemma round_trip_dichotomy (db : Db) :
  round_trips_ok 1 db = true
  \/ exists m later, faults db = Some m :: later.
Proof.
  unfold round_trips_ok. destruct (faults db) as [|[m|] later]; simpl; eauto.
Qed.

Lemma round_trip_down (db : Db) (m : string) (later : list (option string)) :
  faults db = Some m :: later ->
  round_trip db = (Throw (MongoError m), settled db).
Proof.
  destruct db as [us rs oid fs]. simpl. intros ->. reflexivity.
Qed.

Lemma bind_ok {A B : Type} (m : M A) (k : A -> M B) (db db' : Db) (a : A) :
  m db = (Ok a, db') -> bind m k db = k a db'.
Proof. unfold bind. intros ->. reflexivity. Qed.

Lemma bind_throw {A B : Type} (m : M A) (k : A -> M B) (db db' : Db)
    (err : Error) :
  m db = (Throw err, db') -> bind m k db = (Throw err, db').
Proof. unfold bind. intros ->. reflexivity. Qed.

Lemma try_catch_ok {A : Type} (m : M A) (h : Error -> M A) (db db' : Db)
    (a : A) :
  m db = (Ok a, db') -> try_catch m h db = (Ok a, db').
Proof. unfold try_catch. intros ->. reflexivity. Qed.

Lemma try_catch_throw {A : Type} (m : M A) (h : Error -> M A) (db db' : Db)
    (err : Error) :
  m db = (Throw err, db') -> try_catch m h db = h err db'.
Proof. unfold try_catch. intros ->. reflexivity. Qed.

Section StoreDown.
Context `{Platform}.

Lemma findOne_down (email : string) (db : Db) (m : string)
    (later : list (option string)) :
  faults db = Some m :: later ->
  Users.findOne email db = (Throw (MongoError m), settled db).
Proof.
  intros Hf. unfold Users.findOne.
  apply bind_throw, (round_trip_down _ _ _ Hf).
Qed.

Lemma users_findByIdAndDelete_down (oid : ObjectId) (db : Db) (m : string)
    (later : list (option string)) :
  faults db = Some m :: later ->
  Users.findByIdAndDelete oid db = (Throw (MongoError m), settled db).
Proof.
  intros Hf. unfold Users.findByIdAndDelete.
  apply bind_throw, (round_trip_down _ _ _ Hf).
Qed.

Lemma users_findByIdAndDelete_ok (n : nat) (oid : ObjectId) (db : Db) :
  round_trips_ok (S n) db = true ->
  Users.findByIdAndDelete oid db
  = match List.find (Users.has_id oid) (users db) with
    | None => (Ok None, settled db)
    | Some doc =>
        (Ok (Some doc),
         mkDb (Users.remove_first oid (users db)) (restaurants db)
           (next_oid db) (tl (faults db)))
    end.
Proof.
  intros Hok. destruct (round_trip_ok n db Hok) as [Hrt _].
  unfold Users.findByIdAndDelete, bind. rewrite Hrt. simpl.
  destruct (List.find (Users.has_id oid) (users db)); reflexivity.
Qed.

Lemma find_down (query : Restaurant.filter) (db : Db) (m : string)
    (later : list (option string)) :
  faults db = Some m :: later ->
  Restaurant.find query db = (Throw (MongoError m), settled db).
Proof.
  intros Hf. unfold Restaurant.find.
  apply bind_throw, (round_trip_down _ _ _ Hf).
Qed.

(** [find] with a pattern that does not compile. *)
Lemma find_invalid (n : nat) (query : Restaurant.filter) (db : Db) :
  round_trips_ok (S n) db = true ->
  (exists err, Restaurant.condition (Restaurant.name_regex query) = Throw err)
  \/ (exists err, Restaurant.condition (Restaurant.cuisine_regex query) = Throw err) ->
  exists err, Restaurant.find query db = (Throw err, settled db).
Proof.
  intros Hok Hbad. destruct (round_trip_ok n db Hok) as [Hrt _].
  unfold Restaurant.find, bind. rewrite Hrt.
  destruct (Restaurant.condition (Restaurant.name_regex query)) as [tn|e1];
    simpl; [|eauto].
  destruct (Restaurant.condition (Restaurant.cuisine_regex query)) as [tc|e2];
    simpl; [|eauto].
  destruct Hbad as [[err Hbad]|[err Hbad]]; discriminate.
Qed.

(** Every run of [find] ends in the settled store, with a list of
    stored documents or an error. *)
Lemma find_cases (query : Restaurant.filter) (db : Db) :
  (exists rs, Restaurant.find query db = (Ok rs, settled db))
  \/ (exists err, Restaurant.find query db = (Throw err, settled db)).
Proof.
  destruct (round_trip_dichotomy db) as [Hok|(m & later & Hf)].
  - destruct (Restaurant.condition (Restaurant.name_regex query)) as [tn|e1] eqn:Hn.
    + destruct (Restaurant.condition (Restaurant.cuisine_regex query))
        as [tc|e2] eqn:Hc.
      * left. rewrite (find_ok 0 _ _ _ _ Hok Hn Hc). eauto.
      * right. apply (find_invalid 0); eauto.
    + right. apply (find_invalid 0); eauto.
  - right. rewrite (find_down _ _ _ _ Hf). eauto.
Qed.

Lemma findById_ok (n : nat) (id : string) (oid : ObjectId) (db : Db) :
  castObjectId id = Some oid ->
  round_trips_ok (S n) db = true ->
  Restaurant.findById id db
  = (Ok (option_map Restaurant.hydrate
           (List.find (Restaurant.has_id oid) (restaurants db))),
     settled db).
Proof.
  intros Hcast Hok. destruct (round_trip_ok n db Hok) as [Hrt _].
  unfold Restaurant.findById. rewrite Hcast. unfold bind. rewrite Hrt.
  reflexivity.
Qed.

Lemma findById_down (id : string) (oid : ObjectId) (db : Db) (m : string)
    (later : list (option string)) :
  castObjectId id = Some oid ->
  faults db = Some m :: later ->
  Restaurant.findById id db = (Throw (MongoError m), settled db).
Proof.
  intros Hcast Hf. unfold Restaurant.findById. rewrite Hcast.
  apply bind_throw, (round_trip_down _ _ _ Hf).
Qed.

Lemma findByIdAndUpdate_down (id : string) (oid : ObjectId)
    (update : restaurantSchema.fields) (db : Db) (m : string)
    (later : list (option string)) :
  castObjectId id = Some oid ->
  faults db = Some m :: later ->
  Restaurant.findByIdAndUpdate id update db
  = (Throw (MongoError m), settled db).
Proof.
  intros Hcast Hf. unfold Restaurant.findByIdAndUpdate. rewrite Hcast.
  apply bind_throw, (round_trip_down _ _ _ Hf).
Qed.

Lemma findByIdAndDelete_down (id : string) (oid : ObjectId) (db : Db)
    (m : string) (later : list (option string)) :
  castObjectId id = Some oid ->
  faults db = Some m :: later ->
  Restaurant.findByIdAndDelete id db = (Throw (MongoError m), settled db).
Proof.
  intros Hcast Hf. unfold Restaurant.findByIdAndDelete. rewrite Hcast.
  apply bind_throw, (round_trip_down _ _ _ Hf).
Qed.

Lemma restaurant_save_ok (n : nat) (doc : restaurantSchema.t) (db : Db) :
  round_trips_ok (S n) db = true ->
  Restaurant.save doc db
  = if existsb (Restaurant.has_id (restaurantSchema._id doc)) (restaurants db)
    then (Throw (MongoError "E11000 duplicate key error"), settled db)
    else (Ok doc,
          mkDb (users db) (restaurants db ++ [doc]) (next_oid db)
            (tl (faults db))).
Proof.
  intros Hok. destruct (round_trip_ok n db Hok) as [Hrt _].
  unfold Restaurant.save, bind. rewrite Hrt. simpl.
  destruct (existsb _ (restaurants db)); reflexivity.
Qed.

Lemma restaurant_save_down (doc : restaurantSchema.t) (db : Db) (m : string)
    (later : list (option string)) :
  faults db = Some m :: later ->
  Restaurant.save doc db = (Throw (MongoError m), settled db).
Proof.
  intros Hf. unfold Restaurant.save.
  apply bind_throw, (round_trip_down _ _ _ Hf).
Qed.

End StoreDown.

(* ================================================================= *)
(** ** The remaining restaurant routes *)

Lemma existsb_has_id (oid : ObjectId) (rs : list restaurantSchema.t) :
  existsb (Restaurant.has_id oid) rs = true
  <-> In oid (map restaurantSchema._id rs).
Proof.
  rewrite existsb_exists, in_map_iff. unfold Restaurant.has_id.
  split; intros (r & Ha & Hb).
  - exists r. apply N.eqb_eq in Hb. auto.
  - exists r. subst. rewrite N.eqb_refl. auto.
Qed.

Lemma find_has_id_some (oid : ObjectId) (rs : list restaurantSchema.t)
    (r : restaurantSchema.t) :
  List.find (Restaurant.has_id oid) rs = Some r ->
  In r rs /\ restaurantSchema._id r = oid.
Proof.
  intros Hfind. apply find_some in Hfind as [Hin Hid].
  unfold Restaurant.has_id in Hid. apply N.eqb_eq in Hid. auto.
Qed.

Lemma find_has_id_none (oid : ObjectId) (rs : list restaurantSchema.t) :
  List.find (Restaurant.has_id oid) rs = None
  <-> ~ In oid (map restaurantSchema._id rs).
Proof.
  split.
  - intros Hnone Hin. apply in_map_iff in Hin as (r & Hid & Hin).
    pose proof (find_none _ _ Hnone r Hin) as Hr.
    unfold Restaurant.has_id in Hr. rewrite Hid, N.eqb_refl in Hr.
    discriminate.
  - apply find_absent_id.
Qed.

Section MoreRoutes.
Context `{Platform}.

Lemma create_handler_ok (reqBody : restaurantSchema.fields) (db : Db) :
  round_trips_ok 1 db = true ->
  ~ In (next_oid db) (restaurant_ids db) ->
  create_handler reqBody db
  = (Ok (respond 201 (JRestaurant (created reqBody db))),
     mkDb (users db) (restaurants db ++ [created reqBody db])
       (N.succ (next_oid db)) (tl (faults db))).
Proof.
  intros Hok Hfresh. unfold create_handler.
  apply try_catch_ok.
  rewrite (bind_ok _ _ db
             (mkDb (users db) (restaurants db) (N.succ (next_oid db)) (faults db))
             (created reqBody db)) by reflexivity.
  unfold bind. rewrite (restaurant_save_ok 0) by exact Hok. simpl.
  destruct (existsb _ (restaurants db)) eqn:Hex; [|reflexivity].
  exfalso. apply Hfresh. apply existsb_has_id in Hex. exact Hex.
Qed.

Lemma create_handler_taken (reqBody : restaurantSchema.fields) (db : Db) :
  round_trips_ok 1 db = true ->
  In (next_oid db) (restaurant_ids db) ->
  create_handler reqBody db
  = (Ok (respond 400 (JError "E11000 duplicate key error")),
     mkDb (users db) (restaurants db) (N.succ (next_oid db)) (tl (faults db))).
Proof.
  intros Hok Htaken. unfold create_handler, try_catch.
  rewrite (bind_ok _ _ db
             (mkDb (users db) (restaurants db) (N.succ (next_oid db)) (faults db))
             (created reqBody db)) by reflexivity.
  unfold bind. rewrite (restaurant_save_ok 0) by exact Hok. simpl.
  apply existsb_has_id in Htaken. rewrite Htaken. reflexivity.
Qed.

Lemma create_handler_down (reqBody : restaurantSchema.fields) (db : Db)
    (m : string) (later : list (option string)) :
  faults db = Some m :: later ->
  create_handler reqBody db
  = (Ok (respond 400 (JError m)),
     mkDb (users db) (restaurants db) (N.succ (next_oid db)) (tl (faults db))).
Proof.
  intros Hf. unfold create_handler, try_catch.
  rewrite (bind_ok _ _ db
             (mkDb (users db) (restaurants db) (N.succ (next_oid db)) (faults db))
             (created reqBody db)) by reflexivity.
  unfold bind. rewrite (restaurant_save_down _ _ m later) by exact Hf.
  reflexivity.
Qed.

Lemma list_handler_ok (db : Db) :
  round_trips_ok 1 db = true ->
  list_handler db = (Ok (respond 200 (JRestaurants (restaurants db))), settled db).
Proof.
  intros Hok. unfold list_handler. apply try_catch_ok.
  unfold Restaurant.find_all.
  rewrite (bind_ok _ _ db (settled db) (restaurants db));
    [reflexivity|apply find_unconstrained; exact Hok].
Qed.

Lemma list_handler_down (db : Db) (m : string) (later : list (option string)) :
  faults db = Some m :: later ->
  list_handler db = (Ok (respond 500 (JError m)), settled db).
Proof.
  intros Hf. unfold list_handler, Restaurant.find_all.
  rewrite (try_catch_throw _ _ db (settled db) (MongoError m)); [reflexivity|].
  apply bind_throw, (find_down _ _ _ _ Hf).
Qed.

Lemma get_handler_ok (id : string) (oid : ObjectId) (db : Db) :
  castObjectId id = Some oid ->
  round_trips_ok 1 db = true ->
  get_handler id db
  = (Ok (match List.find (Restaurant.has_id oid) (restaurants db) with
         | Some r => respond 200 (JRestaurant (Restaurant.hydrate r))
         | None => respond 404 (JError "Restaurant not found")
         end), settled db).
Proof.
  intros Hcast Hok. unfold get_handler. apply try_catch_ok.
  rewrite (bind_ok _ _ db (settled db)
             (option_map Restaurant.hydrate
                (List.find (Restaurant.has_id oid) (restaurants db))))
    by (apply (findById_ok 0); assumption).
  destruct (List.find (Restaurant.has_id oid) (restaurants db)); reflexivity.
Qed.

Lemma get_handler_down (id : string) (oid : ObjectId) (db : Db) (m : string)
    (later : list (option string)) :
  castObjectId id = Some oid ->
  faults db = Some m :: later ->
  get_handler id db = (Ok (respond 500 (JError m)), settled db).
Proof.
  intros Hcast Hf. unfold get_handler.
  rewrite (try_catch_throw _ _ db (settled db) (MongoError m)); [reflexivity|].
  apply bind_throw, (findById_down _ _ _ _ _ Hcast Hf).
Qed.

Lemma get_handler_malformed (id : string) (db : Db) :
  castObjectId id = None ->
  get_handler id db = (Ok (respond 500 (JError "Cast to ObjectId failed")), db).
Proof.
  intros Hcast. unfold get_handler, try_catch, bind, Restaurant.findById.
  rewrite Hcast. reflexivity.
Qed.

Lemma put_handler_ok (id : string) (oid : ObjectId)
    (reqBody : restaurantSchema.fields) (db : Db) :
  castObjectId id = Some oid ->
  round_trips_ok 1 db = true ->
  put_handler id reqBody db
  = match List.find (Restaurant.has_id oid) (restaurants db) with
    | None => (Ok (respond 404 (JError "Restaurant not found")), settled db)
    | Some doc =>
        (Ok (respond 200
               (JRestaurant
                  (Restaurant.hydrate (Restaurant.apply_update reqBody doc)))),
         mkDb (users db)
           (Restaurant.update_first oid (Restaurant.apply_update reqBody)
              (restaurants db))
           (next_oid db) (tl (faults db)))
    end.
Proof.
  intros Hcast Hok. unfold put_handler, try_catch, bind.
  rewrite (findByIdAndUpdate_ok 0 id oid reqBody db Hcast Hok).
  destruct (List.find (Restaurant.has_id oid) (restaurants db)); reflexivity.
Qed.

Lemma put_handler_down (id : string) (oid : ObjectId)
    (reqBody : restaurantSchema.fields) (db : Db) (m : string)
    (later : list (option string)) :
  castObjectId id = Some oid ->
  faults db = Some m :: later ->
  put_handler id reqBody db = (Ok (respond 500 (JError m)), settled db).
Proof.
  intros Hcast Hf. unfold put_handler.
  rewrite (try_catch_throw _ _ db (settled db) (MongoError m)); [reflexivity|].
  apply bind_throw, (findByIdAndUpdate_down _ _ _ _ _ _ Hcast Hf).
Qed.

Lemma delete_handler_ok (id : string) (oid : ObjectId) (db : Db) :
  castObjectId id = Some oid ->
  round_trips_ok 1 db = true ->
  delete_handler id db
  = match List.find (Restaurant.has_id oid) (restaurants db) with
    | None => (Ok (respond 404 (JError "Restaurant not found")), settled db)
    | Some doc =>
        (Ok (respond 200 (JMessage "Restaurant deleted successfully")),
         mkDb (users db) (Restaurant.remove_first oid (restaurants db))
           (next_oid db) (tl (faults db)))
    end.
Proof.
  intros Hcast Hok. unfold delete_handler, try_catch, bind.
  rewrite (findByIdAndDelete_ok 0 id oid db Hcast Hok).
  destruct (List.find (Restaurant.has_id oid) (restaurants db)); reflexivity.
Qed.

Lemma delete_handler_down (id : string) (oid : ObjectId) (db : Db)
    (m : string) (later : list (option string)) :
  castObjectId id = Some oid ->
  faults db = Some m :: later ->
  delete_handler id db = (Ok (respond 500 (JError m)), settled db).
Proof.
  intros Hcast Hf. unfold delete_handler.
  rewrite (try_catch_throw _ _ db (settled db) (MongoError m)); [reflexivity|].
  apply bind_throw, (findByIdAndDelete_down _ _ _ _ _ Hcast Hf).
Qed.

Lemma delete_me_handler_ok (user : Claims.t) (db : Db) :
  round_trips_ok 1 db = true ->
  delete_me_handler user db
  = match List.find (Users.has_id (Claims.userId user)) (users db) with
    | None => (Ok (respond 404 (JError "User not found")), settled db)
    | Some doc =>
        (Ok (respond 200 (JMessage "User deleted successfully")),
         mkDb (Users.remove_first (Claims.userId user) (users db))
           (restaurants db) (next_oid db) (tl (faults db)))
    end.
Proof.
  intros Hok. unfold delete_me_handler, try_catch, bind.
  rewrite (users_findByIdAndDelete_ok 0 _ db Hok).
  destruct (List.find (Users.has_id (Claims.userId user)) (users db));
    reflexivity.
Qed.

Lemma delete_me_handler_down (user : Claims.t) (db : Db) (m : string)
    (later : list (option string)) :
  faults db = Some m :: later ->
  delete_me_handler user db
  = (Ok (respond 500 (JErrorDetails "Error deleting user" m)), settled db).
Proof.
  intros Hf. unfold delete_me_handler.
  rewrite (try_catch_throw _ _ db (settled db) (MongoError m)); [reflexivity|].
  apply bind_throw, (users_findByIdAndDelete_down _ _ _ _ Hf).
Qed.

Lemma search_handler_thrown (q : Query.t) (db db' : Db) (err : Error) :
  Restaurant.find (build_query q) db = (Throw err, db') ->
  search_handler q db
  = (Ok (respond 500
           (JErrorDetails "Error searching for restaurants" (message err))), db').
Proof.
  intros Hfind. unfold search_handler.
  rewrite (try_catch_throw _ _ db db' err); [reflexivity|].
  apply bind_throw. exact Hfind.
Qed.

End MoreRoutes.

(** Property X1.  Every route whose body is inside a [try] always sends a response,
    whatever the store does and whatever the request, and the status is
    one of a fixed few: search, read, update and delete of a restaurant
    and the self-delete answer 200, 404 or 500; the listing 200 or 500;
    the creation 201 or 400. *)
Theorem try_wrapped_routes_always_answer `{Platform} (db : Db) (q : Query.t)
    (id : string) (reqBody : restaurantSchema.fields) (user : Claims.t) :
  status_in [200; 404; 500]%Z (search_handler q db)
  /\ status_in [201; 400]%Z (create_handler reqBody db)
  /\ status_in [200; 500]%Z (list_handler db)
  /\ status_in [200; 404; 500]%Z (get_handler id db)
  /\ status_in [200; 404; 500]%Z (put_handler id reqBody db)
  /\ status_in [200; 404; 500]%Z (delete_handler id db)
  /\ status_in [200; 404; 500]%Z (delete_me_handler user db).
Proof.
  unfold status_in, outcome.
  destruct (round_trip_dichotomy db) as [Hok|(m & later & Hf)].
  - (* the store answers *)
    split.
    { destruct (find_cases (build_query q) db) as [[rs Hfind]|[err Hfind]].
      - rewrite (search_handler_found _ _ _ _ Hfind).
        destruct rs; simpl; auto.
      - rewrite (search_handler_thrown _ _ _ _ Hfind). simpl. auto. }
    split.
    { destruct (in_dec N.eq_dec (next_oid db) (restaurant_ids db)) as [Hin|Hout].
      - rewrite (create_handler_taken _ _ Hok Hin). simpl. auto.
      - rewrite (create_handler_ok _ _ Hok Hout). simpl. auto. }
    split; [rewrite (list_handler_ok _ Hok); simpl; auto|].
    destruct (castObjectId id) as [oid|] eqn:Hcast.
    + rewrite (get_handler_ok _ _ _ Hcast Hok),
        (put_handler_ok _ _ _ _ Hcast Hok),
        (delete_handler_ok _ _ _ Hcast Hok),
        (delete_me_handler_ok _ _ Hok).
      destruct (List.find (Restaurant.has_id oid) (restaurants db));
        destruct (List.find (Users.has_id (Claims.userId user)) (users db));
        simpl; auto 10.
    + destruct (malformed_identifier id reqBody db Hcast) as [-> ->].
      rewrite (get_handler_malformed _ _ Hcast), (delete_me_handler_ok _ _ Hok).
      destruct (List.find (Users.has_id (Claims.userId user)) (users db));
        simpl; auto 10.
  - (* the store is down *)
    rewrite (search_handler_thrown q db (settled db) (MongoError m))
      by (apply (find_down _ _ _ _ Hf)).
    rewrite (create_handler_down _ _ _ _ Hf), (list_handler_down _ _ _ Hf),
      (delete_me_handler_down _ _ _ _ Hf).
    destruct (castObjectId id) as [oid|] eqn:Hcast.
    + rewrite (get_handler_down _ _ _ _ _ Hcast Hf),
        (put_handler_down _ _ _ _ _ _ Hcast Hf),
        (delete_handler_down _ _ _ _ _ Hcast Hf).
      simpl. auto 10.
    + destruct (malformed_identifier id reqBody db Hcast) as [-> ->].
      rewrite (get_handler_malformed _ _ Hcast). simpl. auto 10.
Qed.

(* ================================================================= *)
(** ** What the middleware lets through *)

Section Accepted.
Context `{Platform}.

Lemma verify_accepts_inv (token : string) (secret : option string) (now_ms : Z)
    (user : Claims.t) :
  jwt.verify token secret now_ms = inr user ->
  exists key,
    secret = Some key /\ Js.truthy key = true
    /\ length (Js.split "."%char token) = 3%nat
    /\ jws_decode token = Some user
    /\ jws_verify token key = true
    /\ (forall e, Claims.exp user = Some e -> (jwt.timestamp now_ms < e)%Z).
Proof.
  unfold jwt.verify.
  destruct (Js.truthy token); simpl; [|discriminate].
  destruct (Nat.eqb_spec (length (Js.split "."%char token)) 3) as [Hparts|];
    simpl; [|discriminate].
  destruct (jws_decode token) as [payload|]; [|discriminate].
  destruct secret as [key|]; [|discriminate].
  destruct (Js.truthy key) eqn:Hkey; simpl; [|discriminate].
  destruct (jws_verify token key) eqn:Hsig; simpl; [|discriminate].
  destruct (Claims.exp payload) as [e|] eqn:Hexp.
  - destruct (Z.leb_spec e (jwt.timestamp now_ms)); [discriminate|].
    intros [= <-]. exists key. repeat split; auto.
    intros e' He'. rewrite Hexp in He'. injection He' as <-. assumption.
  - intros [= <-]. exists key. repeat split; auto.
    intros e' He'. rewrite Hexp in He'. discriminate.
Qed.

Lemma authenticateToken_next_inv (now_ms : Z) (authorization : option string)
    (user : Claims.t) :
  authenticateToken now_ms authorization = Next user ->
  exists token,
    header_token authorization = Some token /\ Js.truthy token = true
    /\ jwt.verify token JWT_SECRET now_ms = inr user.
Proof.
  unfold authenticateToken.
  destruct (header_token authorization) as [token|]; simpl; [|discriminate].
  destruct (Js.truthy token) eqn:Htruthy; simpl; [|discriminate].
  destruct (jwt.verify token JWT_SECRET now_ms) as [err|claims] eqn:Hverify;
    [discriminate|].
  intros [= <-]. exists token. auto.
Qed.

Lemma authenticateToken_sent_inv (now_ms : Z) (authorization : option string)
    (res : Response) :
  authenticateToken now_ms authorization = Sent res ->
  res = respond 403 (JError "Token is required")
  \/ res = respond 403 (JError "Invalid token").
Proof.
  unfold authenticateToken.
  destruct (header_token authorization) as [token|]; simpl.
  - destruct (Js.truthy token); simpl.
    + destruct (jwt.verify token JWT_SECRET now_ms); [|discriminate].
      intros [= <-]. auto.
    + intros [= <-]. auto.
  - intros [= <-]. auto.
Qed.

End Accepted.

(** Property X2.  A request to a protected route either runs the handler, on claims
    that [jwt.verify] returned for the header's token, or is answered
    403 by the middleware with one of its two messages, in which case
    the store is not contacted and not changed. *)
Theorem protected_runs_handler_or_403 `{Platform} (now_ms : Z)
    (authorization : option string) (handler : Claims.t -> M Response)
    (db : Db) :
  (exists token user,
      header_token authorization = Some token
      /\ jwt.verify token JWT_SECRET now_ms = inr user
      /\ protected now_ms authorization handler db = handler user db)
  \/ ((protected now_ms authorization handler db
       = (Ok (respond 403 (JError "Token is required")), db)
       \/ protected now_ms authorization handler db
          = (Ok (respond 403 (JError "Invalid token")), db))
      /\ forall other : Claims.t -> M Response,
           protected now_ms authorization other db
           = protected now_ms authorization handler db).
Proof.
  unfold protected.
  destruct (authenticateToken now_ms authorization) as [res|user] eqn:Hauth.
  - right. split; [|reflexivity].
    destruct (authenticateToken_sent_inv _ _ _ Hauth) as [->| ->]; auto.
  - left. destruct (authenticateToken_next_inv _ _ _ Hauth)
      as (token & Htoken & _ & Hverify).
    exists token, user. auto.
Qed.

(** Property X3.  With a signing secret configured, the claims the
    middleware attaches to a request come from a token with three parts
    that decodes to them and whose signature checks under the secret;
    if they carry an expiry, the clock has not reached it. *)
Theorem accepted_claims_signed_and_unexpired `{Platform} (now_ms : Z)
    (authorization : option string) (user : Claims.t) (key : string) :
  JWT_SECRET = Some key ->
  Js.truthy key = true ->
  authenticateToken now_ms authorization = Next user ->
  exists token,
    header_token authorization = Some token
    /\ length (Js.split "."%char token) = 3%nat
    /\ jws_decode token = Some user
    /\ jws_verify token key = true
    /\ (forall e, Claims.exp user = Some e -> (jwt.timestamp now_ms < e)%Z).
Proof.
  intros Hsecret _ Hauth.
  destruct (authenticateToken_next_inv _ _ _ Hauth)
    as (token & Htoken & _ & Hverify).
  destruct (verify_accepts_inv _ _ _ _ Hverify)
    as (key' & Hkey' & _ & Hparts & Hdecode & Hsig & Hexp).
  rewrite Hsecret in Hkey'. injection Hkey' as <-.
  exists token. auto.
Qed.

Lemma accepted_claims_signed_and_unexpired_witness :
  exists token,
    header_token (bearer Reference.alice_token) = Some token
    /\ length (Js.split "."%char token) = 3%nat
    /\ @jws_decode Reference.platform token = Some Reference.alice_claims
    /\ @jws_verify Reference.platform token "top-secret" = true
    /\ (forall e, Claims.exp Reference.alice_claims = Some e ->
                  (jwt.timestamp Reference.clock < e)%Z).
Proof.
  apply (@accepted_claims_signed_and_unexpired Reference.platform
           Reference.clock (bearer Reference.alice_token)
           Reference.alice_claims "top-secret");
    vm_compute; reflexivity.
Defined.

(* ================================================================= *)
(** ** Login and sign-up, every run *)

Lemma find_has_email_some (email : string) (us : list usersSchema.t)
    (u : usersSchema.t) :
  List.find (Users.has_email email) us = Some u ->
  In u us /\ usersSchema.email u = email.
Proof.
  intros Hfind. apply find_some in Hfind as [Hin Hemail].
  unfold Users.has_email in Hemail. apply String.eqb_eq in Hemail. auto.
Qed.

Lemma find_has_email_none (email : string) (us : list usersSchema.t) :
  List.find (Users.has_email email) us = None
  <-> ~ In email (map usersSchema.email us).
Proof.
  split.
  - intros Hnone Hin. apply in_map_iff in Hin as (u & Hemail & Hin).
    pose proof (find_none _ _ Hnone u Hin) as Hu.
    unfold Users.has_email in Hu. rewrite Hemail, String.eqb_refl in Hu.
    discriminate.
  - intros Hnot. destruct (List.find (Users.has_email email) us) as [u|] eqn:Hfind;
      [|reflexivity].
    exfalso. apply Hnot. apply find_has_email_some in Hfind as [Hin <-].
    apply in_map. exact Hin.
Qed.

Section EveryRun.
Context `{Platform}.

(** [POST /login] once the lookup has been answered. *)
Lemma login_run (now_ms : Z) (req : Credentials) (db : Db) :
  round_trips_ok 1 db = true ->
  post_login now_ms req db
  = (match List.find (Users.has_email (cred_email req)) (users db) with
     | None => Ok (respond 401 (JError "Invalid email or password"))
     | Some u =>
         match cred_password req with
         | None => Throw (BcryptError "data and hash arguments required")
         | Some pw =>
             if bcrypt_compare pw (usersSchema.password u) then
               match jwt.sign (usersSchema._id u) (usersSchema.email u)
                       JWT_SECRET now_ms with
               | Ok token => Ok (respond 200 (JToken token))
               | Throw err => Throw err
               end
             else Ok (respond 401 (JError "Invalid email or password"))
         end
     end, settled db).
Proof.
  intros Hok. unfold post_login, bind. rewrite (findOne_ok 0 _ _ Hok).
  destruct (List.find (Users.has_email (cred_email req)) (users db)) as [u|];
    [|reflexivity].
  unfold bcrypt.compare. destruct (cred_password req) as [pw|]; [|reflexivity].
  simpl. destruct (bcrypt_compare pw (usersSchema.password u)); [|reflexivity].
  simpl. destruct (jwt.sign _ _ JWT_SECRET now_ms); reflexivity.
Qed.

Lemma login_down (now_ms : Z) (req : Credentials) (db : Db) (m : string)
    (later : list (option string)) :
  faults db = Some m :: later ->
  post_login now_ms req db = (Throw (MongoError m), settled db).
Proof.
  intros Hf. unfold post_login. apply bind_throw, (findOne_down _ _ _ _ Hf).
Qed.

(** [POST /signup] once the lookup has been answered. *)
Lemma signup_run (salt : string) (req : Credentials) (db : Db) :
  round_trips_ok 1 db = true ->
  post_signup salt req db
  = match List.find (Users.has_email (cred_email req)) (users db) with
    | Some _ => (Ok (respond 400 (JError "Email already in use")), settled db)
    | None =>
        match cred_password req with
        | None =>
            (Throw (BcryptError "data and salt arguments required"), settled db)
        | Some pw =>
            let doc :=
              usersSchema.mk (next_oid db) (cred_email req) (bcrypt_hash salt pw) in
            if negb (Js.truthy (cred_email req)) then
              (Ok (respond 500
                     (JErrorDetails "Error registering user"
                        "Users validation failed: email: Path `email` is required.")),
               mkDb (users db) (restaurants db) (N.succ (next_oid db))
                 (tl (faults db)))
            else if negb (Js.truthy (bcrypt_hash salt pw)) then
              (Ok (respond 500
                     (JErrorDetails "Error registering user"
                        "Users validation failed: password: Path `password` is required.")),
               mkDb (users db) (restaurants db) (N.succ (next_oid db))
                 (tl (faults db)))
            else
              match tl (faults db) with
              | Some m :: _ =>
                  (Ok (respond 500 (JErrorDetails "Error registering user" m)),
                   mkDb (users db) (restaurants db) (N.succ (next_oid db))
                     (tl (tl (faults db))))
              | _ =>
                  (Ok (respond 201 (JMessage "User successfully registered")),
                   mkDb (users db ++ [doc]) (restaurants db)
                     (N.succ (next_oid db)) (tl (tl (faults db))))
              end
        end
    end.
Proof.
  intros Hok. unfold post_signup, bind. rewrite (findOne_ok 0 _ _ Hok).
  destruct (List.find (Users.has_email (cred_email req)) (users db)) as [u|] eqn:Hfind;
    [reflexivity|].
  unfold bcrypt.hash. destruct (cred_password req) as [pw|]; [|reflexivity].
  simpl. unfold try_catch, bind, Users.save. simpl.
  destruct (Js.truthy (cred_email req)); simpl; [|reflexivity].
  destruct (Js.truthy (bcrypt_hash salt pw)); simpl; [|reflexivity].
  unfold bind, round_trip. simpl.
  destruct (tl (faults db)) as [|[m|] later]; simpl;
    try rewrite (find_none_existsb _ _ Hfind); reflexivity.
Qed.

Lemma signup_down (salt : string) (req : Credentials) (db : Db) (m : string)
    (later : list (option string)) :
  faults db = Some m :: later ->
  post_signup salt req db = (Throw (MongoError m), settled db).
Proof.
  intros Hf. unfold post_signup. apply bind_throw, (findOne_down _ _ _ _ Hf).
Qed.

End EveryRun.

Lemma round_trips_not_ok (db : Db) :
  round_trips_ok 1 db = false <-> exists m later, faults db = Some m :: later.
Proof.
  unfold round_trips_ok. destruct (faults db) as [|[m|] later]; simpl; split;
    try discriminate; eauto; intros (m' & later' & Hf); discriminate.
Qed.

Lemma sign_throws_iff `{Platform} (userId : ObjectId) (email : string)
    (secret : option string) (now_ms : Z) :
  (exists err, jwt.sign userId email secret now_ms = Throw err)
  <-> Js.truthy_opt secret = false.
Proof.
  unfold jwt.sign. destruct secret as [key|]; simpl.
  - destruct (Js.truthy key); split; eauto; try discriminate.
    intros [err Herr]. discriminate.
  - split; eauto.
Qed.

(** Property X4.  A login is answered with a token only for a stored user with the
    request's email whose stored hash bcrypt accepts the request's
    password for, and the token is the one signed for that user's [_id]
    and email at that moment; every other answer is the 401.  No run of
    the login, answered or not, changes a collection. *)
Theorem login_token_only_for_valid_credentials `{Platform} (now_ms : Z)
    (req : Credentials) (db : Db) :
  users (store_after (post_login now_ms req db)) = users db
  /\ restaurants (store_after (post_login now_ms req db)) = restaurants db
  /\ forall res : Response,
       outcome (post_login now_ms req db) = Ok res ->
       res = respond 401 (JError "Invalid email or password")
       \/ exists u pw key,
            In u (users db)
            /\ usersSchema.email u = cred_email req
            /\ cred_password req = Some pw
            /\ bcrypt_compare pw (usersSchema.password u) = true
            /\ JWT_SECRET = Some key /\ Js.truthy key = true
            /\ res = respond 200
                       (JToken (jws_sign
                                  (issued_claims (usersSchema._id u)
                                     (usersSchema.email u) now_ms) key)).
Proof.
  destruct (round_trip_dichotomy db) as [Hok|(m & later & Hf)].
  - rewrite (login_run now_ms req db Hok). simpl.
    split; [reflexivity|]. split; [reflexivity|]. intros res.
    destruct (List.find (Users.has_email (cred_email req)) (users db)) as [u|] eqn:Hfind.
    + apply find_has_email_some in Hfind as [Hin Hemail].
      destruct (cred_password req) as [pw|]; [|discriminate].
      destruct (bcrypt_compare pw (usersSchema.password u)) eqn:Hcmp.
      * unfold jwt.sign. destruct JWT_SECRET as [key|]; [|discriminate].
        destruct (Js.truthy key) eqn:Hkey; [|discriminate].
        intros [= <-]. right. exists u, pw, key. repeat split; auto.
      * intros [= <-]. left. reflexivity.
    + intros [= <-]. left. reflexivity.
  - rewrite (login_down now_ms req db m later Hf). simpl.
    split; [reflexivity|]. split; [reflexivity|]. discriminate.
Qed.

Lemma login_token_only_for_valid_credentials_witness :
  respond 200 (JToken Reference.alice_token)
  = respond 401 (JError "Invalid email or password")
  \/ exists u pw key,
       In u (users Reference.db)
       /\ usersSchema.email u = "alice@example.com"
       /\ Some "wonderland" = Some pw
       /\ @bcrypt_compare Reference.platform pw (usersSchema.password u) = true
       /\ @JWT_SECRET Reference.platform = Some key /\ Js.truthy key = true
       /\ respond 200 (JToken Reference.alice_token)
          = respond 200
              (JToken (@jws_sign Reference.platform
                         (issued_claims (usersSchema._id u)
                            (usersSchema.email u) Reference.clock) key)).
Proof.
  destruct (@login_token_only_for_valid_credentials Reference.platform
              Reference.clock
              (credentials "alice@example.com" (Some "wonderland"))
              Reference.db) as (_ & _ & Hsound).
  apply Hsound. reflexivity.
Defined.

(** Property X5.  A login leaves its request unanswered exactly when the lookup
    fails, or a user with the email exists and either the request has no
    password or the password is right and no signing secret is
    configured. *)
Theorem login_unanswered_exactly_when `{Platform} (now_ms : Z)
    (req : Credentials) (db : Db) :
  (exists err, outcome (post_login now_ms req db) = Throw err)
  <-> round_trips_ok 1 db = false
      \/ exists u,
           List.find (Users.has_email (cred_email req)) (users db) = Some u
           /\ (cred_password req = None
               \/ exists pw,
                    cred_password req = Some pw
                    /\ bcrypt_compare pw (usersSchema.password u) = true
                    /\ Js.truthy_opt JWT_SECRET = false).
Proof.
  destruct (round_trip_dichotomy db) as [Hok|(m & later & Hf)].
  - rewrite (login_run now_ms req db Hok). simpl.
    destruct (List.find (Users.has_email (cred_email req)) (users db)) as [u|].
    + destruct (cred_password req) as [pw|].
      * destruct (bcrypt_compare pw (usersSchema.password u)) eqn:Hcmp.
        -- pose proof (sign_throws_iff (usersSchema._id u) (usersSchema.email u)
                         JWT_SECRET now_ms) as Hsign.
           destruct (jwt.sign (usersSchema._id u) (usersSchema.email u)
                       JWT_SECRET now_ms) as [token|err].
           ++ split.
              ** intros [err Herr]. discriminate.
              ** intros [Hdown|(u' & [= <-] & [Hnone|(pw' & [= <-] & _ & Hsecret)])];
                   try congruence.
                 apply Hsign in Hsecret as [err Herr]. discriminate.
           ++ split; [|eauto]. intros _. right. exists u. split; [reflexivity|].
              right. exists pw. repeat split; auto. apply Hsign. eauto.
        -- split.
           ++ intros [err Herr]. discriminate.
           ++ intros [Hdown|(u' & [= <-] & [Hnone|(pw' & [= <-] & Hyes & _)])];
                congruence.
      * split; [|eauto]. intros _. right. exists u. auto.
    + split.
      * intros [err Herr]. discriminate.
      * intros [Hdown|(u' & Hu' & _)]; congruence.
  - rewrite (login_down now_ms req db m later Hf). simpl.
    split; [|eauto]. intros _. left. apply round_trips_not_ok. eauto.
Qed.

Lemma login_unanswered_exactly_when_witness :
  exists err,
    outcome (@post_login Reference.platform Reference.clock
               (credentials "alice@example.com" None) Reference.db)
    = Throw err.
Proof.
  apply (@login_unanswered_exactly_when Reference.platform).
  right. exists Reference.alice. split; [reflexivity|]. left. reflexivity.
Defined.

(** Property X6.  A sign-up leaves its request unanswered exactly when the lookup
    fails, or no user has the email and the request has no password. *)
Theorem signup_unanswered_exactly_when `{Platform} (salt : string)
    (req : Credentials) (db : Db) :
  (exists err, outcome (post_signup salt req db) = Throw err)
  <-> round_trips_ok 1 db = false
      \/ (List.find (Users.has_email (cred_email req)) (users db) = None
          /\ cred_password req = None).
Proof.
  destruct (round_trip_dichotomy db) as [Hok|(m & later & Hf)].
  - rewrite (signup_run salt req db Hok).
    destruct (List.find (Users.has_email (cred_email req)) (users db)) as [u|].
    + simpl. split.
      * intros [err Herr]. discriminate.
      * intros [Hdown|[Hnone _]]; congruence.
    + destruct (cred_password req) as [pw|].
      * split.
        -- intros [err Herr]. exfalso. revert Herr. cbv zeta.
           destruct (negb (Js.truthy (cred_email req))); [discriminate|].
           destruct (negb (Js.truthy (bcrypt_hash salt pw))); [discriminate|].
           destruct (tl (faults db)) as [|[m|] later]; discriminate.
        -- intros [Hdown|[_ Hnone]]; congruence.
      * simpl. split; eauto.
  - rewrite (signup_down salt req db m later Hf). simpl.
    split; [|eauto]. intros _. left. apply round_trips_not_ok. eauto.
Qed.

Lemma signup_unanswered_exactly_when_witness :
  exists err,
    outcome (@post_signup Reference.platform "pepper"
               (credentials "bob@example.com" None) Reference.db)
    = Throw err.
Proof.
  apply (@signup_unanswered_exactly_when Reference.platform).
  right. split; reflexivity.
Defined.

(* ================================================================= *)
(** ** The store stays well formed *)

Lemma users_remove_first_incl {B : Type} (f : usersSchema.t -> B)
    (oid : ObjectId) (us : list usersSchema.t) (y : B) :
  In y (map f (Users.remove_first oid us)) -> In y (map f us).
Proof.
  induction us as [|u us IH]; simpl; [tauto|].
  destruct (Users.has_id oid u); simpl; tauto.
Qed.

Lemma users_remove_first_nodup {B : Type} (f : usersSchema.t -> B)
    (oid : ObjectId) (us : list usersSchema.t) :
  NoDup (map f us) -> NoDup (map f (Users.remove_first oid us)).
Proof.
  induction us as [|u us IH]; simpl; [auto|].
  intros Hnodup. inversion Hnodup as [|? ? Hnotin Hrest]; subst.
  destruct (Users.has_id oid u); simpl; [exact Hrest|].
  constructor; [|apply IH; exact Hrest].
  intros Hin. apply Hnotin. eapply users_remove_first_incl. exact Hin.
Qed.

Lemma remove_first_incl (oid : ObjectId) (rs : list restaurantSchema.t)
    (r : restaurantSchema.t) :
  In r (Restaurant.remove_first oid rs) -> In r rs.
Proof.
  induction rs as [|x rs IH]; simpl; [tauto|].
  destruct (Restaurant.has_id oid x); simpl; tauto.
Qed.

Lemma remove_first_ids_incl (oid : ObjectId) (rs : list restaurantSchema.t)
    (y : ObjectId) :
  In y (map restaurantSchema._id (Restaurant.remove_first oid rs)) ->
  In y (map restaurantSchema._id rs).
Proof.
  intros Hin. apply in_map_iff in Hin as (r & <- & Hin).
  apply in_map. eapply remove_first_incl. exact Hin.
Qed.

Lemma remove_first_nodup (oid : ObjectId) (rs : list restaurantSchema.t) :
  NoDup (map restaurantSchema._id rs) ->
  NoDup (map restaurantSchema._id (Restaurant.remove_first oid rs)).
Proof.
  induction rs as [|x rs IH]; simpl; [auto|].
  intros Hnodup. inversion Hnodup as [|? ? Hnotin Hrest]; subst.
  destruct (Restaurant.has_id oid x); simpl; [exact Hrest|].
  constructor; [|apply IH; exact Hrest].
  intros Hin. apply Hnotin. eapply remove_first_ids_incl. exact Hin.
Qed.

Lemma NoDup_snoc {A : Type} (l : list A) (x : A) :
  NoDup l -> ~ In x l -> NoDup (l ++ [x]).
Proof.
  intros Hnodup Hnotin. induction Hnodup as [|y l Hy Hl IH]; simpl.
  - constructor; [tauto|constructor].
  - constructor.
    + rewrite in_app_iff. simpl. intros [Hin|[->|[]]]; [tauto|].
      apply Hnotin. left. reflexivity.
    + apply IH. intros Hin. apply Hnotin. right. exact Hin.
Qed.

(** Well-formedness reads the collections and the next identifier
    only, and survives the identifier moving on. *)
Lemma well_formed_same (db db' : Db) :
  users db' = users db ->
  restaurants db' = restaurants db ->
  (next_oid db <= next_oid db')%N ->
  well_formed db -> well_formed db'.
Proof.
  unfold well_formed, user_emails, user_ids, restaurant_ids.
  intros -> -> Hle (He & Hu & Hr & Hub & Hrb).
  repeat split; auto; intros oid Hin.
  - specialize (Hub oid Hin). lia.
  - specialize (Hrb oid Hin). lia.
Qed.

Lemma well_formed_add_user (db : Db) (email password : string)
    (rest : list (option string)) :
  well_formed db ->
  ~ In email (user_emails db) ->
  well_formed
    (mkDb (users db ++ [usersSchema.mk (next_oid db) email password])
       (restaurants db) (N.succ (next_oid db)) rest).
Proof.
  unfold well_formed, user_emails, user_ids, restaurant_ids. simpl.
  intros (He & Hu & Hr & Hub & Hrb) Hfresh.
  rewrite !map_app. simpl. repeat split.
  - apply NoDup_snoc; assumption.
  - apply NoDup_snoc; [assumption|].
    intros Hin. specialize (Hub _ Hin). lia.
  - assumption.
  - intros oid Hin. apply in_app_iff in Hin as [Hin|[<-|[]]]; [|lia].
    specialize (Hub oid Hin). lia.
  - intros oid Hin. specialize (Hrb oid Hin). lia.
Qed.

Lemma well_formed_add_restaurant (db : Db) (paths : restaurantSchema.fields)
    (rest : list (option string)) :
  well_formed db ->
  well_formed
    (mkDb (users db)
       (restaurants db ++ [restaurantSchema.mk (next_oid db) paths])
       (N.succ (next_oid db)) rest).
Proof.
  unfold well_formed, user_emails, user_ids, restaurant_ids. simpl.
  intros (He & Hu & Hr & Hub & Hrb).
  rewrite !map_app. simpl. repeat split; auto.
  - apply NoDup_snoc; [assumption|].
    intros Hin. specialize (Hrb _ Hin). lia.
  - intros oid Hin. specialize (Hub oid Hin). lia.
  - intros oid Hin. apply in_app_iff in Hin as [Hin|[<-|[]]]; [|lia].
    specialize (Hrb oid Hin). lia.
Qed.

Lemma well_formed_remove_user (db : Db) (oid : ObjectId)
    (rest : list (option string)) :
  well_formed db ->
  well_formed
    (mkDb (Users.remove_first oid (users db)) (restaurants db) (next_oid db) rest).
Proof.
  unfold well_formed, user_emails, user_ids, restaurant_ids. simpl.
  intros (He & Hu & Hr & Hub & Hrb). repeat split; auto.
  - apply users_remove_first_nodup. exact He.
  - apply users_remove_first_nodup. exact Hu.
  - intros x Hin. apply Hub. eapply users_remove_first_incl. exact Hin.
Qed.

Lemma well_formed_remove_restaurant (db : Db) (oid : ObjectId)
    (rest : list (option string)) :
  well_formed db ->
  well_formed
    (mkDb (users db) (Restaurant.remove_first oid (restaurants db))
       (next_oid db) rest).
Proof.
  unfold well_formed, user_emails, user_ids, restaurant_ids. simpl.
  intros (He & Hu & Hr & Hub & Hrb). repeat split; auto.
  - apply remove_first_nodup. exact Hr.
  - intros x Hin. apply Hrb. eapply remove_first_ids_incl. exact Hin.
Qed.

Lemma well_formed_update_restaurant (db : Db) (oid : ObjectId)
    (update : restaurantSchema.fields) (rest : list (option string)) :
  well_formed db ->
  well_formed
    (mkDb (users db)
       (Restaurant.update_first oid (Restaurant.apply_update update)
          (restaurants db))
       (next_oid db) rest).
Proof.
  unfold well_formed, user_emails, user_ids, restaurant_ids. simpl.
  rewrite (update_first_ids oid _ (restaurants db) (apply_update_id update)).
  tauto.
Qed.

(** Property X7.  Sign-up is all or nothing on the users: when the answer is the 201
    the request had a password, no stored user had the email, and
    exactly one user was appended, with the next identifier, the
    request's email and the hash of the password; with any other answer,
    and with none, the users are as they were.  The restaurants are
    never touched, and an answer has status 201, 400 or 500. *)
Theorem signup_adds_a_user_only_with_201 `{Platform} (salt : string)
    (req : Credentials) (db : Db) :
  let run := post_signup salt req db in
  let created_answer := Ok (respond 201 (JMessage "User successfully registered")) in
  restaurants (store_after run) = restaurants db
  /\ ((outcome run = created_answer
       /\ exists pw,
            cred_password req = Some pw
            /\ ~ In (cred_email req) (user_emails db)
            /\ users (store_after run)
               = users db
                 ++ [usersSchema.mk (next_oid db) (cred_email req)
                       (bcrypt_hash salt pw)])
      \/ (outcome run <> created_answer
          /\ users (store_after run) = users db))
  /\ match outcome run with
     | Ok res => In (status res) [201; 400; 500]%Z
     | Throw _ => True
     end.
Proof.
  intros run created_answer. unfold run, created_answer.
  destruct (round_trip_dichotomy db) as [Hok|(m & later & Hf)].
  - rewrite (signup_run salt req db Hok).
    destruct (List.find (Users.has_email (cred_email req)) (users db)) as [u|] eqn:Hfind.
    { simpl. split; [reflexivity|]. split; [|auto].
      right. split; [discriminate|reflexivity]. }
    destruct (cred_password req) as [pw|].
    2:{ simpl. split; [reflexivity|]. split; [|auto].
        right. split; [discriminate|reflexivity]. }
    cbv zeta.
    destruct (negb (Js.truthy (cred_email req))).
    { simpl. split; [reflexivity|]. split; [|auto].
      right. split; [discriminate|reflexivity]. }
    destruct (negb (Js.truthy (bcrypt_hash salt pw))).
    { simpl. split; [reflexivity|]. split; [|auto].
      right. split; [discriminate|reflexivity]. }
    apply find_has_email_none in Hfind.
    destruct (tl (faults db)) as [|[m|] later]; simpl.
    + split; [reflexivity|]. split; [|auto]. left. split; [reflexivity|].
      exists pw. auto.
    + split; [reflexivity|]. split; [|auto].
      right. split; [discriminate|reflexivity].
    + split; [reflexivity|]. split; [|auto]. left. split; [reflexivity|].
      exists pw. auto.
  - rewrite (signup_down salt req db m later Hf). simpl.
    split; [reflexivity|]. split; [|exact I].
    right. split; [discriminate|reflexivity].
Qed.

Lemma signup_adds_a_user_only_with_201_witness :
  users (store_after (@post_signup Reference.platform "pepper"
                        (credentials "alice@example.com" (Some "rabbit"))
                        Reference.db))
  = users Reference.db.
Proof.
  destruct (@signup_adds_a_user_only_with_201 Reference.platform "pepper"
              (credentials "alice@example.com" (Some "rabbit")) Reference.db)
    as (_ & [[Hcreated _]|[_ Hsame]] & _).
  - discriminate Hcreated.
  - exact Hsame.
Defined.

(** Property X8.  The routes on users keep the store well formed: after a sign-up,
    a login, a self-delete or a logout, answered or not, no two users
    share an email or an identifier, and every identifier in use is
    older than the next one.  In particular a sequence of sign-ups never
    stores an email twice. *)
Theorem user_routes_keep_well_formed `{Platform} (now_ms : Z) (salt : string)
    (req : Credentials) (user : Claims.t) (db : Db) :
  well_formed db ->
  well_formed (store_after (post_signup salt req db))
  /\ well_formed (store_after (post_login now_ms req db))
  /\ well_formed (store_after (delete_me_handler user db))
  /\ well_formed (store_after (post_logout db)).
Proof.
  intros Hwf.
  assert (Hsettled : well_formed (settled db)).
  { apply (well_formed_same db); [reflexivity|reflexivity|simpl; lia|exact Hwf]. }
  assert (Hdrafted : forall rest,
            well_formed (mkDb (users db) (restaurants db)
                           (N.succ (next_oid db)) rest)).
  { intros rest.
    apply (well_formed_same db); [reflexivity|reflexivity|simpl; lia|exact Hwf]. }
  split; [|split; [|split]].
  - destruct (round_trip_dichotomy db) as [Hok|(m & later & Hf)].
    + rewrite (signup_run salt req db Hok).
      destruct (List.find (Users.has_email (cred_email req)) (users db))
        as [u|] eqn:Hfind; [exact Hsettled|].
      destruct (cred_password req) as [pw|]; [|exact Hsettled].
      cbv zeta.
      destruct (negb (Js.truthy (cred_email req))); [apply Hdrafted|].
      destruct (negb (Js.truthy (bcrypt_hash salt pw))); [apply Hdrafted|].
      apply find_has_email_none in Hfind.
      destruct (tl (faults db)) as [|[m|] later]; simpl.
      * apply well_formed_add_user; assumption.
      * apply Hdrafted.
      * apply well_formed_add_user; assumption.
    + rewrite (signup_down salt req db m later Hf). exact Hsettled.
  - destruct (round_trip_dichotomy db) as [Hok|(m & later & Hf)].
    + rewrite (login_run now_ms req db Hok). exact Hsettled.
    + rewrite (login_down now_ms req db m later Hf). exact Hsettled.
  - destruct (round_trip_dichotomy db) as [Hok|(m & later & Hf)].
    + rewrite (delete_me_handler_ok user db Hok).
      destruct (List.find (Users.has_id (Claims.userId user)) (users db));
        [|exact Hsettled].
      apply well_formed_remove_user. exact Hwf.
    + rewrite (delete_me_handler_down user db m later Hf). exact Hsettled.
  - exact Hwf.
Qed.

Lemma reference_store_well_formed : well_formed Reference.db.
Proof.
  unfold well_formed, user_emails, user_ids, restaurant_ids. simpl.
  repeat split.
  - repeat constructor; simpl; intuition discriminate.
  - repeat constructor; simpl; intuition discriminate.
  - repeat constructor; simpl; intuition discriminate.
  - intros oid [<-|[]]. reflexivity.
  - intros oid [<-|[<-|[<-|[]]]]; reflexivity.
Defined.

Lemma user_routes_keep_well_formed_witness :
  well_formed
    (store_after (@post_signup Reference.platform "pepper"
                    (credentials "bob@example.com" (Some "builder"))
                    Reference.db)).
Proof.
  destruct (@user_routes_keep_well_formed Reference.platform Reference.clock
              "pepper" (credentials "bob@example.com" (Some "builder"))
              Reference.alice_claims Reference.db reference_store_well_formed)
    as [Hsignup _].
  exact Hsignup.
Defined.

(** Property X9.  The routes on restaurants keep the store well formed: after a
    search, a creation, a listing, a read, an update or a delete,
    whatever the answer, no two restaurants share an identifier and
    every identifier in use is older than the next one. *)
Theorem restaurant_routes_keep_well_formed `{Platform} (q : Query.t)
    (id : string) (reqBody : restaurantSchema.fields) (db : Db) :
  well_formed db ->
  well_formed (store_after (search_handler q db))
  /\ well_formed (store_after (create_handler reqBody db))
  /\ well_formed (store_after (list_handler db))
  /\ well_formed (store_after (get_handler id db))
  /\ well_formed (store_after (put_handler id reqBody db))
  /\ well_formed (store_after (delete_handler id db)).
Proof.
  intros Hwf.
  assert (Hsettled : well_formed (settled db)).
  { apply (well_formed_same db); [reflexivity|reflexivity|simpl; lia|exact Hwf]. }
  assert (Hdrafted : forall rest,
            well_formed (mkDb (users db) (restaurants db)
                           (N.succ (next_oid db)) rest)).
  { intros rest.
    apply (well_formed_same db); [reflexivity|reflexivity|simpl; lia|exact Hwf]. }
  split; [|split; [|split; [|split; [|split]]]].
  - destruct (find_cases (build_query q) db) as [[rs Hfind]|[err Hfind]].
    + rewrite (search_handler_found _ _ _ _ Hfind). exact Hsettled.
    + rewrite (search_handler_thrown _ _ _ _ Hfind). exact Hsettled.
  - destruct (round_trip_dichotomy db) as [Hok|(m & later & Hf)].
    + destruct (in_dec N.eq_dec (next_oid db) (restaurant_ids db)) as [Hin|Hout].
      * rewrite (create_handler_taken _ _ Hok Hin). apply Hdrafted.
      * rewrite (create_handler_ok _ _ Hok Hout).
        apply well_formed_add_restaurant. exact Hwf.
    + rewrite (create_handler_down _ _ _ _ Hf). apply Hdrafted.
  - destruct (round_trip_dichotomy db) as [Hok|(m & later & Hf)].
    + rewrite (list_handler_ok _ Hok). exact Hsettled.
    + rewrite (list_handler_down _ _ _ Hf). exact Hsettled.
  - destruct (castObjectId id) as [oid|] eqn:Hcast.
    + destruct (round_trip_dichotomy db) as [Hok|(m & later & Hf)].
      * rewrite (get_handler_ok _ _ _ Hcast Hok). exact Hsettled.
      * rewrite (get_handler_down _ _ _ _ _ Hcast Hf). exact Hsettled.
    + rewrite (get_handler_malformed _ _ Hcast). exact Hwf.
  - destruct (castObjectId id) as [oid|] eqn:Hcast.
    + destruct (round_trip_dichotomy db) as [Hok|(m & later & Hf)].
      * rewrite (put_handler_ok _ _ _ _ Hcast Hok).
        destruct (List.find (Restaurant.has_id oid) (restaurants db));
          [|exact Hsettled].
        apply well_formed_update_restaurant. exact Hwf.
      * rewrite (put_handler_down _ _ _ _ _ _ Hcast Hf). exact Hsettled.
    + destruct (malformed_identifier id reqBody db Hcast) as [-> _]. exact Hwf.
  - destruct (castObjectId id) as [oid|] eqn:Hcast.
    + destruct (round_trip_dichotomy db) as [Hok|(m & later & Hf)].
      * rewrite (delete_handler_ok _ _ _ Hcast Hok).
        destruct (List.find (Restaurant.has_id oid) (restaurants db));
          [|exact Hsettled].
        apply well_formed_remove_restaurant. exact Hwf.
      * rewrite (delete_handler_down _ _ _ _ _ Hcast Hf). exact Hsettled.
    + destruct (malformed_identifier id reqBody db Hcast) as [_ ->]. exact Hwf.
Qed.

Lemma restaurant_routes_keep_well_formed_witness :
  well_formed
    (store_after (create_handler (Reference.named "Mario" "Italian")
                    Reference.db)).
Proof.
  destruct (@restaurant_routes_keep_well_formed Reference.platform
              (Query.mk None None) Reference.id_joe
              (Reference.named "Mario" "Italian") Reference.db
              reference_store_well_formed)
    as (_ & Hcreate & _).
  exact Hcreate.
Defined.

(* ================================================================= *)
(** ** Create, list and read *)

Lemma find_snoc_fresh {A : Type} (f : A -> bool) (l : list A) (x : A) :
  List.find f l = None -> f x = true -> List.find f (l ++ [x]) = Some x.
Proof.
  intros Hnone Hx. induction l as [|y l IH]; simpl in *.
  - rewrite Hx. reflexivity.
  - destruct (f y); [discriminate|]. apply IH. exact Hnone.
Qed.

Lemma remove_first_snoc_fresh (oid : ObjectId) (rs : list restaurantSchema.t)
    (r : restaurantSchema.t) :
  List.find (Restaurant.has_id oid) rs = None ->
  Restaurant.has_id oid r = true ->
  Restaurant.remove_first oid (rs ++ [r]) = rs.
Proof.
  intros Hnone Hr. induction rs as [|x rs IH]; simpl in *.
  - rewrite Hr. reflexivity.
  - destruct (Restaurant.has_id oid x); [discriminate|].
    rewrite (IH Hnone). reflexivity.
Qed.

Lemma next_oid_unused (db : Db) :
  well_formed db -> ~ In (next_oid db) (restaurant_ids db).
Proof.
  intros (_ & _ & _ & _ & Hrb) Hin. specialize (Hrb _ Hin). lia.
Qed.

(** Property X10.  [POST /restaurants] on a well-formed store.  When the store
    answers, the response is 201 with the new document: a fresh [_id],
    the body's paths, and [grades] empty if the body has none; the
    collection is the old one with that document appended.  When the
    round trip fails, the response is 400 (not 500) with the driver's
    message, and the collection is unchanged. *)
Theorem create_appends_or_answers_400 `{Platform}
    (reqBody : restaurantSchema.fields) (db : Db) :
  well_formed db ->
  let run := create_handler reqBody db in
  let doc := created reqBody db in
  (round_trips_ok 1 db = true ->
   outcome run = Ok (respond 201 (JRestaurant doc))
   /\ restaurants (store_after run) = restaurants db ++ [doc]
   /\ ~ In (restaurantSchema._id doc) (restaurant_ids db)
   /\ (restaurantSchema.grades reqBody = None ->
       restaurantSchema.grades (restaurantSchema.paths doc) = Some [])
   /\ restaurantSchema.name (restaurantSchema.paths doc)
      = restaurantSchema.name reqBody
   /\ restaurantSchema.cuisine (restaurantSchema.paths doc)
      = restaurantSchema.cuisine reqBody)
  /\ (forall m later,
        faults db = Some m :: later ->
        outcome run = Ok (respond 400 (JError m))
        /\ restaurants (store_after run) = restaurants db).
Proof.
  intros Hwf run doc. unfold run, doc. split.
  - intros Hok.
    rewrite (create_handler_ok reqBody db Hok (next_oid_unused db Hwf)).
    split; [reflexivity|]. split; [reflexivity|].
    split; [apply (next_oid_unused db Hwf)|].
    split; [|split; reflexivity].
    intros Hnone. unfold created. simpl. rewrite Hnone. reflexivity.
  - intros m later Hf. rewrite (create_handler_down reqBody db m later Hf).
    split; reflexivity.
Qed.

Lemma create_appends_or_answers_400_witness :
  outcome (create_handler (Reference.named "Mario" "Italian") Reference.db)
  = Ok (respond 201
          (JRestaurant (created (Reference.named "Mario" "Italian") Reference.db)))
  /\ outcome (create_handler (Reference.named "Mario" "Italian")
                Reference.db_down)
     = Ok (respond 400 (JError "connection refused")).
Proof.
  split.
  - destruct (@create_appends_or_answers_400 Reference.platform
                (Reference.named "Mario" "Italian") Reference.db
                reference_store_well_formed) as [Hup _].
    destruct (Hup eq_refl) as [Hresponse _]. exact Hresponse.
  - assert (Hwf : well_formed Reference.db_down)
      by exact reference_store_well_formed.
    destruct (@create_appends_or_answers_400 Reference.platform
                (Reference.named "Mario" "Italian") Reference.db_down Hwf)
      as [_ Hdown].
    destruct (Hdown "connection refused" [] eq_refl) as [Hresponse _].
    exact Hresponse.
Defined.

(** Property X11.  A created restaurant can be read back and deleted by its
    identifier: in a well-formed store, after a successful creation a
    GET with the new identifier answers 200 with the created document,
    and a DELETE with it answers 200 and leaves the collection exactly
    as it was before the creation. *)
Theorem create_then_read_then_delete `{Platform}
    (reqBody : restaurantSchema.fields) (id : string) (db : Db) :
  well_formed db ->
  round_trips_ok 2 db = true ->
  castObjectId id = Some (next_oid db) ->
  let db1 := store_after (create_handler reqBody db) in
  outcome (get_handler id db1)
  = Ok (respond 200 (JRestaurant (created reqBody db)))
  /\ outcome (delete_handler id db1)
     = Ok (respond 200 (JMessage "Restaurant deleted successfully"))
  /\ restaurants (store_after (delete_handler id db1)) = restaurants db.
Proof.
  intros Hwf Hok Hcast db1.
  pose proof (next_oid_unused db Hwf) as Hfresh.
  pose proof (round_trips_ok_le 1 db Hok) as Hok1.
  assert (Hdb1 : db1 = mkDb (users db) (restaurants db ++ [created reqBody db])
                         (N.succ (next_oid db)) (tl (faults db))).
  { unfold db1. rewrite (create_handler_ok reqBody db Hok1 Hfresh). reflexivity. }
  assert (Hok' : round_trips_ok 1 db1 = true).
  { destruct (round_trip_ok 1 db Hok) as [_ Hlater]. rewrite Hdb1. exact Hlater. }
  assert (Hfound : List.find (Restaurant.has_id (next_oid db)) (restaurants db1)
                   = Some (created reqBody db)).
  { rewrite Hdb1. simpl. apply find_snoc_fresh.
    - apply find_has_id_none. exact Hfresh.
    - unfold Restaurant.has_id, created. simpl. apply N.eqb_refl. }
  rewrite (get_handler_ok id _ db1 Hcast Hok'),
    (delete_handler_ok id _ db1 Hcast Hok'), Hfound.
  repeat split. simpl. rewrite Hdb1. simpl.
  apply remove_first_snoc_fresh.
  - apply find_has_id_none. exact Hfresh.
  - unfold Restaurant.has_id, created. simpl. apply N.eqb_refl.
Qed.

Lemma create_then_read_then_delete_witness :
  let db1 := store_after (create_handler (Reference.named "Mario" "Italian")
                            Reference.db) in
  outcome (@get_handler Reference.platform "00000000000000000000000d" db1)
  = Ok (respond 200
          (JRestaurant (restaurantSchema.mk 13%N
                          (Restaurant.with_defaults
                             (Reference.named "Mario" "Italian")))))
  /\ restaurants
       (store_after (@delete_handler Reference.platform
                       "00000000000000000000000d" db1))
     = restaurants Reference.db.
Proof.
  destruct (@create_then_read_then_delete Reference.platform
              (Reference.named "Mario" "Italian") "00000000000000000000000d"
              Reference.db reference_store_well_formed eq_refl eq_refl)
    as (Hread & _ & Hrestored).
  split; [exact Hread|exact Hrestored].
Defined.

(** Property X12.  The listing answers 200 with the whole collection in store order,
    also when the collection is empty, where the search without
    parameters answers 404; on a non-empty collection the two answer
    alike.  A failed round trip makes the listing answer 500 with the
    driver's message. *)
Theorem listing_answers_200_even_when_empty `{Platform} (db : Db) :
  (round_trips_ok 1 db = true ->
   outcome (list_handler db) = Ok (respond 200 (JRestaurants (restaurants db)))
   /\ (restaurants db = [] ->
       outcome (search_handler (Query.mk None None) db)
       = Ok (respond 404
               (JMessage "No restaurants found matching the search criteria")))
   /\ (restaurants db <> [] ->
       outcome (search_handler (Query.mk None None) db)
       = outcome (list_handler db)))
  /\ (forall m later,
        faults db = Some m :: later ->
        outcome (list_handler db) = Ok (respond 500 (JError m))).
Proof.
  split.
  - intros Hok. rewrite (list_handler_ok db Hok).
    rewrite (search_handler_found (Query.mk None None) db (settled db)
               (restaurants db)) by (apply find_unconstrained; exact Hok).
    simpl. split; [reflexivity|]. split.
    + intros ->. reflexivity.
    + intros Hne. destruct (restaurants db); [contradiction|reflexivity].
  - intros m later Hf. rewrite (list_handler_down db m later Hf). reflexivity.
Qed.

Lemma listing_answers_200_even_when_empty_witness :
  outcome (@list_handler Reference.platform (mkDb [] [] 0%N []))
  = Ok (respond 200 (JRestaurants []))
  /\ outcome (@search_handler Reference.platform (Query.mk None None)
                (mkDb [] [] 0%N []))
     = Ok (respond 404
             (JMessage "No restaurants found matching the search criteria")).
Proof.
  destruct (@listing_answers_200_even_when_empty Reference.platform
              (mkDb [] [] 0%N [])) as [Hup _].
  destruct (Hup eq_refl) as (Hlist & Hempty & _).
  split; [exact Hlist|apply Hempty; reflexivity].
Defined.

(** Property X13.  [GET /restaurants/:id] for an identifier that casts, the store
    answering: a 200 carries a stored document with that identifier as
    Mongoose loads it, that is with the same [_id] and paths, and with
    [grades] the empty array when the stored document has none; the
    answer is 404 exactly when no stored document has the identifier;
    with unique identifiers every stored document is returned, as
    loaded, under its own identifier; and the read changes no
    collection. *)
Theorem read_by_identifier `{Platform} (id : string) (oid : ObjectId) (db : Db) :
  castObjectId id = Some oid ->
  round_trips_ok 1 db = true ->
  (forall d : restaurantSchema.t,
      outcome (get_handler id db) = Ok (respond 200 (JRestaurant d)) ->
      exists r : restaurantSchema.t,
        In r (restaurants db)
        /\ restaurantSchema._id r = oid
        /\ restaurantSchema._id d = oid
        /\ restaurantSchema.address (restaurantSchema.paths d)
           = restaurantSchema.address (restaurantSchema.paths r)
        /\ restaurantSchema.borough (restaurantSchema.paths d)
           = restaurantSchema.borough (restaurantSchema.paths r)
        /\ restaurantSchema.cuisine (restaurantSchema.paths d)
           = restaurantSchema.cuisine (restaurantSchema.paths r)
        /\ restaurantSchema.name (restaurantSchema.paths d)
           = restaurantSchema.name (restaurantSchema.paths r)
        /\ restaurantSchema.restaurant_id (restaurantSchema.paths d)
           = restaurantSchema.restaurant_id (restaurantSchema.paths r)
        /\ (forall gs, restaurantSchema.grades (restaurantSchema.paths r) = Some gs ->
                       restaurantSchema.grades (restaurantSchema.paths d) = Some gs)
        /\ (restaurantSchema.grades (restaurantSchema.paths r) = None ->
            restaurantSchema.grades (restaurantSchema.paths d) = Some []))
  /\ (outcome (get_handler id db)
      = Ok (respond 404 (JError "Restaurant not found"))
      <-> ~ In oid (restaurant_ids db))
  /\ (NoDup (restaurant_ids db) ->
      forall r : restaurantSchema.t,
        In r (restaurants db) -> restaurantSchema._id r = oid ->
        outcome (get_handler id db)
        = Ok (respond 200 (JRestaurant (Restaurant.hydrate r))))
  /\ restaurants (store_after (get_handler id db)) = restaurants db
  /\ users (store_after (get_handler id db)) = users db.
Proof.
  intros Hcast Hok. rewrite (get_handler_ok id oid db Hcast Hok). simpl.
  split; [|split; [|split; [|split; reflexivity]]].
  - intros d.
    destruct (List.find (Restaurant.has_id oid) (restaurants db)) as [r'|] eqn:Hfind;
      [|discriminate].
    intros [= <-]. apply find_has_id_some in Hfind as [Hin Hid].
    exists r'. split; [exact Hin|]. split; [exact Hid|]. split; [exact Hid|].
    unfold Restaurant.hydrate, Restaurant.with_defaults. simpl.
    repeat split; try reflexivity; intros; subst;
      match goal with Hg : restaurantSchema.grades _ = _ |- _ => rewrite Hg end;
      reflexivity.
  - unfold restaurant_ids. rewrite <- find_has_id_none.
    destruct (List.find (Restaurant.has_id oid) (restaurants db)); split;
      congruence.
  - intros Hnodup r Hin Hid. unfold restaurant_ids in Hnodup.
    destruct (List.find (Restaurant.has_id oid) (restaurants db)) as [r'|] eqn:Hfind.
    + apply find_has_id_some in Hfind as [Hin' Hid'].
      replace r' with r; [reflexivity|].
      clear - Hnodup Hin Hin' Hid Hid'.
      induction (restaurants db) as [|x rs IH]; simpl in *; [contradiction|].
      inversion Hnodup as [|? ? Hnotin Hrest]; subst.
      destruct Hin as [->|Hin], Hin' as [->|Hin']; auto.
      * exfalso. apply Hnotin. rewrite <- Hid'. apply in_map. exact Hin'.
      * exfalso. apply Hnotin. rewrite Hid'. apply in_map. exact Hin.
    + exfalso. apply find_has_id_none in Hfind. apply Hfind.
      rewrite <- Hid. apply in_map. exact Hin.
Qed.

Lemma read_by_identifier_witness :
  outcome (@get_handler Reference.platform Reference.id_joe Reference.db)
  = Ok (respond 200
          (JRestaurant
             (restaurantSchema.mk 11%N
                (restaurantSchema.mk_fields None None (Some "American")
                   (Some []) (Some "Joe") None))))
  /\ outcome (@get_handler Reference.platform Reference.id_nobody Reference.db)
     = Ok (respond 404 (JError "Restaurant not found")).
Proof.
  split.
  - destruct (@read_by_identifier Reference.platform Reference.id_joe 11%N
                Reference.db eq_refl eq_refl) as (_ & _ & Hall & _).
    apply (Hall (proj1 (proj2 (proj2 reference_store_well_formed)))
             Reference.joe).
    + right. left. reflexivity.
    + reflexivity.
  - destruct (@read_by_identifier Reference.platform Reference.id_nobody 255%N
                Reference.db eq_refl eq_refl) as (_ & Hmissing & _).
    apply Hmissing. simpl. intuition discriminate.
Defined.

(* ================================================================= *)
(** ** Update and delete, composed *)

Lemma set_path_idempotent {A : Type} (supplied stored : option A) :
  Restaurant.set_path supplied (Restaurant.set_path supplied stored)
  = Restaurant.set_path supplied stored.
Proof. destruct supplied; reflexivity. Qed.

Lemma apply_update_idempotent (update : restaurantSchema.fields)
    (doc : restaurantSchema.t) :
  Restaurant.apply_update update (Restaurant.apply_update update doc)
  = Restaurant.apply_update update doc.
Proof.
  unfold Restaurant.apply_update. simpl.
  rewrite !set_path_idempotent. reflexivity.
Qed.

Lemma update_first_idempotent (oid : ObjectId)
    (f : restaurantSchema.t -> restaurantSchema.t)
    (rs : list restaurantSchema.t) :
  (forall r, restaurantSchema._id (f r) = restaurantSchema._id r) ->
  (forall r, f (f r) = f r) ->
  Restaurant.update_first oid f (Restaurant.update_first oid f rs)
  = Restaurant.update_first oid f rs.
Proof.
  intros Hid Hidem. induction rs as [|r rs IH]; simpl; [reflexivity|].
  destruct (Restaurant.has_id oid r) eqn:Hr; simpl.
  - unfold Restaurant.has_id in *. rewrite Hid, Hr, Hidem. reflexivity.
  - rewrite Hr, IH. reflexivity.
Qed.

Lemma update_first_length (oid : ObjectId)
    (f : restaurantSchema.t -> restaurantSchema.t)
    (rs : list restaurantSchema.t) :
  length (Restaurant.update_first oid f rs) = length rs.
Proof.
  induction rs as [|r rs IH]; simpl; [reflexivity|].
  destruct (Restaurant.has_id oid r); simpl; [|rewrite IH]; reflexivity.
Qed.

Lemma remove_first_length (oid : ObjectId) (rs : list restaurantSchema.t)
    (doc : restaurantSchema.t) :
  List.find (Restaurant.has_id oid) rs = Some doc ->
  S (length (Restaurant.remove_first oid rs)) = length rs.
Proof.
  induction rs as [|r rs IH]; simpl; [discriminate|].
  destruct (Restaurant.has_id oid r); [reflexivity|].
  intros Hfind. simpl. rewrite (IH Hfind). reflexivity.
Qed.

Lemma remove_first_others (oid : ObjectId) (rs : list restaurantSchema.t)
    (r : restaurantSchema.t) :
  Restaurant.has_id oid r = false ->
  In r rs -> In r (Restaurant.remove_first oid rs).
Proof.
  intros Hr. induction rs as [|x rs IH]; simpl; [tauto|].
  intros [->|Hin].
  - rewrite Hr. left. reflexivity.
  - destruct (Restaurant.has_id oid x); [exact Hin|]. right. auto.
Qed.

(** Property X14.  PUT is idempotent for a body without [grades]
    (whose elements would get new identifiers at every cast): sending
    the same update to the same identifier a second time gets the same
    answer as the first time and leaves the collection as the first left
    it; an update changes neither the number of documents nor their
    identifiers. *)
Theorem put_twice_is_put_once `{Platform} (id : string) (oid : ObjectId)
    (reqBody : restaurantSchema.fields) (db : Db) :
  castObjectId id = Some oid ->
  round_trips_ok 2 db = true ->
  restaurantSchema.grades reqBody = None ->
  let db1 := store_after (put_handler id reqBody db) in
  let db2 := store_after (put_handler id reqBody db1) in
  outcome (put_handler id reqBody db1) = outcome (put_handler id reqBody db)
  /\ restaurants db2 = restaurants db1
  /\ length (restaurants db1) = length (restaurants db)
  /\ restaurant_ids db1 = restaurant_ids db.
Proof.
  intros Hcast Hok _ db1 db2.
  pose proof (round_trips_ok_le 1 db Hok) as Hok1.
  destruct (round_trip_ok 1 db Hok) as [_ Hlater].
  pose proof (put_handler_ok id oid reqBody db Hcast Hok1) as Hrun.
  destruct (List.find (Restaurant.has_id oid) (restaurants db)) as [doc|] eqn:Hfind.
  - assert (Hdb1 : db1 = mkDb (users db)
                     (Restaurant.update_first oid (Restaurant.apply_update reqBody)
                        (restaurants db))
                     (next_oid db) (tl (faults db))).
    { unfold db1. rewrite Hrun. reflexivity. }
    assert (Hok' : round_trips_ok 1 db1 = true) by (rewrite Hdb1; exact Hlater).
    pose proof (put_handler_ok id oid reqBody db1 Hcast Hok') as Hrun1.
    assert (Hfind1 : List.find (Restaurant.has_id oid) (restaurants db1)
                     = Some (Restaurant.apply_update reqBody doc)).
    { rewrite Hdb1. simpl.
      apply find_update_first; [apply apply_update_id|exact Hfind]. }
    rewrite Hfind1 in Hrun1. unfold db2. rewrite Hrun1, Hrun. simpl.
    rewrite apply_update_idempotent. split; [reflexivity|].
    rewrite Hdb1. simpl. unfold restaurant_ids. simpl.
    rewrite update_first_idempotent, update_first_length, update_first_ids;
      auto using apply_update_id, apply_update_idempotent.
  - assert (Hdb1 : db1 = settled db) by (unfold db1; rewrite Hrun; reflexivity).
    assert (Hok' : round_trips_ok 1 db1 = true) by (rewrite Hdb1; exact Hlater).
    pose proof (put_handler_ok id oid reqBody db1 Hcast Hok') as Hrun1.
    assert (Hfind1 : List.find (Restaurant.has_id oid) (restaurants db1) = None)
      by (rewrite Hdb1; exact Hfind).
    rewrite Hfind1 in Hrun1. unfold db2. rewrite Hrun1, Hrun, Hdb1.
    repeat split.
Qed.

Lemma put_twice_is_put_once_witness :
  let reqBody := Reference.named "Joseph" "Diner" in
  let db1 := store_after (@put_handler Reference.platform Reference.id_joe
                            reqBody Reference.db) in
  outcome (@put_handler Reference.platform Reference.id_joe reqBody db1)
  = outcome (@put_handler Reference.platform Reference.id_joe reqBody
               Reference.db).
Proof.
  destruct (@put_twice_is_put_once Reference.platform Reference.id_joe 11%N
              (Reference.named "Joseph" "Diner") Reference.db eq_refl eq_refl
              eq_refl)
    as [Hsame _].
  exact Hsame.
Defined.

(** Property X15.  A successful DELETE removes exactly one restaurant: the collection
    is one document shorter, nothing is added, every document with
    another identifier is still there, and the users are untouched.  A
    DELETE answered 404 or 500 removes nothing. *)
Theorem delete_removes_exactly_one `{Platform} (id : string) (db : Db) :
  let run := delete_handler id db in
  users (store_after run) = users db
  /\ (forall r, In r (restaurants (store_after run)) -> In r (restaurants db))
  /\ (outcome run
      = Ok (respond 200 (JMessage "Restaurant deleted successfully")) ->
      exists oid,
        castObjectId id = Some oid
        /\ S (length (restaurants (store_after run))) = length (restaurants db)
        /\ forall r, Restaurant.has_id oid r = false ->
                     In r (restaurants db) ->
                     In r (restaurants (store_after run)))
  /\ (outcome run
      <> Ok (respond 200 (JMessage "Restaurant deleted successfully")) ->
      restaurants (store_after run) = restaurants db).
Proof.
  intros run. unfold run.
  destruct (castObjectId id) as [oid|] eqn:Hcast.
  - destruct (round_trip_dichotomy db) as [Hok|(m & later & Hf)].
    + rewrite (delete_handler_ok id oid db Hcast Hok).
      destruct (List.find (Restaurant.has_id oid) (restaurants db)) as [doc|] eqn:Hfind;
        simpl.
      * split; [reflexivity|]. split; [apply remove_first_incl|]. split.
        -- intros _. exists oid. split; [reflexivity|]. split.
           ++ apply (remove_first_length oid _ doc Hfind).
           ++ apply remove_first_others.
        -- intros Hne. contradiction Hne. reflexivity.
      * split; [reflexivity|]. split; [auto|]. split; [discriminate|reflexivity].
    + rewrite (delete_handler_down id oid db m later Hcast Hf). simpl.
      split; [reflexivity|]. split; [auto|]. split; [discriminate|reflexivity].
  - destruct (malformed_identifier id
                (restaurantSchema.mk_fields None None None None None None)
                db Hcast) as [_ ->].
    simpl. split; [reflexivity|]. split; [auto|].
    split; [discriminate|reflexivity].
Qed.

Lemma delete_removes_exactly_one_witness :
  exists oid,
    @castObjectId Reference.platform Reference.id_joe = Some oid
    /\ S (length (restaurants
                    (store_after (@delete_handler Reference.platform
                                    Reference.id_joe Reference.db))))
       = length (restaurants Reference.db)
    /\ forall r, Restaurant.has_id oid r = false ->
                 In r (restaurants Reference.db) ->
                 In r (restaurants
                         (store_after (@delete_handler Reference.platform
                                         Reference.id_joe Reference.db))).
Proof.
  destruct (@delete_removes_exactly_one Reference.platform Reference.id_joe
              Reference.db) as (_ & _ & Hdeleted & _).
  apply Hdeleted. reflexivity.
Defined.

(* ================================================================= *)
(** ** Self-delete *)

Lemma find_has_id_user (us : list usersSchema.t) (u : usersSchema.t) :
  NoDup (map usersSchema._id us) -> In u us ->
  List.find (Users.has_id (usersSchema._id u)) us = Some u.
Proof.
  induction us as [|x us IH]; simpl; [tauto|].
  intros Hnodup Hin. inversion Hnodup as [|? ? Hnotin Hrest]; subst.
  unfold Users.has_id at 1.
  destruct (N.eqb_spec (usersSchema._id x) (usersSchema._id u)) as [Heq|Hne].
  - destruct Hin as [->|Hin]; [reflexivity|].
    exfalso. apply Hnotin. rewrite Heq. apply in_map. exact Hin.
  - destruct Hin as [->|Hin]; [congruence|]. apply IH; assumption.
Qed.

(** With unique identifiers and emails, removing a stored user by its
    identifier leaves no user with its identifier or its email. *)
Lemma removed_user_gone (us : list usersSchema.t) (u : usersSchema.t) :
  NoDup (map usersSchema._id us) ->
  NoDup (map usersSchema.email us) ->
  In u us ->
  ~ In (usersSchema._id u)
      (map usersSchema._id (Users.remove_first (usersSchema._id u) us))
  /\ ~ In (usersSchema.email u)
         (map usersSchema.email (Users.remove_first (usersSchema._id u) us)).
Proof.
  induction us as [|x us IH]; simpl; [tauto|].
  intros Hids Hemails Hin.
  inversion Hids as [|? ? Hidx Hids']; subst.
  inversion Hemails as [|? ? Hemx Hemails']; subst.
  unfold Users.has_id at 1. unfold Users.has_id at 1.
  destruct (N.eqb_spec (usersSchema._id x) (usersSchema._id u)) as [Heq|Hne].
  - assert (Hux : u = x).
    { destruct Hin as [Hx|Hin]; [auto|].
      exfalso. apply Hidx. rewrite Heq. apply in_map. exact Hin. }
    subst u. auto.
  - destruct Hin as [->|Hin]; [congruence|].
    destruct (IH Hids' Hemails' Hin) as [Hid Hem]. simpl. split.
    + intros [Heq|Hin']; [congruence|auto].
    + intros [Heq|Hin']; [|auto].
      apply Hemx. rewrite Heq. apply in_map. exact Hin.
Qed.

(** Property X16.  [DELETE /users/me] in a well-formed store, for claims that name a
    stored user: the answer is 200, exactly that user is removed and the
    restaurants are untouched; afterwards no user has the email, a login
    with it is answered 401 whatever the password, and the same claims
    sent again are answered 404 "User not found". *)
Theorem self_delete_then_gone `{Platform} (now_ms : Z) (user : Claims.t)
    (u : usersSchema.t) (password : option string) (db : Db) :
  well_formed db ->
  In u (users db) ->
  Claims.userId user = usersSchema._id u ->
  round_trips_ok 2 db = true ->
  let db1 := store_after (delete_me_handler user db) in
  outcome (delete_me_handler user db)
  = Ok (respond 200 (JMessage "User deleted successfully"))
  /\ users db1 = Users.remove_first (usersSchema._id u) (users db)
  /\ S (length (users db1)) = length (users db)
  /\ restaurants db1 = restaurants db
  /\ ~ In (usersSchema.email u) (user_emails db1)
  /\ outcome (post_login now_ms (credentials (usersSchema.email u) password) db1)
     = Ok (respond 401 (JError "Invalid email or password"))
  /\ outcome (delete_me_handler user db1)
     = Ok (respond 404 (JError "User not found")).
Proof.
  intros (Hemails & Hids & _) Hin Huser Hok db1.
  pose proof (round_trips_ok_le 1 db Hok) as Hok1.
  destruct (round_trip_ok 1 db Hok) as [_ Hlater].
  pose proof (find_has_id_user _ _ Hids Hin) as Hfind.
  destruct (removed_user_gone _ _ Hids Hemails Hin) as [Hnoid Hnoemail].
  pose proof (delete_me_handler_ok user db Hok1) as Hrun.
  rewrite Huser, Hfind in Hrun.
  assert (Hdb1 : db1 = mkDb (Users.remove_first (usersSchema._id u) (users db))
                         (restaurants db) (next_oid db) (tl (faults db))).
  { unfold db1. rewrite Hrun. reflexivity. }
  assert (Hok' : round_trips_ok 1 db1 = true) by (rewrite Hdb1; exact Hlater).
  split; [rewrite Hrun; reflexivity|].
  split; [rewrite Hdb1; reflexivity|].
  split.
  { rewrite Hdb1. simpl. clear - Hfind.
    induction (users db) as [|x us IH]; simpl in *; [discriminate|].
    destruct (Users.has_id (usersSchema._id u) x); [reflexivity|].
    simpl. rewrite (IH Hfind). reflexivity. }
  split; [rewrite Hdb1; reflexivity|].
  split; [rewrite Hdb1; exact Hnoemail|].
  split.
  - rewrite (login_run now_ms _ db1 Hok'). simpl.
    apply find_has_email_none in Hnoemail. rewrite Hdb1. simpl.
    rewrite Hnoemail. reflexivity.
  - rewrite (delete_me_handler_ok user db1 Hok'), Huser, Hdb1. simpl.
    destruct (List.find (Users.has_id (usersSchema._id u))
                (Users.remove_first (usersSchema._id u) (users db)))
      as [v|] eqn:Hv; [|reflexivity].
    exfalso. apply Hnoid. apply find_some in Hv as [Hvin Hvid].
    unfold Users.has_id in Hvid. apply N.eqb_eq in Hvid.
    apply in_map_iff. exists v. auto.
Qed.

Lemma self_delete_then_gone_witness :
  let db1 := store_after (delete_me_handler Reference.alice_claims Reference.db) in
  outcome (delete_me_handler Reference.alice_claims Reference.db)
  = Ok (respond 200 (JMessage "User deleted successfully"))
  /\ outcome (@post_login Reference.platform Reference.clock
                (credentials "alice@example.com" (Some "wonderland")) db1)
     = Ok (respond 401 (JError "Invalid email or password")).
Proof.
  destruct (@self_delete_then_gone Reference.platform Reference.clock
              Reference.alice_claims Reference.alice (Some "wonderland")
              Reference.db reference_store_well_formed
              (or_introl eq_refl) eq_refl eq_refl)
    as (Hdeleted & _ & _ & _ & _ & Hlogin & _).
  split; [exact Hdeleted|exact Hlogin].
Defined.

(* ================================================================= *)
(** ** Search, composed *)

Section SearchComposed.
Context `{Platform}.

Lemma condition_injective (pattern : option string)
    (a b : option (string -> bool)) :
  Restaurant.condition pattern = Ok a ->
  Restaurant.condition pattern = Ok b -> a = b.
Proof. intros Ha Hb. rewrite Ha in Hb. injection Hb as <-. reflexivity. Qed.

End SearchComposed.

(** Property X17.  Searching by name and cuisine together returns exactly the
    restaurants that the search by that name alone and the search by
    that cuisine alone both return, and every search returns stored
    restaurants only. *)
Theorem search_by_both_is_intersection `{Platform} (name cuisine : option string)
    (db db1 db2 db3 : Db) (both by_name by_cuisine : list restaurantSchema.t) :
  Restaurant.find (build_query (Query.mk name cuisine)) db = (Ok both, db1) ->
  Restaurant.find (build_query (Query.mk name None)) db = (Ok by_name, db2) ->
  Restaurant.find (build_query (Query.mk None cuisine)) db = (Ok by_cuisine, db3) ->
  forall r : restaurantSchema.t,
    (In r both <-> In r by_name /\ In r by_cuisine)
    /\ (In r by_name -> In r (restaurants db))
    /\ (In r by_cuisine -> In r (restaurants db)).
Proof.
  intros Hboth Hname Hcuisine r.
  apply find_inv in Hboth as (bn & bc & Hbn & Hbc & ->).
  apply find_inv in Hname as (nn & nc & Hnn & Hnc & ->).
  apply find_inv in Hcuisine as (cn & cc & Hcn & Hcc & ->).
  simpl in *.
  rewrite (condition_injective _ _ _ Hnn Hbn) in *.
  rewrite (condition_injective _ _ _ Hcc Hbc) in *.
  injection Hnc as <-. injection Hcn as <-.
  rewrite !filter_In, !andb_true_iff. simpl. tauto.
Qed.

Lemma search_by_both_is_intersection_witness :
  In Reference.luigi [Reference.luigi]
  <-> In Reference.luigi [Reference.luigi; Reference.joe]
      /\ In Reference.luigi [Reference.luigi].
Proof.
  apply (@search_by_both_is_intersection Reference.platform
           (Some ".") (Some "ital") Reference.db
           (settled Reference.db) (settled Reference.db) (settled Reference.db)
           [Reference.luigi] [Reference.luigi; Reference.joe] [Reference.luigi]);
    reflexivity.
Defined.

(** Property X18.  A search with a non-empty parameter that is not a valid regular
    expression is answered 500, whatever the collection holds (an empty
    one included), and changes nothing. *)
Theorem search_invalid_pattern_is_500 `{Platform} (q : Query.t) (p : string)
    (db : Db) :
  Query.name q = Some p \/ Query.cuisine q = Some p ->
  Js.truthy p = true ->
  regex_i p = None ->
  status_in [500]%Z (search_handler q db)
  /\ restaurants (store_after (search_handler q db)) = restaurants db
  /\ users (store_after (search_handler q db)) = users db.
Proof.
  intros Hparam Htruthy Hinvalid.
  assert (Hthrown : exists err,
             Restaurant.find (build_query q) db = (Throw err, settled db)).
  { destruct (round_trip_dichotomy db) as [Hok|(m & later & Hf)].
    - apply (find_invalid 0 _ _ Hok). unfold build_query. simpl.
      destruct Hparam as [Hp|Hp]; rewrite Hp; simpl; rewrite Htruthy;
        [left|right]; unfold Restaurant.condition; rewrite Hinvalid; eauto.
    - rewrite (find_down _ _ _ _ Hf). eauto. }
  destruct Hthrown as [err Hfind].
  unfold status_in. rewrite (search_handler_thrown _ _ _ _ Hfind). simpl. auto.
Qed.

Lemma search_invalid_pattern_is_500_witness :
  status_in [500]%Z
    (@search_handler Reference.platform (Query.mk (Some "(") None)
       (mkDb [] [] 0%N [])).
Proof.
  destruct (@search_invalid_pattern_is_500 Reference.platform
              (Query.mk (Some "(") None) "(" (mkDb [] [] 0%N [])
              (or_introl eq_refl) eq_refl eq_refl) as [Hstatus _].
  exact Hstatus.
Defined.

(* ================================================================= *)
(** ** From login to the protected routes *)

Lemma first_field_spaceless (s : string) :
  spaceless s = true -> first_field s = s.
Proof.
  unfold spaceless, first_field. intros Hs. apply negb_true_iff in Hs.
  rewrite (split_without_sep _ _ Hs). reflexivity.
Qed.

Section Bearer.
Context `{Platform}.

(** The middleware on [Bearer <token>] for a token issued by
    [jwt.sign], within the hour. *)
Lemma bearer_accepted (userId : ObjectId) (email key : string)
    (now_ms later_ms : Z) :
  let claims := issued_claims userId email now_ms in
  let token := jws_sign claims key in
  JWT_SECRET = Some key ->
  Js.truthy key = true ->
  length (Js.split "."%char token) = 3%nat ->
  jws_decode token = Some claims ->
  jws_verify token key = true ->
  spaceless token = true ->
  (jwt.timestamp later_ms < jwt.timestamp now_ms + 3600)%Z ->
  authenticateToken later_ms (bearer token) = Next claims.
Proof.
  intros claims token Hsecret Hkey Hparts Hdecode Hsig Hspace Hlater.
  assert (Htoken : header_token (bearer token) = Some token).
  { unfold bearer.
    change ("Bearer " ++ token)%string
      with ("Bearer" ++ String " "%char token)%string.
    rewrite (header_token_second_field "Bearer" token eq_refl).
    rewrite (first_field_spaceless _ Hspace). reflexivity. }
  rewrite (authenticateToken_token _ _ _ Htoken (three_parts_truthy _ Hparts)).
  rewrite Hsecret, (verify_signed token key claims later_ms Hkey Hparts Hdecode Hsig).
  simpl. change jwt.expiresIn_1h with 3600%Z.
  destruct (Z.leb_spec (jwt.timestamp now_ms + 3600) (jwt.timestamp later_ms));
    [lia|reflexivity].
Qed.

End Bearer.

(** Property X19.  The token a login returns opens the protected routes for the next
    hour: sent as [Bearer <token>], it makes the middleware run any
    handler on the claims of the user who logged in, on whatever store;
    a logout in between changes nothing, since it touches neither the
    store nor the token; and the self-delete route acts on that user's
    identifier.  (The hypotheses on the token are jws's contract, and
    that a token has no space.) *)
Theorem login_token_opens_protected_routes `{Platform} (now_ms later_ms : Z)
    (req : Credentials) (db db' : Db) (u : usersSchema.t) (pw key : string)
    (handler : Claims.t -> M Response) :
  let claims := issued_claims (usersSchema._id u) (usersSchema.email u) now_ms in
  let token := jws_sign claims key in
  round_trips_ok 1 db = true ->
  List.find (Users.has_email (cred_email req)) (users db) = Some u ->
  cred_password req = Some pw ->
  bcrypt_compare pw (usersSchema.password u) = true ->
  JWT_SECRET = Some key ->
  Js.truthy key = true ->
  length (Js.split "."%char token) = 3%nat ->
  jws_decode token = Some claims ->
  jws_verify token key = true ->
  spaceless token = true ->
  (jwt.timestamp later_ms < jwt.timestamp now_ms + 3600)%Z ->
  outcome (post_login now_ms req db) = Ok (respond 200 (JToken token))
  /\ protected later_ms (bearer token) handler db' = handler claims db'
  /\ outcome (post_logout db')
     = Ok (respond 200 (JMessage "User logged out successfully"))
  /\ protected later_ms (bearer token) handler (store_after (post_logout db'))
     = handler claims db'
  /\ delete_users_me later_ms (bearer token) db'
     = delete_me_handler claims db'
  /\ Claims.userId claims = usersSchema._id u.
Proof.
  intros claims token Hok Hfind Hpw Hcmp Hsecret Hkey Hparts Hdecode Hsig
    Hspace Hlater.
  pose proof (bearer_accepted (usersSchema._id u) (usersSchema.email u) key
                now_ms later_ms Hsecret Hkey Hparts Hdecode Hsig Hspace Hlater)
    as Hauth.
  fold claims token in Hauth.
  split.
  - rewrite (login_run now_ms req db Hok), Hfind, Hpw, Hcmp, Hsecret.
    rewrite (sign_with_secret _ _ _ _ Hkey). reflexivity.
  - unfold delete_users_me, protected. rewrite Hauth. repeat split.
Qed.

Lemma login_token_opens_protected_routes_witness :
  outcome (@post_login Reference.platform Reference.clock
             (credentials "alice@example.com" (Some "wonderland"))
             Reference.db)
  = Ok (respond 200 (JToken Reference.alice_token))
  /\ @get_restaurants_all Reference.platform (Reference.clock + 1800000)%Z
       (bearer Reference.alice_token) Reference.db
     = @list_handler Reference.platform Reference.db.
Proof.
  destruct (@login_token_opens_protected_routes Reference.platform
              Reference.clock (Reference.clock + 1800000)%Z
              (credentials "alice@example.com" (Some "wonderland"))
              Reference.db Reference.db Reference.alice "wonderland"
              "top-secret" (fun _ => @list_handler Reference.platform)
              eq_refl eq_refl eq_refl eq_refl eq_refl eq_refl eq_refl eq_refl
              eq_refl eq_refl eq_refl)
    as (Hlogin & Hopen & _).
  split; [exact Hlogin|exact Hopen].
Defined.

(** Property X20.  From sign-up to self-delete.  In a well-formed store that answers,
    for a new, non-empty email: the sign-up is answered 201; the login
    with the same password 200 with a token; the listing with that
    token 200 with the restaurants; the listing without a header 403;
    the self-delete with the token 200; and a login after it 401, the
    users being again those before the sign-up.  (bcrypt accepts the
    password for the hash it made of it; the token obeys jws's
    contract.) *)
Theorem signup_login_list_self_delete `{Platform} (salt email pw key : string)
    (now_ms later_ms : Z) (db : Db) :
  let req := credentials email (Some pw) in
  let claims := issued_claims (next_oid db) email now_ms in
  let token := jws_sign claims key in
  well_formed db ->
  round_trips_ok 6 db = true ->
  ~ In email (user_emails db) ->
  Js.truthy email = true ->
  Js.truthy (bcrypt_hash salt pw) = true ->
  bcrypt_compare pw (bcrypt_hash salt pw) = true ->
  JWT_SECRET = Some key ->
  Js.truthy key = true ->
  length (Js.split "."%char token) = 3%nat ->
  jws_decode token = Some claims ->
  jws_verify token key = true ->
  spaceless token = true ->
  (jwt.timestamp later_ms < jwt.timestamp now_ms + 3600)%Z ->
  let db1 := store_after (post_signup salt req db) in
  let db2 := store_after (post_login now_ms req db1) in
  let db3 := store_after (get_restaurants_all later_ms (bearer token) db2) in
  let db4 := store_after (get_restaurants_all later_ms None db3) in
  let db5 := store_after (delete_users_me later_ms (bearer token) db4) in
  outcome (post_signup salt req db)
  = Ok (respond 201 (JMessage "User successfully registered"))
  /\ outcome (post_login now_ms req db1) = Ok (respond 200 (JToken token))
  /\ outcome (get_restaurants_all later_ms (bearer token) db2)
     = Ok (respond 200 (JRestaurants (restaurants db)))
  /\ outcome (get_restaurants_all later_ms None db3)
     = Ok (respond 403 (JError "Token is required"))
  /\ outcome (delete_users_me later_ms (bearer token) db4)
     = Ok (respond 200 (JMessage "User deleted successfully"))
  /\ outcome (post_login later_ms req db5)
     = Ok (respond 401 (JError "Invalid email or password"))
  /\ users db5 = users db
  /\ restaurants db5 = restaurants db.
Proof.
  intros req claims token Hwf Hok Hfresh Hemail Hhash Hcmp Hsecret Hkey
    Hparts Hdecode Hsig Hspace Hlater db1 db2 db3 db4 db5.
  set (newUser := usersSchema.mk (next_oid db) email (bcrypt_hash salt pw)).
  pose proof (bearer_accepted (next_oid db) email key now_ms later_ms
                Hsecret Hkey Hparts Hdecode Hsig Hspace Hlater) as Hauth.
  fold claims token in Hauth.
  assert (Hnone : List.find (Users.has_email email) (users db) = None)
    by (apply find_has_email_none; exact Hfresh).
  (* the schedule, one round trip after the other *)
  destruct (round_trip_ok 5 db Hok) as [_ Hf1].
  destruct (round_trip_ok 4 _ Hf1) as [_ Hf2].
  destruct (round_trip_ok 3 _ Hf2) as [_ Hf3].
  destruct (round_trip_ok 2 _ Hf3) as [_ Hf4].
  destruct (round_trip_ok 1 _ Hf4) as [_ Hf5].
  (* sign-up *)
  assert (Hok2 : round_trips_ok 2 db = true).
  { do 4 apply round_trips_ok_le in Hok. exact Hok. }
  pose proof (signup_fresh salt req db pw Hok2 Hnone Hemail eq_refl Hhash)
    as Hsignup.
  assert (Hdb1 : db1 = mkDb (users db ++ [newUser]) (restaurants db)
                         (N.succ (next_oid db)) (tl (tl (faults db)))).
  { unfold db1. rewrite Hsignup. reflexivity. }
  (* login *)
  assert (Hok_db1 : round_trips_ok 1 db1 = true).
  { rewrite Hdb1. do 3 apply round_trips_ok_le in Hf2. exact Hf2. }
  assert (Hfound : List.find (Users.has_email email) (users db1) = Some newUser).
  { rewrite Hdb1. simpl. apply find_snoc_fresh; [exact Hnone|].
    unfold Users.has_email. simpl. apply String.eqb_refl. }
  assert (Hlogin : post_login now_ms req db1
                   = (Ok (respond 200 (JToken token)), settled db1)).
  { rewrite (login_run now_ms req db1 Hok_db1). simpl cred_email.
    rewrite Hfound. simpl. rewrite Hcmp, Hsecret.
    rewrite (sign_with_secret _ _ _ _ Hkey). reflexivity. }
  assert (Hdb2 : db2 = mkDb (users db ++ [newUser]) (restaurants db)
                         (N.succ (next_oid db)) (tl (tl (tl (faults db))))).
  { unfold db2. rewrite Hlogin, Hdb1. reflexivity. }
  (* listing with the token *)
  assert (Hok_db2 : round_trips_ok 1 db2 = true).
  { rewrite Hdb2. do 2 apply round_trips_ok_le in Hf3. exact Hf3. }
  assert (Hlist : get_restaurants_all later_ms (bearer token) db2
                  = (Ok (respond 200 (JRestaurants (restaurants db2))), settled db2)).
  { unfold get_restaurants_all, protected. rewrite Hauth.
    apply list_handler_ok. exact Hok_db2. }
  assert (Hdb3 : db3 = mkDb (users db ++ [newUser]) (restaurants db)
                         (N.succ (next_oid db)) (tl (tl (tl (tl (faults db)))))).
  { unfold db3. rewrite Hlist, Hdb2. reflexivity. }
  (* listing without a header *)
  assert (Hdb4 : db4 = db3) by reflexivity.
  (* self-delete *)
  assert (Hok_db4 : round_trips_ok 1 db4 = true).
  { rewrite Hdb4, Hdb3. apply round_trips_ok_le in Hf4. exact Hf4. }
  assert (Hself : List.find (Users.has_id (next_oid db)) (users db4) = Some newUser).
  { rewrite Hdb4, Hdb3. simpl. apply find_snoc_fresh.
    - destruct (List.find (Users.has_id (next_oid db)) (users db)) as [v|] eqn:Hv;
        [|reflexivity].
      exfalso. apply find_some in Hv as [Hvin Hvid].
      unfold Users.has_id in Hvid. apply N.eqb_eq in Hvid.
      destruct Hwf as (_ & _ & _ & Hub & _).
      assert (Hlt : (usersSchema._id v < next_oid db)%N)
        by (apply Hub; apply in_map; exact Hvin).
      lia.
    - unfold Users.has_id. simpl. apply N.eqb_refl. }
  assert (Hremoved : Users.remove_first (next_oid db) (users db ++ [newUser])
                     = users db).
  { assert (Hnoid : forall v, In v (users db) ->
                      Users.has_id (next_oid db) v = false).
    { intros v Hvin. unfold Users.has_id. apply N.eqb_neq.
      destruct Hwf as (_ & _ & _ & Hub & _).
      assert (Hlt : (usersSchema._id v < next_oid db)%N)
        by (apply Hub; apply in_map; exact Hvin).
      lia. }
    clear - Hnoid. induction (users db) as [|x us IH]; simpl.
    - unfold Users.has_id. simpl. rewrite N.eqb_refl. reflexivity.
    - rewrite (Hnoid x) by (left; reflexivity).
      rewrite IH; [reflexivity|]. intros v Hv. apply Hnoid. right. exact Hv. }
  assert (Hdelete : delete_users_me later_ms (bearer token) db4
                    = (Ok (respond 200 (JMessage "User deleted successfully")),
                       mkDb (users db) (restaurants db) (N.succ (next_oid db))
                         (tl (tl (tl (tl (tl (faults db)))))))).
  { unfold delete_users_me, protected. rewrite Hauth.
    rewrite (delete_me_handler_ok claims db4 Hok_db4).
    change (Claims.userId claims) with (next_oid db). rewrite Hself.
    rewrite Hdb4, Hdb3. simpl. rewrite Hremoved. reflexivity. }
  assert (Hdb5 : db5 = mkDb (users db) (restaurants db) (N.succ (next_oid db))
                         (tl (tl (tl (tl (tl (faults db))))))).
  { unfold db5. rewrite Hdelete. reflexivity. }
  assert (Hok_db5 : round_trips_ok 1 db5 = true) by (rewrite Hdb5; exact Hf5).
  split; [rewrite Hsignup; reflexivity|].
  split; [rewrite Hlogin; reflexivity|].
  split; [rewrite Hlist, Hdb2; reflexivity|].
  split; [reflexivity|].
  split; [rewrite Hdelete; reflexivity|].
  split.
  - rewrite (login_run later_ms req db5 Hok_db5), Hdb5. simpl.
    rewrite Hnone. reflexivity.
  - rewrite Hdb5. split; reflexivity.
Qed.

Lemma signup_login_list_self_delete_witness :
  let req := credentials "bob@example.com" (Some "builder") in
  let db1 := store_after (@post_signup Reference.platform "pepper" req
                            Reference.db) in
  outcome (@post_signup Reference.platform "pepper" req Reference.db)
  = Ok (respond 201 (JMessage "User successfully registered"))
  /\ exists token,
       outcome (@post_login Reference.platform Reference.clock req db1)
       = Ok (respond 200 (JToken token)).
Proof.
  destruct (@signup_login_list_self_delete Reference.platform "pepper"
              "bob@example.com" "builder" "top-secret" Reference.clock
              Reference.clock Reference.db reference_store_well_formed)
    as (Hsignup & Hlogin & _); try (vm_compute; reflexivity).
  - vm_compute. intuition discriminate.
  - split; [exact Hsignup|]. eexists. exact Hlogin.
Defined.

(** Property X21.  From its expiry on, a token that [jwt.sign] issued is refused on
    every protected route: the answer is 403 "Invalid token", the
    handler does not run and the store is not changed. *)
Theorem expired_token_is_refused `{Platform} (userId : ObjectId)
    (email key : string) (now_ms later_ms : Z)
    (handler : Claims.t -> M Response) (db : Db) :
  let claims := issued_claims userId email now_ms in
  let token := jws_sign claims key in
  JWT_SECRET = Some key ->
  Js.truthy key = true ->
  length (Js.split "."%char token) = 3%nat ->
  jws_decode token = Some claims ->
  jws_verify token key = true ->
  spaceless token = true ->
  (jwt.timestamp now_ms + 3600 <= jwt.timestamp later_ms)%Z ->
  protected later_ms (bearer token) handler db
  = (Ok (respond 403 (JError "Invalid token")), db).
Proof.
  intros claims token Hsecret Hkey Hparts Hdecode Hsig Hspace Hlater.
  assert (Htoken : header_token (bearer token) = Some token).
  { unfold bearer.
    change ("Bearer " ++ token)%string
      with ("Bearer" ++ String " "%char token)%string.
    rewrite (header_token_second_field "Bearer" token eq_refl).
    rewrite (first_field_spaceless _ Hspace). reflexivity. }
  unfold protected.
  rewrite (authenticateToken_token _ _ _ Htoken (three_parts_truthy _ Hparts)).
  rewrite Hsecret, (verify_signed token key claims later_ms Hkey Hparts Hdecode Hsig).
  simpl. change jwt.expiresIn_1h with 3600%Z.
  destruct (Z.leb_spec (jwt.timestamp now_ms + 3600) (jwt.timestamp later_ms));
    [reflexivity|lia].
Qed.

Lemma expired_token_is_refused_witness :
  @get_restaurants_all Reference.platform (Reference.clock + 3600000)%Z
    (bearer Reference.alice_token) Reference.db
  = (Ok (respond 403 (JError "Invalid token")), Reference.db).
Proof.
  apply (@expired_token_is_refused Reference.platform 1%N "alice@example.com"
           "top-secret" Reference.clock (Reference.clock + 3600000)%Z
           (fun _ => @list_handler Reference.platform) Reference.db);
    vm_compute; solve [reflexivity | discriminate].
Defined.
